(** * InnovateX front end: a shallow embedding and its verified properties

    The development follows the JavaScript sources of the repository:

    - [Js]            the fragment of JavaScript values the sources compute with
                      (JSON values, [undefined], truthiness, property reads);
    - [QrDecoder]     [ensureURLProtocol] (utils/qrDecoder);
    - [Report]        [convertOldFormat] and [parseBackend] (App.jsx);
    - [DocumentsList] the totals of the multi-document result list;
    - [App]           the loop of [analyzeMultipleDocuments];
    - [Double]        the arithmetic of IEEE doubles: rounding to the nearest
                      binary64 number, product and quotient;
    - [PdfViewer]     scale factors, overlay boxes and page navigation;
    - [Ledger]        the retention ledger, whose implementation is not part of
                      the front-end sources and is modelled from the specification;
    - [ScanHistory]   the API client's [request]/[deleteScan] and the page's
                      [handleDelete];
    - [Samples]       concrete reports, files and ledgers used in the examples;
    - [Upload]        the upload cards and the list of selected files;
    - [AppFull]       the whole state of [App], the single scan and the viewer;
    - [Progress]      the progress shown per file;
    - [Display]       what the viewer's sidebar and the list of documents draw;
    - [QRAnalyzer]    the QR codes of a result, grouped by page;
    - [ApiClient]     the API client and its token (utils/api);
    - [AuthContext]   the provider's state, the protected routes and the login form;
    - [Download]      the name under which a scan is downloaded;
    - [PageKeys]      the order of the page keys of the legacy format.

    The second half of the file states and proves the properties.

    Conventions.  A JavaScript number is the rational it denotes ([Q]).  The
    arithmetic of the viewer (scale factors, overlay boxes) is that of IEEE
    doubles: every operation rounds its exact result to the nearest binary64
    number ([Double]); elsewhere numbers are only compared and counted.  [NaN]
    and the infinities are outside the model, and wherever JavaScript would
    coerce a non-number operand the model answers [None].
    A string is a [string]; its characters stand for the code units.
    Inside a [try] block a computation is an [option]: [None] is a thrown
    exception, which the enclosing [catch] turns into the function's own
    failure value. *)

From Stdlib Require Import QArith Qabs Qpower Qround ZArith Lia Lqa Ascii String.
From Stdlib Require PrimFloat FloatOps SpecFloat.
From stdpp Require Import base option list sorting strings gmap pretty.

Open Scope string_scope.

(* ===================================================================== *)
(** ** JavaScript values *)
(* ===================================================================== *)

Module Js.

(** The values that reach the front end: what [JSON.parse] produces, plus
    [undefined] (the result of reading a missing property).  The properties of
    an object are kept in the order in which [Object.keys] lists them, with
    pairwise distinct keys. *)
#[local] Unset Elimination Schemes.
Inductive value : Type :=
  | JUndefined
  | JNull
  | JBool (b : bool)
  | JNum (q : Q)
  | JStr (s : string)
  | JArr (elems : list value)
  | JObj (props : list (string * value)).
#[local] Set Elimination Schemes.

(** [!!v]: ToBoolean. *)
Definition truthy (v : value) : bool :=
  match v with
  | JUndefined | JNull => false
  | JBool b => b
  | JNum q => negb (Qeq_bool q 0)
  | JStr s => negb (String.eqb s "")
  | JArr _ | JObj _ => true
  end.

(** [a || b] on values. *)
Definition or_else (a b : value) : value := if truthy a then a else b.

Definition isArray (v : value) : bool :=
  match v with JArr _ => true | _ => false end.

(** The one-character strings of a string, in order. *)
Fixpoint chars (s : string) : list value :=
  match s with
  | EmptyString => []
  | String c r => JStr (String c EmptyString) :: chars r
  end.

(** The own enumerable string-keyed properties of a value, in [Object.keys]
    order.  Arrays and strings expose their indices; the other primitives have
    none.  ([length] is not enumerable and is never read through [get].) *)
Definition entries (v : value) : list (string * value) :=
  match v with
  | JObj props => props
  | JArr elems => imap (fun i x => (pretty i, x)) elems
  | JStr s => imap (fun i x => (pretty i, x)) (chars s)
  | _ => []
  end.

Fixpoint assoc (k : string) (ps : list (string * value)) : value :=
  match ps with
  | [] => JUndefined
  | (k', v) :: r => if String.eqb k k' then v else assoc k r
  end.

(** [v.k] and [v[k]]: reading a property of [undefined] or [null] throws a
    TypeError; a missing property reads as [undefined]. *)
Definition get (v : value) (k : string) : option value :=
  match v with
  | JUndefined | JNull => None
  | _ => Some (assoc k (entries v))
  end.

(** [v?.k]. *)
Definition get_opt (v : value) (k : string) : value :=
  match v with
  | JUndefined | JNull => JUndefined
  | _ => assoc k (entries v)
  end.

(** [Object.keys(v)]: throws on [undefined] and [null]. *)
Definition keys (v : value) : option (list string) :=
  match v with
  | JUndefined | JNull => None
  | _ => Some (fst <$> entries v)
  end.

(** [v === 'literal']. *)
Definition is_str (v : value) (lit : string) : bool :=
  match v with JStr s => String.eqb s lit | _ => false end.

(** [a * b] where both operands are numbers; JavaScript coerces any other
    operand, and that result is not represented. *)
Definition mul (a b : value) : option Q :=
  match a, b with
  | JNum x, JNum y => Some (x * y)%Q
  | _, _ => None
  end.

(** A template literal [`prefix${v}`]: the string [prefix ++ ToString v], with
    the conversion left symbolic. *)
Inductive template : Type := Template (prefix : string) (interpolated : value).

End Js.

Import Js.

(* ===================================================================== *)
(** ** utils/qrDecoder: [ensureURLProtocol] *)
(* ===================================================================== *)

Module QrDecoder.

(** [url.startsWith(p)]. *)
Definition startsWith (url p : string) : bool := String.prefix p url.

(** [ensureURLProtocol], on a string argument ([!url] is then [url === '']). *)
Definition ensureURLProtocol (url : string) : string :=
  if String.eqb url "" then ""
  else if startsWith url "http://" || startsWith url "https://" then url
  else "https://" ++ url.

Definition has_protocol (url : string) : bool :=
  startsWith url "http://" || startsWith url "https://".

End QrDecoder.

(* ===================================================================== *)
(** ** App.jsx: [convertOldFormat] and [parseBackend] *)
(* ===================================================================== *)

Module Report.

(** *** Helpers of [convertOldFormat] *)

Definition of_nat (n : nat) : Q := inject_Z (Z.of_nat n).

Fixpoint drop_chars (n : nat) (s : string) : string :=
  match n, s with
  | O, _ => s
  | S m, String _ r => drop_chars m r
  | S _, EmptyString => EmptyString
  end.

(** [s.replace(pat, '')] for a non-empty string pattern: the first occurrence
    is removed. *)
Fixpoint remove_first (pat s : string) : string :=
  if String.prefix pat s then drop_chars (String.length pat) s
  else match s with
       | EmptyString => EmptyString
       | String c r => String c (remove_first pat r)
       end.

Definition is_space (c : ascii) : bool :=
  let n := nat_of_ascii c in
  (n =? 32)%nat || ((9 <=? n)%nat && (n <=? 13)%nat).

Definition digit_of (c : ascii) : option Z :=
  let n := nat_of_ascii c in
  if ((48 <=? n)%nat && (n <=? 57)%nat) then Some (Z.of_nat (n - 48)) else None.

Fixpoint skip_spaces (s : string) : string :=
  match s with
  | String c r => if is_space c then skip_spaces r else s
  | EmptyString => s
  end.

(** The longest prefix of decimal digits, read left to right. *)
Fixpoint read_digits (acc : option Z) (s : string) : option Z :=
  match s with
  | String c r =>
      match digit_of c with
      | Some d => read_digits (Some (10 * default 0%Z acc + d)%Z) r
      | None => acc
      end
  | EmptyString => acc
  end.

(** [parseInt(s, 10)]; [None] is [NaN].  Leading white space is the ASCII
    white space, and the value is the exact integer (no rounding to a
    double): the number JavaScript returns for integers up to [2^53] in
    absolute value. *)
Definition parseInt (s : string) : option Z :=
  match skip_spaces s with
  | String "-"%char r => Z.opp <$> read_digits None r
  | String "+"%char r => read_digits None r
  | t => read_digits None t
  end.

Definition page_no (k : string) : option Z := parseInt (remove_first "page_" k).

(** The comparator of the page-key sort is positive: [a] goes after [b].
    A [NaN] difference counts as zero. *)
Definition after (a b : string) : bool :=
  match page_no a, page_no b with
  | Some x, Some y => (y <? x)%Z
  | _, _ => false
  end.

Fixpoint insert_key (k : string) (l : list string) : list string :=
  match l with
  | [] => [k]
  | k' :: r => if after k k' then k' :: insert_key k r else k :: l
  end.

(** [keys.sort(cmp)]: a stable sort.  Where the comparator is not a consistent
    order (some key without a number) ECMAScript leaves the result to the
    engine; it is a permutation of the keys in every engine.  Numbers are
    compared exactly, as JavaScript compares page numbers up to [2^53]. *)
Definition sort_keys (l : list string) : list string := foldr insert_key [] l.

(** [arr.map(f)] inside a [try]: [f] may throw; a receiver that is not an
    array has no [map] method and the call throws. *)
Definition map_array (f : value -> option value) (arr : value) : option (list value) :=
  match arr with
  | JArr l => mapM f l
  | _ => None
  end.

Definition convert_entry (entry : value) : option value :=
  ks ← keys entry;
  let idKey := head ks in
  let v := assoc (default "undefined" idKey) (entries entry) in
  category ← get v "category";
  bbox ← get v "bbox";
  area ← get v "area";
  Some (JObj [ ("id", from_option JStr JUndefined idKey);
               ("category", category);
               ("bbox", bbox);
               ("confidence", JNum (95 # 100));
               ("area", area) ]).

Definition convert_page (fileData : value) (idx : nat) (pk : string) : option value :=
  page ← get fileData pk;
  page_size ← get page "page_size";
  anns ← get page "annotations";
  annotations ← map_array convert_entry (or_else anns (JArr []));
  Some (JObj [ ("page_number", JNum (of_nat (idx + 1)));
               ("page_size", page_size);
               ("annotations", JArr annotations) ]).

(** [arr.map((x, idx) => f idx x)] with a callback that may throw. *)
Fixpoint mapM_from {A B} (f : nat -> A -> option B) (idx : nat) (l : list A) : option (list B) :=
  match l with
  | [] => Some []
  | x :: r => y ← f idx x; ys ← mapM_from f (S idx) r; Some (y :: ys)
  end.

(** [convertOldFormat]; [None] is the [null] result. *)
Definition convertOldFormat (json : value) : option value :=
  ks ← keys json;
  match head ks with
  | None => None
  | Some fileKey =>
      if String.eqb fileKey "" then None
      else
        let fileData := assoc fileKey (entries json) in
        pks ← keys (or_else fileData (JObj []));
        let pageKeys := sort_keys pks in
        pages ← mapM_from (convert_page fileData) 0 pageKeys;
        Some (JObj [ ("document_name", JStr fileKey);
                     ("total_pages", JNum (of_nat (length pageKeys)));
                     ("pages", JArr pages);
                     ("processing_time", JNum 0) ])
  end.

(** *** [parseBackend] *)

Record item : Type := Item {
  id : value;
  category : value;
  bbox : value;
  confidence : value;
  area : option Q
}.

Record page : Type := Page {
  index : nat;
  pageKey : template;
  pageSize : value;
  items : list item
}.

Record counters : Type := Counters {
  qr : nat;
  signatures : nat;
  stamps : nat
}.

Record parsed : Type := Parsed {
  fileName : value;
  pages : list page;
  result_counters : counters;
  processingTime : value
}.

Definition parse_item (ann : value) : option item :=
  a_id ← get ann "id";
  a_category ← get ann "category";
  a_bbox ← get ann "bbox";
  a_confidence ← get ann "confidence";
  w ← get a_bbox "width";
  h ← get a_bbox "height";
  Some (Item a_id a_category a_bbox a_confidence (mul w h)).

Definition parse_page (idx : nat) (pg : value) : option page :=
  anns ← get pg "annotations";
  its ← match or_else anns (JArr []) with
        | JArr l => mapM parse_item l
        | _ => None
        end;
  page_number ← get pg "page_number";
  page_size ← get pg "page_size";
  Some (Page idx (Template "page_" page_number) page_size its).

(** The body of [forEach] in the counters reduction. *)
Definition count_item (acc : counters) (it : item) : counters :=
  if is_str (category it) "qr" then
    Counters (qr acc + 1) (signatures acc) (stamps acc)
  else if is_str (category it) "signature" then
    Counters (qr acc) (signatures acc + 1) (stamps acc)
  else if is_str (category it) "stamp" then
    Counters (qr acc) (signatures acc) (stamps acc + 1)
  else acc.

Definition count_page (acc : counters) (p : page) : counters :=
  foldl count_item acc (items p).

Definition count_pages (ps : list page) : counters :=
  foldl count_page (Counters 0 0 0) ps.

(** [parseBackend]; [None] is the [null] result, both of the explicit format
    check and of the [catch]. *)
Definition parseBackend (json : value) : option parsed :=
  document_name ← get json "document_name";
  json_pages ← get json "pages";
  if negb (truthy document_name) || negb (truthy json_pages) || negb (isArray json_pages)
  then None
  else
    match json_pages with
    | JArr l =>
        ps ← mapM_from parse_page 0 l;
        processing_time ← get json "processing_time";
        Some (Parsed document_name ps (count_pages ps) processing_time)
    | _ => None
    end.

(** *** Notions used to state the properties of [parseBackend] *)

(** The annotation list of a page of the raw response, as [parseBackend] and
    [convertOldFormat] read it: [page.annotations || []]. *)
Definition annotations (rp : value) : list value :=
  match or_else (get_opt rp "annotations") (JArr []) with
  | JArr l => l
  | _ => []
  end.

(** The characters ['0'] to ['9']. *)
Definition digit_char (c : ascii) : Prop :=
  exists d, (d < 10)%N /\ c = pretty_N_char d.

(** The pages of a raw response. *)
Definition report_pages (json : value) : list value :=
  match get_opt json "pages" with
  | JArr l => l
  | _ => []
  end.

(** A parsed item carries the fields of its annotation unchanged. *)
Definition item_of (ann : value) (it : item) : Prop :=
  id it = get_opt ann "id" /\
  category it = get_opt ann "category" /\
  bbox it = get_opt ann "bbox" /\
  confidence it = get_opt ann "confidence".

(** A parsed page is the raw page at the same position. *)
Definition page_of (i : nat) (rp : value) (pg : page) : Prop :=
  index pg = i /\
  pageKey pg = Template "page_" (get_opt rp "page_number") /\
  pageSize pg = get_opt rp "page_size" /\
  Forall2 item_of (annotations rp) (items pg).

Definition tally (name : string) (its : list item) : nat :=
  length (filter (fun it => is_str (category it) name = true) its).

(** The number of annotations of one category in the raw response. *)
Definition detections (name : string) (json : value) : nat :=
  sum_list ((fun rp =>
     length (filter (fun a => is_str (get_opt a "category") name = true) (annotations rp)))
   <$> report_pages json).

(** [v] is the number [n]. *)
Definition numbered (v : value) (n : nat) : Prop :=
  exists q, v = JNum q /\ (q == of_nat n)%Q.

(** The invariant of a report: [total_pages] is the number of pages, and the
    page at position [i] has [page_number] [i + 1]. *)
Definition report_invariant (json : value) : Prop :=
  numbered (get_opt json "total_pages") (length (report_pages json)) /\
  forall i rp, report_pages json !! i = Some rp ->
    numbered (get_opt rp "page_number") (i + 1).

(** The same for a parsed result: the page count shown ([pages.length]) is
    [total_pages], and the page at position [i] has index [i] and the key of
    page [i + 1]. *)
Definition parsed_invariant (total_pages : value) (p : parsed) : Prop :=
  numbered total_pages (length (pages p)) /\
  forall i pg, pages p !! i = Some pg ->
    index pg = i /\
    exists v, pageKey pg = Template "page_" v /\ numbered v (i + 1).

(** The threshold of the app's detect requests ([conf_threshold=0.5]). *)
Definition conf_threshold : Q := 1 # 2.

(** A confidence in [0,1] and not below the threshold [t]. *)
Definition confidence_ok (t : Q) (c : value) : Prop :=
  exists q, c = JNum q /\ (0 <= q)%Q /\ (q <= 1)%Q /\ (t <= q)%Q.

Definition items_ok (t : Q) (p : parsed) : Prop :=
  forall pg it, pg ∈ pages p -> it ∈ items pg -> confidence_ok t (confidence it).

Definition annotations_ok (t : Q) (json : value) : Prop :=
  forall rp a, rp ∈ report_pages json -> a ∈ annotations rp ->
    confidence_ok t (get_opt a "confidence").

(** The closed set of detection categories. *)
Definition known_category (c : value) : Prop :=
  c = JStr "qr" \/ c = JStr "signature" \/ c = JStr "stamp".

End Report.

(* ===================================================================== *)
(** ** DocumentsList.jsx: totals over the multi-document results *)
(* ===================================================================== *)

Module DocumentsList.
Import Report.

(** The [message] of a thrown [Error], as the sources build it. *)
Inductive message : Type :=
  | MsgDetail (detail : value)          (* new Error(errorData.detail) *)
  | MsgBackendError (status : nat)      (* `Backend error: ${res.status}` *)
  | MsgRequestFailed                    (* 'Request failed' *)
  | MsgInvalidFormat                    (* 'Invalid response format' *)
  | MsgRuntime (text : string).         (* message of a TypeError, SyntaxError, ... *)

Inductive status : Type := Processing | Completed | Failed.

Definition status_eqb (a b : status) : bool :=
  match a, b with
  | Processing, Processing | Completed, Completed | Failed, Failed => true
  | _, _ => false
  end.

(** A browser [File]: only its name is read. *)
Record file : Type := File { name : string }.

(** An entry of the [documents] state; [status] is 'processing', 'completed'
    or 'error' ([Failed]). *)
Record document : Type := Document {
  doc_file : file;
  doc_status : status;
  results : option parsed;
  error : option message
}.

Record stats : Type := Stats {
  total_qr : nat;
  total_signatures : nat;
  total_stamps : nat;
  total_pages : nat;
  total_time : option Q
}.

(** [acc.processingTime += t || 0], while every addend is a number. *)
Definition add_time (acc : option Q) (t : value) : option Q :=
  match acc, or_else t (JNum 0) with
  | Some a, JNum q => Some (a + q)%Q
  | _, _ => None
  end.

(** The callback of the [totalStats] reduction. *)
Definition add_doc (acc : stats) (doc : document) : stats :=
  match results doc with
  | Some r =>
      Stats (total_qr acc + qr (result_counters r))
            (total_signatures acc + signatures (result_counters r))
            (total_stamps acc + stamps (result_counters r))
            (total_pages acc + length (pages r))
            (add_time (total_time acc) (processingTime r))
  | None => acc
  end.

Definition totalStats (documents : list document) : stats :=
  foldl add_doc (Stats 0 0 0 0 (Some 0%Q)) documents.

Definition completedDocs (documents : list document) : nat :=
  length (filter (fun doc => status_eqb (doc_status doc) Completed = true) documents).

Definition errorDocs (documents : list document) : nat :=
  length (filter (fun doc => status_eqb (doc_status doc) Failed = true) documents).

(** One counter of every document that has results, added up. *)
Definition sum_results (sel : counters -> nat) (documents : list document) : nat :=
  sum_list ((fun doc =>
     match results doc with
     | Some r => sel (result_counters r)
     | None => 0
     end) <$> documents).

(** One counter of every completed document, added up. *)
Definition sum_completed (sel : counters -> nat) (documents : list document) : nat :=
  sum_list ((fun doc =>
     match doc_status doc, results doc with
     | Completed, Some r => sel (result_counters r)
     | _, _ => 0
     end) <$> documents).

End DocumentsList.

(* ===================================================================== *)
(** ** App.jsx: [analyzeMultipleDocuments] *)
(* ===================================================================== *)

Module App.
Import Report DocumentsList.

Inductive view : Type := Upload | Results | Viewer.

(** What [await fetch(...)] gives: a rejection, or a response with its [ok]
    flag, its status and its body (left: the body is not JSON and [res.json()]
    rejects with that message; right: the parsed body). *)
Inductive fetched : Type :=
  | Rejected (msg : string)
  | Response (ok : bool) (http_status : nat) (body : string + value).

(** The detection endpoint as the loop sees it: the answer to the request
    number [i], sent for file [f]. *)
Definition network : Type := nat -> file -> fetched.

Record state : Type := State {
  files : list file;
  documents : list document;
  current_view : view;
  isUploading : bool;
  app_error : option message;
  progress : gmap nat nat
}.

Definition set_documents (f : list document -> list document) (s : state) : state :=
  State (files s) (f (documents s)) (current_view s) (isUploading s) (app_error s) (progress s).

Definition set_progress (i p : nat) (s : state) : state :=
  State (files s) (documents s) (current_view s) (isUploading s) (app_error s)
        (<[i := p]> (progress s)).

Definition set_uploading (b : bool) (s : state) : state :=
  State (files s) (documents s) (current_view s) b (app_error s) (progress s).

(** [prev.map((doc, idx) => idx === i ? upd doc : doc)]. *)
Definition update_doc (i : nat) (upd : document -> document) (docs : list document)
  : list document :=
  imap (fun idx doc => if Nat.eqb idx i then upd doc else doc) docs.

Definition complete (r : parsed) (doc : document) : document :=
  Document (doc_file doc) Completed (Some r) (error doc).

Definition fail (m : message) (doc : document) : document :=
  Document (doc_file doc) Failed (results doc) (Some m).

(** The part of the [try] block after [fetch] has settled: either the parsed
    result or the message of the error thrown. *)
Definition outcome (r : fetched) : message + parsed :=
  match r with
  | Rejected msg => inl (MsgRuntime msg)
  | Response false st body =>
      let errorData := match body with inr v => v | inl _ => JObj [] end in
      match get errorData "detail" with
      | None => inl (MsgRuntime "Cannot read properties of null (reading 'detail')")
      | Some d => if truthy d then inl (MsgDetail d) else inl (MsgBackendError st)
      end
  | Response true _ (inl syntax_error) => inl (MsgRuntime syntax_error)
  | Response true _ (inr json) =>
      match parseBackend json with
      | None => inl MsgInvalidFormat
      | Some p => inr p
      end
  end.

(** One iteration of the loop, for index [i]. *)
Definition process (net : network) (i : nat) (f : file) (s : state) : state :=
  let s := set_progress i 0 s in
  let s := set_progress i 30 s in
  let r := net i f in
  let s := match r with Rejected _ => s | Response _ _ _ => set_progress i 70 s end in
  match outcome r with
  | inr p => set_documents (update_doc i (complete p)) (set_progress i 100 s)
  | inl m => set_documents (update_doc i (fail m)) s
  end.

(** [for (let i = ...; i < files.length; i++)], from index [i] on; the second
    component logs the requests sent, in order. *)
Fixpoint loop (net : network) (i : nat) (rest : list file) (s : state) (log : list file)
  : state * list file :=
  match rest with
  | [] => (s, log)
  | f :: rest' => loop net (S i) rest' (process net i f s) (log ++ [f])
  end.

Definition initialDocs (fs : list file) : list document :=
  (fun f => Document f Processing None None) <$> fs.

Definition analyzeMultipleDocuments (net : network) (s : state) : state * list file :=
  match files s with
  | [] => (s, [])
  | _ =>
      let s1 := State (files s) (initialDocs (files s)) Results true None (progress s) in
      let '(s2, log) := loop net 0 (files s) s1 [] in
      (set_uploading false s2, log)
  end.

(** The entry of the document at index [i] once its iteration is over. *)
Definition settled (net : network) (i : nat) (f : file) : document :=
  match outcome (net i f) with
  | inr p => Document f Completed (Some p) None
  | inl m => Document f Failed None (Some m)
  end.

End App.

(* ===================================================================== *)
(** ** The arithmetic of IEEE doubles *)
(* ===================================================================== *)

Module Double.
#[local] Open Scope Q_scope.

(** [2^e], for an integer [e]. *)
Definition pow2 (e : Z) : Q := 2 ^ e.

(** The integer nearest to [x]; a tie goes to the even one. *)
Definition nearest_even (x : Q) : Z :=
  let f := Qfloor x in
  match Qcompare (x - inject_Z f) (1 # 2) with
  | Lt => f
  | Gt => (f + 1)%Z
  | Eq => if Z.even f then f else (f + 1)%Z
  end.

(** The exponent of the last bit of a 53-bit significand of [q]: the [e] with
    [2^52 <= |q| / 2^e < 2^53], and -1074 for the subnormal numbers.  The
    sizes of numerator and denominator give it up to one. *)
Definition exponent (q : Q) : Z :=
  let e0 := (Z.log2 (Z.abs (Qnum q)) - Z.log2 (Zpos (Qden q)) - 53)%Z in
  let e := if Qle_bool (pow2 53) (Qabs q / pow2 e0) then (e0 + 1)%Z else e0 in
  Z.max e (-1074).


(** [Number.MAX_VALUE]. *)
Definition largest : Q := inject_Z (2 ^ 53 - 1) * pow2 971.

(** The double nearest to the rational [q] (round to nearest, ties to even),
    in lowest terms; [None] when the result is an infinity. *)
Definition to_double (q : Q) : option Q :=
  if Qeq_bool q 0 then Some 0
  else
    let e := exponent q in
    let d := Qred (inject_Z (nearest_even (q / pow2 e)) * pow2 e) in
    if Qle_bool (Qabs d) largest then Some d else None.

(** [a * b] on doubles. *)
Definition mul (a b : Q) : option Q := to_double (a * b).

(** [a / b] on doubles; a zero divisor gives an infinity or [NaN]. *)
Definition div (a b : Q) : option Q :=
  if Qeq_bool b 0 then None else to_double (a / b).

(** The value of one of the kernel's binary64 numbers, when it is finite. *)
Definition of_float (f : PrimFloat.float) : option Q :=
  match FloatOps.Prim2SF f with
  | SpecFloat.S754_zero _ => Some 0
  | SpecFloat.S754_finite s m e =>
      let v := inject_Z (Zpos m) * pow2 e in
      Some (Qred (if s then - v else v))
  | _ => None
  end.

(** *** Notions used to state how close a computed number is *)



(** The magnitude of [q] is between [2^-k] and [2^k]. *)
Definition mag (k : Z) (q : Q) : Prop := pow2 (- k) <= Qabs q /\ Qabs q <= pow2 k.

End Double.

(* ===================================================================== *)
(** ** PdfViewer.jsx: colours, scale factors, overlay boxes, navigation *)
(* ===================================================================== *)

Module PdfViewer.
Import Report.

Definition categoryColor (c : value) : string :=
  if is_str c "qr" then "blue"
  else if is_str c "signature" then "green"
  else "orange".

(** The [visible] state: one flag per checkbox. *)
Record toggles : Type := Toggles {
  show_qr : bool;
  show_signature : bool;
  show_stamp : bool
}.

(** Whether the property key made from [v] is the (alphabetic) [name]: a
    string is its own key, and an array of one element converts as that
    element does. *)
Fixpoint keyed (v : value) (name : string) : bool :=
  match v with
  | JStr s => String.eqb s name
  | JArr [x] => keyed x name
  | _ => false
  end.

(** [visible[it.category] !== false]. *)
Definition shown (vis : toggles) (c : value) : bool :=
  if keyed c "qr" then show_qr vis
  else if keyed c "signature" then show_signature vis
  else if keyed c "stamp" then show_stamp vis
  else true.

(** A number operand; [None]: the value is not a number (JavaScript would
    coerce it, which is outside the model). *)
Definition num (v : value) : option Q :=
  match v with JNum q => Some q | _ => None end.

Definition nonzero (q : Q) : bool := negb (Qeq_bool q 0).

(** [pages[pageIndex]], [undefined] when the index is not one of the array. *)
Definition page_at (ps : list page) (pageIndex : option Z) : option page :=
  match pageIndex with
  | Some z => if (z <? 0)%Z then None else ps !! Z.to_nat z
  | None => None
  end.

(** The [renderedHeight] memo,
    [(containerWidth * current.pageSize.height) / current.pageSize.width];
    [renderedHeightState] is the constant 0. *)
Definition renderedHeight (current : option page) (containerWidth : Z) : option Q :=
  match current with
  | None => Some 0%Q
  | Some c =>
      let w := get_opt (pageSize c) "width" in
      let h := get_opt (pageSize c) "height" in
      if negb (nonzero (inject_Z containerWidth)) || negb (truthy w) || negb (truthy h)
      then Some 0%Q
      else
        pw ← num w; ph ← num h;
        m ← Double.mul (inject_Z containerWidth) ph;
        Double.div m pw
  end.

(** [containerWidth / current.pageSize.width], or 1. *)
Definition scaleX (current : option page) (containerWidth : Z) : option Q :=
  match current with
  | None => Some 1%Q
  | Some c =>
      let w := get_opt (pageSize c) "width" in
      if nonzero (inject_Z containerWidth) && truthy w
      then pw ← num w; Double.div (inject_Z containerWidth) pw
      else Some 1%Q
  end.

(** [renderedHeight / current.pageSize.height], or 1. *)
Definition scaleY (current : option page) (containerWidth : Z) : option Q :=
  match current with
  | None => Some 1%Q
  | Some c =>
      let h := get_opt (pageSize c) "height" in
      rh ← renderedHeight current containerWidth;
      if nonzero rh && truthy h
      then ph ← num h; Double.div rh ph
      else Some 1%Q
  end.

Record box : Type := Box { left : Q; top : Q; width : Q; height : Q }.

(** The bounding box of an item, when its four coordinates are numbers. *)
Definition bbox_of (it : item) : option box :=
  x ← num (get_opt (bbox it) "x");
  y ← num (get_opt (bbox it) "y");
  w ← num (get_opt (bbox it) "width");
  h ← num (get_opt (bbox it) "height");
  Some (Box x y w h).

(** The style of an overlay box: [it.bbox.x * scaleX], [it.bbox.y * scaleY],
    [it.bbox.width * scaleX], [it.bbox.height * scaleY]. *)
Definition scale_box (sx sy : Q) (b : box) : option box :=
  l ← Double.mul (left b) sx;
  t ← Double.mul (top b) sy;
  w ← Double.mul (width b) sx;
  h ← Double.mul (height b) sy;
  Some (Box l t w h).


Definition overlay_box (current : option page) (containerWidth : Z) (it : item) : option box :=
  sx ← scaleX current containerWidth;
  sy ← scaleY current containerWidth;
  b ← bbox_of it;
  scale_box sx sy b.

(** *** Notions used to state the properties of the overlay *)



(** The items drawn over the current page. *)
Definition overlay_items (vis : toggles) (current : page) : list item :=
  filter (fun it => shown vis (category it) = true) (items current).

(** *** Navigation *)

Record state : Type := State {
  containerWidth : Z;
  pageIndex : option Z;          (* [None] is NaN *)
  visible : toggles;
  selectedItem : option (nat * value);
  showSpotlight : bool
}.

Definition initial : state := State 0 (Some 0%Z) (Toggles true true true) None false.

Definition setPageIndex (i : option Z) (s : state) : state :=
  State (containerWidth s) i (visible s) (selectedItem s) (showSpotlight s).

Definition setSelectedItem (sel : option (nat * value)) (s : state) : state :=
  State (containerWidth s) (pageIndex s) (visible s) sel (showSpotlight s).

Definition setShowSpotlight (b : bool) (s : state) : state :=
  State (containerWidth s) (pageIndex s) (visible s) (selectedItem s) b.

Definition setContainerWidth (w : Z) (s : state) : state :=
  State w (pageIndex s) (visible s) (selectedItem s) (showSpotlight s).

Definition setVisible (vis : toggles) (s : state) : state :=
  State (containerWidth s) (pageIndex s) vis (selectedItem s) (showSpotlight s).

Definition count (ps : list page) : Z := Z.of_nat (length ps).

(** The value of the option for page [i], as the select element reports it. *)
Definition option_value (i : nat) : string := pretty i.

Inductive event : Type :=
  | Prev
  | Next
  | SelectOption (i : nat)
  | PageButton (idx : nat)
  | Cutout (originalIdx : nat) (itemId : value)
  | Resize (w : Z)
  | Toggle (vis : toggles)
  | SpotlightTimeout.

Definition onPrev (s : state) : state :=
  setPageIndex (z ← pageIndex s; Some (Z.max (z - 1) 0)) s.

Definition onNext (ps : list page) (s : state) : state :=
  setPageIndex (z ← pageIndex s; Some (Z.min (z + 1) (count ps - 1))) s.

Definition onSelect (v : string) (s : state) : state :=
  setPageIndex (parseInt v) s.

Definition onPageButton (idx : nat) (s : state) : state :=
  setSelectedItem None (setPageIndex (Some (Z.of_nat idx)) s).

Definition onCutout (originalIdx : nat) (itemId : value) (s : state) : state :=
  setShowSpotlight true
    (setSelectedItem (Some (originalIdx, itemId))
       (setPageIndex (Some (Z.of_nat originalIdx)) s)).

Definition handle (ps : list page) (e : event) (s : state) : state :=
  match e with
  | Prev => onPrev s
  | Next => onNext ps s
  | SelectOption i => onSelect (option_value i) s
  | PageButton idx => onPageButton idx s
  | Cutout idx itemId => onCutout idx itemId s
  | Resize w => setContainerWidth w s
  | Toggle vis => setVisible vis s
  | SpotlightTimeout => setShowSpotlight false s
  end.

Definition prev_disabled (s : state) : bool :=
  match pageIndex s with Some z => (z =? 0)%Z | None => false end.

Definition next_disabled (ps : list page) (s : state) : bool :=
  match pageIndex s with Some z => (z =? count ps - 1)%Z | None => false end.

(** Whether the rendered page offers the interaction: the two buttons unless
    disabled, one option and one page button per page, one cut-out per item
    of a page that has items, any non-negative observed width, a click on one
    of the three checkboxes, and the timer that ends the spotlight.  This
    describes the viewer of a non-empty list of pages: with no page the
    render throws and nothing is offered. *)
Definition offered (ps : list page) (s : state) (e : event) : bool :=
  match e with
  | Prev => negb (prev_disabled s)
  | Next => negb (next_disabled ps s)
  | SelectOption i => (i <? length ps)%nat
  | PageButton idx => (idx <? length ps)%nat
  | Cutout idx _ =>
      match ps !! idx with
      | Some p => negb (Nat.eqb (length (items p)) 0)
      | None => false
      end
  | Resize w => (0 <=? w)%Z
  | Toggle vis =>
      (* one checkbox changes at a time *)
      match Bool.eqb (show_qr vis) (show_qr (visible s)),
            Bool.eqb (show_signature vis) (show_signature (visible s)),
            Bool.eqb (show_stamp vis) (show_stamp (visible s)) with
      | false, true, true | true, false, true | true, true, false => true
      | _, _, _ => false
      end
  | SpotlightTimeout => true
  end.

Inductive step (ps : list page) : state -> state -> Prop :=
  | step_event s e : offered ps s e = true -> step ps s (handle ps e s).

Inductive reachable (ps : list page) : state -> Prop :=
  | reach_initial : reachable ps initial
  | reach_step s s' : reachable ps s -> step ps s s' -> reachable ps s'.

(** The [pageNumber] prop of the main [Page] element. *)
Definition pageNumber (s : state) : option Z := z ← pageIndex s; Some (z + 1)%Z.

Definition in_range (ps : list page) (s : state) : Prop :=
  exists z, pageIndex s = Some z /\ (0 <= z <= count ps - 1)%Z.

(** The pages listed in the sidebar, those with items, each with its place in
    [pages] ([pages.indexOf(page)]: the pages are distinct objects). *)
Definition thumbnails (ps : list page) : list (nat * page) :=
  filter (fun ip => length (items (snd ip)) <> 0) (imap pair ps).

End PdfViewer.

(* ===================================================================== *)
(** ** The retention ledger *)
(* ===================================================================== *)

Module Ledger.

(** Modelled from the spec: the retention ledger of sections 3, 4.6, 4.7 and 7.
    It is implemented by the back-end service, whose sources are not among the
    files of the front end; every definition of this module follows the
    specification's description of it.  Times are seconds. *)
Definition time : Type := Z.

(** Modelled from the spec: the per-category counts of a [ScanRecord]. *)
Record category_counts : Type := Counts {
  signature_count : nat;
  stamp_count : nat;
  qr_count : nat
}.

(** Modelled from the spec: a [ScanRecord], the ledger entry of section 3. *)
Record ScanRecord : Type := Record_ {
  id : nat;
  owner_id : nat;
  document_name : string;
  scan_date : time;
  expires_at : time;
  total_pages : nat;
  counts : category_counts;
  artifact_reference : nat
}.

(** Modelled from the spec: the identity the authentication collaborator
    supplies (section 6). *)
Inductive identity : Type := Anonymous | User (user_id : nat).

(** Modelled from the spec: a caller, with the binary admin capability. *)
Record caller : Type := Caller { caller_identity : identity; is_admin : bool }.

(** Modelled from the spec: the persisted state, one row per completed scan and
    the stored artifacts the rows point at. *)
Record ledger : Type := Ledger { rows : list ScanRecord; artifacts : list nat }.

(** Modelled from the spec: the answer of a ledger operation; [NotFound] is
    the only failure of [get] and [delete] (section 7). *)
Inductive result (A : Type) : Type :=
  | Ok (a : A)
  | NotFound.
Arguments Ok {A} a.
Arguments NotFound {A}.

(** Modelled from the spec: the fixed retention window (90 days, in seconds). *)
Definition retention_window : Z := 90 * 86400.

(** Modelled from the spec: a record is dead once [expires_at <= now], the
    condition of the cleanup sweep (section 4.7). *)
Definition live (now : time) (r : ScanRecord) : bool := (now <? expires_at r)%Z.

(** Modelled from the spec: the ownership rule of [get] and [delete]: an admin
    may see any record, a regular caller only their own (section 4.6). *)
Definition may_access (c : caller) (r : ScanRecord) : bool :=
  is_admin c ||
  match caller_identity c with
  | User u => Nat.eqb u (owner_id r)
  | Anonymous => false
  end.

(** Modelled from the spec: the record [get] and [delete] look for: the one
    with the id asked for, if the caller may see it and it has not expired. *)
Definition selects (c : caller) (scan_id : nat) (now : time) (r : ScanRecord) : bool :=
  Nat.eqb (id r) scan_id && may_access c r && live now r.

(** Modelled from the spec: [get(owner_id_or_admin, scan_id)]; [NotFound] alike
    for a missing record, another owner's record and an expired one. *)
Definition get (c : caller) (scan_id : nat) (now : time) (l : ledger) : result ScanRecord :=
  match filter (fun r => selects c scan_id now r = true) (rows l) with
  | r :: _ => Ok r
  | [] => NotFound
  end.

(** Modelled from the spec: the order of [list], newest first. *)
Definition newer (a b : ScanRecord) : Prop := (scan_date b <= scan_date a)%Z.

#[global] Instance newer_dec a b : Decision (newer a b) :=
  decide (scan_date b <= scan_date a)%Z.

(** Modelled from the spec: [list(owner_id, pagination)], the owner's live
    records, newest first. *)
Definition list_scans (owner : nat) (skip limit : nat) (now : time) (l : ledger)
  : list ScanRecord :=
  take limit (drop skip
    (merge_sort newer
       (filter (fun r => (Nat.eqb (owner_id r) owner && live now r) = true) (rows l)))).

(** Modelled from the spec: [delete(caller, scan_id)], with the ownership rule
    of [get]; it removes the ledger row and the artifact the row points at. *)
Definition delete (c : caller) (scan_id : nat) (now : time) (l : ledger)
  : result unit * ledger :=
  match get c scan_id now l with
  | NotFound => (NotFound, l)
  | Ok r =>
      (Ok tt,
       Ledger (filter (fun r' => Nat.eqb (id r') scan_id = false) (rows l))
              (filter (fun a => Nat.eqb a (artifact_reference r) = false) (artifacts l)))
  end.

(** Modelled from the spec: one run of the cleanup scheduler: every record with
    [expires_at <= now] goes, with its artifact (section 4.7). *)
Definition sweep (now : time) (l : ledger) : ledger :=
  let dead := filter (fun r => live now r = false) (rows l) in
  Ledger (filter (fun r => live now r = true) (rows l))
         (filter (fun a => a ∉ (artifact_reference <$> dead)) (artifacts l)).

(** Modelled from the spec: [record(report, owner_id, artifact_reference)], with
    [expires_at = scan_date + retention_window] and a fresh id. *)
Definition record (name : string) (pages : nat) (cs : category_counts)
    (owner artifact : nat) (now : time) (l : ledger) : ScanRecord * ledger :=
  let r := Record_ (S (foldr Nat.max 0%nat (id <$> rows l))) owner name now
                   (now + retention_window)%Z pages cs artifact in
  (r, Ledger (r :: rows l) (artifact :: artifacts l)).

End Ledger.

(* ===================================================================== *)
(** ** utils/api and ScanHistory.jsx: deleting a scan *)
(* ===================================================================== *)

Module ScanHistory.
Import DocumentsList App.

(** [ApiClient.request] once [fetch] has settled: the data returned or the
    message of the error rethrown; the second component tells whether the
    stored token was cleared (status 401). *)
Definition request (r : fetched) : (message + value) * bool :=
  match r with
  | Rejected msg => (inl (MsgRuntime msg), false)
  | Response ok st body =>
      let cleared := Nat.eqb st 401 in
      match body with
      | inl syntax_error => (inl (MsgRuntime syntax_error), cleared)
      | inr data =>
          if ok then (inr data, cleared)
          else
            match get data "detail" with
            | None =>
                (inl (MsgRuntime "Cannot read properties of null (reading 'detail')"),
                 cleared)
            | Some d =>
                (inl (if truthy d then MsgDetail d else MsgRequestFailed), cleared)
            end
      end
  end.

(** [ApiClient.deleteScan]: a DELETE request to [/api/scans/${scanId}]. *)
Definition deleteScan (server : nat -> fetched) (scanId : nat) : (message + value) * bool :=
  request (server scanId).

(** A row of the history list: only the id matters for deletion. *)
Record scan : Type := Scan { scan_id : nat; scan_name : string }.

(** ['Failed to delete scan: ' + err.message]. *)
Inductive alert : Type := FailedToDelete (m : message).

(** [handleDelete]: the new list of scans and the alert shown, if any.
    [confirmed] is the user's answer to the confirmation dialog. *)
Definition handleDelete (confirmed : bool) (server : nat -> fetched) (scanId : nat)
    (scans : list scan) : list scan * option alert :=
  if negb confirmed then (scans, None)
  else
    match fst (deleteScan server scanId) with
    | inr _ => (filter (fun s => Nat.eqb (scan_id s) scanId = false) scans, None)
    | inl m => (scans, Some (FailedToDelete m))
    end.

(** Modelled from the spec: the HTTP framing of [delete_scan], which the
    specification leaves to the excluded routing layer: success is a 2xx
    response with a JSON message, "not found" a 404 whose [detail] says so. *)
Definition respond (r : Ledger.result unit) : fetched :=
  match r with
  | Ledger.Ok _ => Response true 200 (inr (JObj [("message", JStr "Scan deleted successfully")]))
  | Ledger.NotFound => Response false 404 (inr (JObj [("detail", JStr "Scan not found")]))
  end.

(** One deletion seen from the history page: the back end handles the DELETE
    request of caller [c] at time [now], the page handles the response.  The
    state is the ledger and the page's list of scans; the result also tells
    the alert shown, if any. *)
Definition delete_once (c : Ledger.caller) (now : Ledger.time) (scanId : nat)
    (st : Ledger.ledger * list scan) : (Ledger.ledger * list scan) * option alert :=
  let '(res, l') := Ledger.delete c scanId now (fst st) in
  let '(scans', shown) := handleDelete true (fun _ => respond res) scanId (snd st) in
  ((l', scans'), shown).

End ScanHistory.


(* ===================================================================== *)
(** ** Sample data *)
(* ===================================================================== *)

Module Samples.
Import Report DocumentsList App.

Definition sample_bbox : value :=
  JObj [("x", JNum 510); ("y", JNum 146); ("width", JNum 250); ("height", JNum 98)].

Definition annotation (a_id a_category : string) (a_confidence : Q) : value :=
  JObj [("id", JStr a_id); ("category", JStr a_category);
        ("bbox", sample_bbox); ("confidence", JNum a_confidence)].

Definition sample_page_size : value :=
  JObj [("width", JNum 1190); ("height", JNum 1684)].

(** A three-page report in the shape of the README: one signature on page 1,
    nothing on page 2, one QR code and one stamp on page 3.  The extra
    [total_qr] property is a stored total that disagrees with the pages. *)
Definition sample_report : value :=
  JObj [("document_name", JStr "example.pdf");
        ("total_pages", JNum 3);
        ("total_qr", JNum 99);
        ("pages", JArr [
           JObj [("page_number", JNum 1); ("page_size", sample_page_size);
                 ("annotations", JArr [annotation "detection_1" "signature" (95 # 100)])];
           JObj [("page_number", JNum 2); ("page_size", sample_page_size);
                 ("annotations", JArr [])];
           JObj [("page_number", JNum 3); ("page_size", sample_page_size);
                 ("annotations", JArr [annotation "detection_2" "qr" (92 # 100);
                                       annotation "detection_3" "stamp" (81 # 100)])]]);
        ("processing_time", JNum (245 # 100))].

Definition no_result : parsed := Parsed JUndefined [] (Counters 0 0 0) JUndefined.

Definition sample_parsed : parsed :=
  Eval vm_compute in default no_result (parseBackend sample_report).

(** A response [parseBackend] accepts although it says three pages and holds
    one, numbered 2, with a detection of an unknown category whose confidence
    is below the threshold of the request. *)
Definition odd_report : value :=
  JObj [("document_name", JStr "odd.pdf");
        ("total_pages", JNum 3);
        ("pages", JArr [
           JObj [("page_number", JNum 2); ("page_size", sample_page_size);
                 ("annotations", JArr [annotation "detection_1" "seal" (3 # 10)])]]);
        ("processing_time", JNum 1)].

Definition odd_parsed : parsed :=
  Eval vm_compute in default no_result (parseBackend odd_report).

(** An [example.json] in the old format. *)
Definition old_example : value :=
  JObj [("plan.pdf",
         JObj [("page_10", JObj [("page_size", sample_page_size);
                                 ("annotations", JArr [
                                    JObj [("annotation_7",
                                           JObj [("category", JStr "qr");
                                                 ("bbox", sample_bbox);
                                                 ("area", JNum 24500)])]])]);
               ("page_2", JObj [("page_size", sample_page_size)])])].

(** The first page of [sample_parsed], its signature and the signature's box. *)
Definition sample_page : page :=
  Eval vm_compute in default (Page 0 (Template "" JUndefined) JUndefined []) (head (pages sample_parsed)).

Definition sample_item : item :=
  Eval vm_compute in
    default (Item JUndefined JUndefined JUndefined JUndefined None) (head (items sample_page)).


Definition live_record : Ledger.ScanRecord :=
  Ledger.Record_ 1 1 "a.pdf" 900%Z (900 + Ledger.retention_window)%Z 3
    (Ledger.Counts 1 0 1) 11.

Definition expired_record : Ledger.ScanRecord :=
  Ledger.Record_ 2 1 "old.pdf" (-8000000)%Z (-8000000 + Ledger.retention_window)%Z 2
    (Ledger.Counts 0 1 0) 12.

Definition foreign_record : Ledger.ScanRecord :=
  Ledger.Record_ 3 2 "b.pdf" 950%Z (950 + Ledger.retention_window)%Z 1
    (Ledger.Counts 0 0 0) 13.

(** A ledger with a live scan of user 1, an expired scan of user 1 that the
    sweep has not removed yet, and a live scan of user 2; the time is 1000. *)
Definition sample_ledger : Ledger.ledger :=
  Ledger.Ledger [live_record; expired_record; foreign_record] [11; 12; 13].

Definition user1 : Ledger.caller := Ledger.Caller (Ledger.User 1) false.

Definition sample_scans : list ScanHistory.scan :=
  [ScanHistory.Scan 1 "a.pdf"; ScanHistory.Scan 2 "old.pdf"].

Definition sample_files : list file := [File "a.pdf"; File "b.pdf"; File "c.pdf"].

(** The first request is answered with [sample_report], the second is
    rejected by the network, the third gets a 500. *)
Definition sample_network : network := fun i _ =>
  match i with
  | 0 => Response true 200 (inr sample_report)
  | 1 => Rejected "Failed to fetch"
  | _ => Response false 500 (inr (JObj [("detail", JStr "Inference failed")]))
  end.

Definition sample_state : state := State sample_files [] Upload false None ∅.

End Samples.

(* ===================================================================== *)
(** ** Proof tactics *)
(* ===================================================================== *)

(** Case analysis on the property reads of a hypothesis that says the
    computation did not throw. *)
Ltac reads H :=
  repeat match type of H with
         | context [get ?v ?k] =>
             destruct (get v k) eqn:?; simpl in H; [| discriminate H]
         end.

(* ===================================================================== *)
(** ** UploadCard.jsx, MultiUploadCard.jsx and App.jsx: choosing files *)
(* ===================================================================== *)

Module Upload.

(** A browser [File] as the upload cards read it: its name and MIME type. *)
Record picked : Type := Picked { picked_name : string; picked_type : string }.

Definition is_pdf (f : picked) : bool := String.eqb (picked_type f) "application/pdf".

(** [onFileChange] and [onDrop] of MultiUploadCard, given the files of the
    event ([[]] when the event has none): whether the alert is shown, and the
    argument of [onSelectFiles] when it is called. *)
Definition onFileChange (newFiles : list picked) : bool * option (list picked) :=
  let pdfFiles := filter (fun f => is_pdf f = true) newFiles in
  (negb (Nat.eqb (length pdfFiles) (length newFiles)),
   if (0 <? length pdfFiles)%nat then Some pdfFiles else None).

(** [onFileChange] and [onDrop] of UploadCard: whether the alert is shown, and
    the argument of [onSelectFile] when it is called. *)
Definition onFileChange_single (files : list picked) : bool * option picked :=
  match head files with
  | None => (false, None)
  | Some f => if is_pdf f then (false, Some f) else (true, None)
  end.

(** The updater of [handleSelectFiles]: [prev => [...prev, ...newFiles]]. *)
Definition handleSelectFiles {A} (newFiles prev : list A) : list A := prev ++ newFiles.

(** The updater of [handleRemoveFile]: [prev => prev.filter((_, i) => i !== idx)]. *)
Definition handleRemoveFile {A} (idx : nat) (prev : list A) : list A :=
  snd <$> filter (fun p => fst p <> idx) (imap pair prev).

(** What the user can do to the multi-file selection while nothing is being
    uploaded: offer files (by the dialog or by dropping them), remove the file
    at a position, clear all. *)
Inductive event : Type :=
  | Offer (newFiles : list picked)
  | Remove (idx : nat)
  | ClearAll.

Definition step (files : list picked) (e : event) : list picked :=
  match e with
  | Offer newFiles =>
      match snd (onFileChange newFiles) with
      | Some pdfFiles => handleSelectFiles pdfFiles files
      | None => files
      end
  | Remove idx => handleRemoveFile idx files
  | ClearAll => []
  end.

Definition run (events : list event) : list picked := foldl step [] events.

End Upload.

(* ===================================================================== *)
(** ** App.jsx: the whole state, the single-document scan, the viewer *)
(* ===================================================================== *)

Module AppFull.
Import Report DocumentsList App.

Inductive mode : Type := Single | Multi.

(** The nine [useState] cells of [App]. *)
Record app : Type := AppState {
  scanMode : mode;
  file : option DocumentsList.file;
  files : list DocumentsList.file;
  documents : list document;
  view : App.view;
  isUploading : bool;
  error : option message;
  results : option parsed;
  progress : gmap nat nat
}.

Definition initial : app := AppState Single None [] [] Upload false None None ∅.

(** [handleSelectFile]; the argument is [null] for "Change file". *)
Definition handleSelectFile (f : option DocumentsList.file) (s : app) : app :=
  AppState (scanMode s) f (files s) (documents s) (view s) (isUploading s) None
           (results s) (progress s).

Definition resetToUpload (s : app) : app :=
  AppState (scanMode s) None [] [] Upload false None None ∅.

Definition toggleScanMode (s : app) : app :=
  let s' := resetToUpload s in
  AppState (match scanMode s' with Single => Multi | Multi => Single end)
           (file s') (files s') (documents s') (view s') (isUploading s') (error s')
           (results s') (progress s').

Definition handleSelectFiles (newFiles : list DocumentsList.file) (s : app) : app :=
  AppState (scanMode s) (file s) (Upload.handleSelectFiles newFiles (files s)) (documents s)
           (view s) (isUploading s) None (results s) (progress s).

Definition handleRemoveFile (idx : nat) (s : app) : app :=
  AppState (scanMode s) (file s) (Upload.handleRemoveFile idx (files s)) (documents s)
           (view s) (isUploading s) (error s) (results s) (progress s).

(** The inner [try]/[catch] of [analyzeDocument]: the body of the back end's
    answer when the request succeeds with a JSON body; in every other case
    the local [example.json], converted ([inr None] is the [null] that
    [convertOldFormat] may return).  An error of the second request leaves
    the function. *)
Definition fetch_json (backend example : fetched) : message + option value :=
  match backend with
  | Response true _ (inr json) => inr (Some json)
  | _ =>
      match example with
      | Rejected msg => inl (MsgRuntime msg)
      | Response false _ _ =>
          inl (MsgRuntime "Backend unavailable and local example not found")
      | Response true _ (inl syntax_error) => inl (MsgRuntime syntax_error)
      | Response true _ (inr exampleData) => inr (convertOldFormat exampleData)
      end
  end.

(** [e.message || 'Unexpected error'] for the messages this function meets. *)
Definition or_unexpected (m : message) : message :=
  match m with
  | MsgRuntime "" => MsgRuntime "Unexpected error"
  | _ => m
  end.

Definition finish (s : app) (r : message + parsed) : app :=
  match r with
  | inr parsed =>
      AppState (scanMode s) (file s) (files s) (documents s) Results false None
               (Some parsed) (progress s)
  | inl m =>
      AppState (scanMode s) (file s) (files s) (documents s) (view s) false
               (Some (or_unexpected m)) (results s) (progress s)
  end.

(** [analyzeDocument], given what the two requests would answer. *)
Definition analyzeDocument (backend example : fetched) (s : app) : app :=
  match file s with
  | None => s
  | Some _ =>
      finish s
        match fetch_json backend example with
        | inl m => inl m
        | inr json =>
            match parseBackend (default JNull json) with
            | Some parsed => inr parsed
            | None => inl MsgInvalidFormat
            end
        end
  end.

Definition to_multi (s : app) : App.state :=
  App.State (files s) (documents s) (view s) (isUploading s) (error s) (progress s).

(** [analyzeMultipleDocuments] on the whole state. *)
Definition analyzeMultipleDocuments (net : network) (s : app) : app :=
  let m := fst (App.analyzeMultipleDocuments net (to_multi s)) in
  AppState (scanMode s) (file s) (App.files m) (App.documents m) (App.current_view m)
           (App.isUploading m) (App.app_error m) (results s) (App.progress m).

(** [openViewer]; [None] when [documents[docIdx]] is [undefined] and reading
    its [file] throws. *)
Definition openViewer (docIdx : nat) (s : app) : option app :=
  match scanMode s with
  | Multi =>
      doc ← documents s !! docIdx;
      Some (AppState (scanMode s) (Some (doc_file doc)) (files s) (documents s) Viewer
                     (isUploading s) (error s) (DocumentsList.results doc) (progress s))
  | Single =>
      Some (AppState (scanMode s) (file s) (files s) (documents s) Viewer
                     (isUploading s) (error s) (results s) (progress s))
  end.

Definition closeViewer (s : app) : app :=
  AppState (scanMode s) (file s) (files s) (documents s) Results
           (isUploading s) (error s) (results s) (progress s).

End AppFull.

(* ===================================================================== *)
(** ** App.jsx: the progress shown per file *)
(* ===================================================================== *)

Module Progress.
Import Report DocumentsList App.

(** The last value [setProgress] gives to the file at index [i] in its
    iteration: 30 when the request is rejected, 100 when the response is
    parsed, 70 when it arrives and the document fails all the same. *)
Definition final_progress (net : network) (i : nat) (f : file) : nat :=
  match net i f with
  | Rejected _ => 30
  | Response _ _ _ =>
      match outcome (net i f) with
      | inr _ => 100
      | inl _ => 70
      end
  end.

End Progress.

(* ===================================================================== *)
(** ** PdfViewer.jsx, QRAnalyzer.jsx, DocumentsList.jsx: what is drawn *)
(* ===================================================================== *)

Module Display.
Import Report PdfViewer.

(** The overlay of the viewer's stage, [current.items.filter(...)]; [None]
    when [current] is [undefined] and reading its [items] throws. *)
Definition render_overlay (ps : list page) (s : state) : option (list item) :=
  current ← page_at ps (pageIndex s);
  Some (overlay_items (visible s) current).

(** [isExpanded ? items.length : limit]; the limit is 4 in the viewer's
    sidebar and 6 in the QR analyzer. *)
Definition displayLimit {A} (limit : nat) (isExpanded : bool) (its : list A) : nat :=
  if isExpanded then length its else limit.

(** [items.length > limit]: whether the expand button is drawn. *)
Definition hasMore {A} (limit : nat) (its : list A) : bool := (limit <? length its)%nat.

(** [items.slice(0, displayLimit)]. *)
Definition displayed {A} (limit : nat) (isExpanded : bool) (its : list A) : list A :=
  take (displayLimit limit isExpanded its) its.

(** The number in the label of the collapsed button, [items.length - limit]. *)
Definition more_count {A} (limit : nat) (its : list A) : Z :=
  Z.of_nat (length its) - Z.of_nat limit.

(** [expandedPages[idx]] and [expandedDocs[idx]] as a condition. *)
Definition isExpanded (expanded : gmap nat bool) (idx : nat) : bool :=
  default false (expanded !! idx).

(** [prev => ({ ...prev, [idx]: !prev[idx] })]. *)
Definition toggleExpand (idx : nat) (prev : gmap nat bool) : gmap nat bool :=
  <[idx := negb (default false (prev !! idx))]> prev.

(** The number of "items" in a document's line of the list,
    [counters.qr + counters.signatures + counters.stamps]. *)
Definition items_shown (r : parsed) : nat :=
  qr (result_counters r) + signatures (result_counters r) + stamps (result_counters r).

(** The number in the badge of a page, [page.items.length]. *)
Definition badge (pg : page) : nat := length (items pg).

Definition is_known (c : value) : bool :=
  is_str c "qr" || is_str c "signature" || is_str c "stamp".

(** The items of a result whose category is none of the three. *)
Definition unknown_items (r : parsed) : nat :=
  sum_list ((fun pg => length (filter (fun it => is_known (category it) = false) (items pg)))
            <$> pages r).

(** The pages of the documents that have results, added up. *)
Definition pages_of_results (docs : list DocumentsList.document) : nat :=
  sum_list ((fun d => match DocumentsList.doc_status d, DocumentsList.results d with
                      | DocumentsList.Completed, Some r => length (pages r)
                      | _, _ => 0
                      end) <$> docs).

End Display.

(* ===================================================================== *)
(** ** QRAnalyzer.jsx: the QR codes of a result *)
(* ===================================================================== *)

Module QRAnalyzer.
Import Report QrDecoder.

(** An entry of [qrItems]; the [file] it also carries is the component's
    prop, the same in every entry. *)
Record qr_item : Type := QR {
  qr_id : value;
  pageIdx : nat;
  qr_bbox : value;
  qr_pageSize : value;
  qr_category : value
}.

(** The entries pushed for the page at position [pageIdx]. *)
Definition of_page (idx : nat) (pg : page) : list qr_item :=
  (fun it => QR (id it) idx (bbox it) (pageSize pg) (category it))
  <$> filter (fun it => is_str (category it) "qr" = true) (items pg).

(** [extractedQRs]: the two nested [forEach] push the QR items page by page,
    in the order of the items. *)
Definition extract (ps : list page) : list qr_item := concat (imap of_page ps).

(** An entry of [decodedQRs]: the decoded text, or [null] with an error. *)
Record decoded : Type := Decoded { data : option string; decode_error : option string }.

(** [handleQRClick], given [decodedQRs[qrItem.id]] ([None]: [undefined]): the
    URL handed to [window.open], if any. *)
Definition handleQRClick (decodedData : option decoded) : option string :=
  match decodedData with
  | Some d =>
      match data d with
      | Some text => if String.eqb text "" then None else Some (ensureURLProtocol text)
      | None => None
      end
  | None => None
  end.

(** [qrsByPage]: an object keyed by page index. *)
Definition add_to_page (m : gmap nat (list qr_item)) (q : qr_item) : gmap nat (list qr_item) :=
  <[pageIdx q := (default [] (m !! pageIdx q) ++ [q])%list]> m.

Definition qrsByPage (qrItems : list qr_item) : gmap nat (list qr_item) :=
  foldl add_to_page ∅ qrItems.

(** [Object.keys] of an object whose keys are array indices: the keys in
    ascending order, as decimal strings. *)
Definition index_keys {A} (m : gmap nat A) : list string :=
  pretty <$> filter (fun k => is_Some (m !! k))
               (seq 0 (S (max_list (fst <$> map_to_list m)))).

(** The comparator [parseInt(a) - parseInt(b)] is positive. *)
Definition after_int (a b : string) : bool :=
  match parseInt a, parseInt b with
  | Some x, Some y => (y <? x)%Z
  | _, _ => false
  end.

Fixpoint insert_int (k : string) (l : list string) : list string :=
  match l with
  | [] => [k]
  | k' :: r => if after_int k k' then k' :: insert_int k r else k :: l
  end.

(** [pageIndices]: the keys, sorted (a stable sort). *)
Definition pageIndices (m : gmap nat (list qr_item)) : list string :=
  foldr insert_int [] (index_keys m).

(** The groups drawn: for each key its number [pageNum = parseInt(pageIdx)]
    ([None] is NaN) and [qrsByPage[pageNum]] ([None] is [undefined]). *)
Definition groups (qrItems : list qr_item) : list (option Z * option (list qr_item)) :=
  let m := qrsByPage qrItems in
  (fun key =>
     let pageNum := parseInt key in
     (pageNum,
      match pageNum with
      | Some z => if (z <? 0)%Z then None else m !! Z.to_nat z
      | None => None
      end)) <$> pageIndices m.

(** The QR entries of the page at position [k], none if there is no such page. *)
Definition page_qrs (ps : list page) (k : nat) : list qr_item :=
  from_option (of_page k) [] (ps !! k).

End QRAnalyzer.

(* ===================================================================== *)
(** ** utils/api: the client and its token *)
(* ===================================================================== *)

Module ApiClient.
Import DocumentsList App.

(** Whether [String(v)] is the empty string, for a value of JSON: the empty
    string itself, and the arrays whose [join] is empty. *)
Fixpoint string_is_empty (v : value) : bool :=
  match v with
  | JStr s => String.eqb s ""
  | JArr [] => true
  | JArr [x] =>
      match x with
      | JUndefined | JNull => true
      | _ => string_is_empty x
      end
  | _ => false
  end.

(** The ['token'] item of [localStorage]: [None] when there is none, [Some v]
    for the string [String(v)] that [setItem('token', v)] leaves. *)
Definition item : Type := option value.

(** [this.token]: the value handed to [setToken], or what [getItem] returned
    ([null], or the string of an item). *)
Inductive held : Type :=
  | Given (v : value)
  | Loaded (it : item).

Record client : Type := Client { token : held; stored : item }.

(** [!!localStorage.getItem('token')]. *)
Definition item_truthy (it : item) : bool :=
  match it with
  | Some v => negb (string_is_empty v)
  | None => false
  end.

(** [!!this.token]. *)
Definition held_truthy (t : held) : bool :=
  match t with
  | Given v => truthy v
  | Loaded it => item_truthy it
  end.

Definition loadToken (c : client) : client := Client (Loaded (stored c)) (stored c).

(** [new ApiClient()], in a page whose storage holds [storage]. *)
Definition construct (storage : item) : client := loadToken (Client (Given JNull) storage).

Definition setToken (t : value) (c : client) : client :=
  Client (Given t) (if truthy t then Some t else None).

(** [`Bearer ${this.token}`]; the string of an item converts to itself. *)
Definition bearer (t : held) : template :=
  Template "Bearer "
    match t with
    | Given v => v
    | Loaded (Some v) => v
    | Loaded None => JNull
    end.

Inductive header : Type :=
  | ContentType (v : value)
  | Authorization (t : template).

(** [getHeaders(contentType = 'application/json')]: [undefined] takes the
    default, [null] leaves the header out. *)
Definition getHeaders (contentType : value) (c : client) : list header :=
  let contentType :=
    match contentType with
    | JUndefined => JStr "application/json"
    | v => v
    end in
  ((if truthy contentType then [ContentType contentType] else [])
   ++ (if held_truthy (token c) then [Authorization (bearer (token c))] else []))%list.

(** [request], once [fetch] has settled: the data returned or the message of
    the error rethrown, the client afterwards, and whether the
    ['unauthorized'] event was dispatched. *)
Definition request (r : fetched) (c : client) : (message + value) * client * bool :=
  let '(res, unauthorized) := ScanHistory.request r in
  (res, if unauthorized then setToken JNull c else c, unauthorized).

(** The end of [login], [register] and [refreshToken]:
    [if (data.access_token) this.setToken(data.access_token)]. *)
Definition keep_token (res : (message + value) * client * bool)
  : (message + value) * client * bool :=
  match res with
  | (inl m, c, ev) => (inl m, c, ev)
  | (inr data, c, ev) =>
      match get data "access_token" with
      | None =>
          (inl (MsgRuntime "Cannot read properties of null (reading 'access_token')"), c, ev)
      | Some tok => (inr data, if truthy tok then setToken tok c else c, ev)
      end
  end.

Definition login (r : fetched) (c : client) := keep_token (request r c).
Definition register (r : fetched) (c : client) := keep_token (request r c).
Definition refreshToken (r : fetched) (c : client) := keep_token (request r c).
Definition getCurrentUser (r : fetched) (c : client) := request r c.
Definition logout (c : client) : client := setToken JNull c.

(** The calls that reach the token; [CallRequest] is any method that only
    goes through [request] ([getCurrentUser], [scanDocument], [getScans],
    [deleteScan], the admin endpoints). *)
Inductive call : Type :=
  | CallLoadToken
  | CallSetToken (t : value)
  | CallLogin (r : fetched)
  | CallRegister (r : fetched)
  | CallRefreshToken (r : fetched)
  | CallLogout
  | CallRequest (r : fetched).

Definition perform (c : client) (k : call) : client :=
  match k with
  | CallLoadToken => loadToken c
  | CallSetToken t => setToken t c
  | CallLogin r => snd (fst (login r c))
  | CallRegister r => snd (fst (register r c))
  | CallRefreshToken r => snd (fst (refreshToken r c))
  | CallLogout => logout c
  | CallRequest r => snd (fst (request r c))
  end.

(** The singleton client after a sequence of calls. *)
Definition run (storage : item) (ks : list call) : client :=
  foldl perform (construct storage) ks.

(** What every method keeps: the storage holds the token the client holds. *)
Definition mirrored (c : client) : Prop :=
  match token c with
  | Given v => stored c = if truthy v then Some v else None
  | Loaded it => stored c = it
  end.

(** Neither the client nor the storage holds a token. *)
Definition signed_out (c : client) : Prop :=
  held_truthy (token c) = false /\ item_truthy (stored c) = false.

(** Whether a call hands a truthy token to [setToken]. *)
Definition grants (k : call) : bool :=
  match k with
  | CallSetToken t => truthy t
  | CallLogin r | CallRegister r | CallRefreshToken r =>
      match fst (ScanHistory.request r) with
      | inr data => truthy (get_opt data "access_token")
      | inl _ => false
      end
  | CallLoadToken | CallLogout | CallRequest _ => false
  end.

(** The [Authorization] headers among [getHeaders(contentType)]. *)
Definition authorizations (contentType : value) (c : client) : list template :=
  omap (fun h => match h with Authorization t => Some t | ContentType _ => None end)
       (getHeaders contentType c).

End ApiClient.

(* ===================================================================== *)
(** ** AuthContext.jsx, ProtectedRoute.jsx, LoginForm.jsx, AuthPage.jsx *)
(* ===================================================================== *)

Module AuthContext.
Import DocumentsList App ApiClient.

Record auth : Type := Auth { user : value; loading : bool; error : option message }.

(** The state of [AuthProvider] when it mounts. *)
Definition initial : auth := Auth JNull true None.

Definition setUser (u : value) (a : auth) : auth := Auth u (loading a) (error a).
Definition setLoading (b : bool) (a : auth) : auth := Auth (user a) b (error a).
Definition setError (e : option message) (a : auth) : auth := Auth (user a) (loading a) e.

(** The provider's state and the client it calls. *)
Record session : Type := Session { api : client; state : auth }.

Definition handleUnauthorized (a : auth) : auth :=
  setError (Some (MsgRuntime "Session expired. Please login again.")) (setUser JNull a).

(** The listener runs when [request] dispatches the event. *)
Definition notify (ev : bool) (a : auth) : auth := if ev then handleUnauthorized a else a.

(** Whether [err.message] is the empty string. *)
Definition message_is_empty (m : message) : bool :=
  match m with
  | MsgDetail d => string_is_empty d
  | MsgRuntime s => String.eqb s ""
  | _ => false
  end.

(** [err.message || fallback]. *)
Definition or_message (fallback : string) (m : message) : message :=
  if message_is_empty m then MsgRuntime fallback else m.

Definition loadUser (r : fetched) (s : session) : session :=
  if negb (item_truthy (stored (api s))) then Session (api s) (setLoading false (state s))
  else
    let '(res, c, ev) := getCurrentUser r (api s) in
    let a := notify ev (state s) in
    match res with
    | inr userData => Session c (setLoading false (setError None (setUser userData a)))
    | inl _ => Session (ApiClient.logout c) (setLoading false (setUser JNull a))
    end.

(** [login] and [register]: the call to the client, [setUser(data.user)], and
    the [catch] that records the message and rethrows it. *)
Definition authenticate (fallback : string)
    (method : fetched -> client -> (message + value) * client * bool)
    (r : fetched) (s : session) : (message + value) * session :=
  let a := setError None (setLoading true (state s)) in
  let '(res, c, ev) := method r (api s) in
  let a := notify ev a in
  let tried :=
    match res with
    | inl m => inl m
    | inr data =>
        match get data "user" with
        | Some u => inr (data, u)
        | None => inl (MsgRuntime "Cannot read properties of null (reading 'user')")
        end
    end in
  match tried with
  | inr (data, u) => (inr data, Session c (setLoading false (setUser u a)))
  | inl m => (inl m, Session c (setLoading false (setError (Some (or_message fallback m)) a)))
  end.

Definition login : fetched -> session -> (message + value) * session :=
  authenticate "Login failed" ApiClient.login.

Definition register : fetched -> session -> (message + value) * session :=
  authenticate "Registration failed" ApiClient.register.

Definition logout (s : session) : session :=
  Session (ApiClient.logout (api s)) (setError None (setUser JNull (state s))).

Definition refresh (r : fetched) (s : session) : (message + value) * session :=
  let '(res, c, ev) := refreshToken r (api s) in
  let a := notify ev (state s) in
  let tried :=
    match res with
    | inl m => inl m
    | inr data =>
        match get data "user" with
        | Some u => inr (data, u)
        | None => inl (MsgRuntime "Cannot read properties of null (reading 'user')")
        end
    end in
  match tried with
  | inr (data, u) => (inr data, Session c (setUser u a))
  | inl m => (inl m, logout (Session c a))
  end.

Definition isAuthenticated (a : auth) : bool := truthy (user a).

(** [user && user.role === 'admin'], as a condition. *)
Definition isAdmin (a : auth) : bool :=
  truthy (user a) && is_str (get_opt (user a) "role") "admin".

(** What [ProtectedRoute] renders. *)
Inductive routed : Type :=
  | LoadingScreen
  | NavigateTo (path : string)
  | Children.

Definition ProtectedRoute (requireAdmin : bool) (a : auth) : routed :=
  if loading a then LoadingScreen
  else if negb (truthy (user a)) then NavigateTo "/auth"
  else if requireAdmin && negb (isAdmin a) then NavigateTo "/dashboard"
  else Children.

(** [AuthPage.handleLogin]: the path navigated to, if [login] does not throw. *)
Definition handleLogin (r : fetched) (s : session) : (message + unit) * session * option string :=
  match login r s with
  | (inr _, s') => (inr tt, s', Some "/dashboard")
  | (inl m, s') => (inl m, s', None)
  end.

(** The state of [LoginForm]; [None] is the empty [localError]. *)
Record form : Type := Form { form_loading : bool; localError : option message }.

(** [LoginForm.handleSubmit] with [AuthPage.handleLogin] as [onLogin]: the
    form afterwards, the session, and the path navigated to.  The form is
    submitted while [loading] is [false] only: the button and the inputs are
    disabled otherwise. *)
Definition handleSubmit (email password : string) (r : fetched) (s : session)
  : form * session * option string :=
  if String.eqb email "" || String.eqb password "" then
    (Form false (Some (MsgRuntime "Please fill in all fields")), s, None)
  else
    match handleLogin r s with
    | (inr _, s', nav) => (Form false None, s', nav)
    | (inl m, s', nav) => (Form false (Some (or_message "Login failed" m)), s', nav)
    end.

End AuthContext.

(* ===================================================================== *)
(** ** utils/api and ScanHistory.jsx: the name of a downloaded file *)
(* ===================================================================== *)

Module Download.

Definition quote : ascii := ascii_of_nat 34.
Definition semicolon : ascii := ascii_of_nat 59.

(** The [i] flag: ASCII letters compare without case. *)
Definition lower (c : ascii) : ascii :=
  let n := nat_of_ascii c in
  if ((65 <=? n)%nat && (n <=? 90)%nat) then ascii_of_nat (n + 32) else c.

(** What is left of [s] after the literal [p], matched without case. *)
Fixpoint after_literal (p s : string) : option string :=
  match p, s with
  | EmptyString, _ => Some s
  | String a p', String b s' =>
      if Ascii.eqb (lower a) (lower b) then after_literal p' s' else None
  | String _ _, EmptyString => None
  end.

(** The class of characters that are neither a quote nor a semicolon. *)
Definition plain (c : ascii) : bool :=
  negb (Ascii.eqb c quote) && negb (Ascii.eqb c semicolon).

(** The longest run of plain characters at the start of [s]. *)
Fixpoint run_of (s : string) : string :=
  match s with
  | String c r => if plain c then String c (run_of r) else EmptyString
  | EmptyString => EmptyString
  end.

(** The pattern matched at the start of [s]: the literal, an optional quote,
    and a run of at least one plain character, which is the group captured.
    Giving the quote back does not help: the run would start at the quote. *)
Definition match_here (s : string) : option string :=
  match after_literal "filename=" s with
  | None => None
  | Some rest =>
      let rest :=
        match rest with
        | String c r => if Ascii.eqb c quote then r else rest
        | EmptyString => rest
        end in
      match run_of rest with
      | EmptyString => None
      | name => Some name
      end
  end.

(** [cd.match(...)]: the leftmost match; the group captured. *)
Fixpoint find_filename (cd : string) : option string :=
  match match_here cd with
  | Some name => Some name
  | None =>
      match cd with
      | String _ r => find_filename r
      | EmptyString => None
      end
  end.

(** The [filename] that [downloadScanPdf] returns for a response that is
    [ok]; [cd] is [res.headers.get('content-disposition')], [None] is
    [undefined]. *)
Definition filename (cd : option string) : option string :=
  match cd with
  | Some s => if String.eqb s "" then None else find_filename s
  | None => None
  end.

(** [filename || `scan-${scanId}.pdf`] in [handleDownload]. *)
Definition download_name (name : option string) (scanId : nat) : string :=
  match name with
  | Some s => if String.eqb s "" then "scan-" ++ pretty scanId ++ ".pdf" else s
  | None => "scan-" ++ pretty scanId ++ ".pdf"
  end.

(** The name [handleDownload] gives to the file saved. *)
Definition saved_as (cd : option string) (scanId : nat) : string :=
  download_name (filename cd) scanId.

End Download.

(* ===================================================================== *)
(** ** App.jsx: the order of the legacy page keys *)
(* ===================================================================== *)

Module PageKeys.
Import Report.

(** Both keys carry a number and the first one's is not the larger. *)
Definition in_page_order (a b : string) : Prop :=
  match page_no a, page_no b with
  | Some x, Some y => (x <= y)%Z
  | _, _ => False
  end.

(** The keys that carry the page number [n]. *)
Definition numbered_as (n : Z) (l : list string) : list string :=
  filter (fun k => page_no k = Some n) l.

End PageKeys.

(* ===================================================================== *)
(** ** More sample data *)
(* ===================================================================== *)

Module Samples2.
Import Report DocumentsList App Samples.

(** [old_example], converted and parsed. *)
Definition fallback_parsed : parsed :=
  Eval vm_compute in
    default no_result (x ← convertOldFormat old_example; parseBackend x).

Definition picked_state : AppFull.app :=
  AppFull.handleSelectFile (Some (File "plan.pdf")) AppFull.initial.

Definition multi_state : AppFull.app :=
  AppFull.handleSelectFiles sample_files (AppFull.toggleScanMode AppFull.initial).

End Samples2.
(* ===================================================================== *)
(** * Properties *)
(* ===================================================================== *)

(** ** JavaScript values *)

Lemma is_str_true v lit : is_str v lit = true <-> v = JStr lit.
Proof.
  destruct v; simpl; try (split; [discriminate | congruence]).
  rewrite String.eqb_eq. split; congruence.
Qed.

Lemma is_str_false v lit : is_str v lit = false <-> v <> JStr lit.
Proof.
  rewrite <- is_str_true. destruct (is_str v lit); split; congruence.
Qed.

Lemma get_defined v k : v <> JUndefined -> v <> JNull -> get v k = Some (get_opt v k).
Proof. destruct v; simpl; congruence. Qed.

Lemma get_Some v k x : get v k = Some x -> v <> JUndefined /\ v <> JNull /\ x = get_opt v k.
Proof. destruct v; simpl; intros H; inversion H; repeat split; congruence. Qed.

(** ** [ensureURLProtocol] *)

Section QrDecoderProperties.
Import QrDecoder.

Lemma https_prepended url : startsWith ("https://" ++ url) "https://" = true.
Proof. destruct url; reflexivity. Qed.

Lemma has_protocol_nonempty url : has_protocol url = true -> String.eqb url "" = false.
Proof. destruct url; [discriminate | reflexivity]. Qed.

Lemma ensureURLProtocol_cases url :
  ensureURLProtocol url =
    if String.eqb url "" then "" else if has_protocol url then url else "https://" ++ url.
Proof. reflexivity. Qed.

Example ensure_bare : ensureURLProtocol "example.com/a?b=1" = "https://example.com/a?b=1".
Proof. reflexivity. Qed.

Example ensure_http : ensureURLProtocol "http://example.com" = "http://example.com".
Proof. reflexivity. Qed.

Example ensure_other_scheme : ensureURLProtocol "ftp://host" = "https://ftp://host".
Proof. reflexivity. Qed.

(** C10. [ensureURLProtocol] is a total function on strings: it returns the
    empty string for the empty string, its argument when that starts with
    [http://] or [https://], and the argument with [https://] prepended
    otherwise; hence a non-empty result starts with one of the two protocols,
    and applying the function twice is the same as applying it once. *)
Theorem ensureURLProtocol_total_idempotent (s : string) :
  (s = "" -> ensureURLProtocol s = "") /\
  (startsWith s "http://" = true \/ startsWith s "https://" = true ->
     ensureURLProtocol s = s) /\
  (s <> "" -> startsWith s "http://" = false -> startsWith s "https://" = false ->
     ensureURLProtocol s = "https://" ++ s) /\
  (ensureURLProtocol s <> "" ->
     startsWith (ensureURLProtocol s) "http://" = true \/
     startsWith (ensureURLProtocol s) "https://" = true) /\
  ensureURLProtocol (ensureURLProtocol s) = ensureURLProtocol s.
Proof.
  assert (Hp : has_protocol s = startsWith s "http://" || startsWith s "https://")
    by reflexivity.
  rewrite !ensureURLProtocol_cases.
  destruct (String.eqb_spec s "") as [-> | Hne].
  { repeat split; try reflexivity; congruence. }
  destruct (has_protocol s) eqn:Hs.
  - pose proof (has_protocol_nonempty s Hs) as Hn.
    rewrite Hs, Hn. symmetry in Hp. apply orb_true_iff in Hp.
    repeat split; try congruence.
    intros _ H1 H2. destruct Hp; congruence.
  - symmetry in Hp. apply orb_false_iff in Hp as [H1 H2].
    repeat split; try congruence.
    + intros [H | H]; congruence.
    + intros _. right. apply https_prepended.
    + assert (Hh : has_protocol ("https://" ++ s) = true).
      { unfold has_protocol. rewrite https_prepended. apply orb_true_r. }
      rewrite Hh. reflexivity.
Qed.

End QrDecoderProperties.

(** ** [parseBackend]: what an accepted response looks like *)

Section ReportParsing.
Import Report.

Lemma mapM_from_lookup {A B} (f : nat -> A -> option B) l : forall i k,
  mapM_from f i l = Some k ->
  length k = length l /\
  forall j x, l !! j = Some x -> exists y, k !! j = Some y /\ f (i + j) x = Some y.
Proof.
  induction l as [| a l IH]; intros i k H; simpl in H.
  - inversion H. split; [reflexivity | intros j x Hj; discriminate Hj].
  - destruct (f i a) as [y |] eqn:Hy; simpl in H; [| discriminate].
    destruct (mapM_from f (S i) l) as [ys |] eqn:Hys; simpl in H; [| discriminate].
    inversion H; subst k. destruct (IH _ _ Hys) as [Hlen Hlk].
    split; [simpl; congruence |].
    intros [| j] x Hj; simpl in Hj.
    + inversion Hj; subst x. exists y. rewrite Nat.add_0_r. auto.
    + destruct (Hlk j x Hj) as (y' & Hy' & Hf). exists y'.
      split; [exact Hy' |]. rewrite <- Hf. f_equal. lia.
Qed.

Lemma parse_item_Some ann it : parse_item ann = Some it -> item_of ann it.
Proof.
  unfold parse_item, item_of. intros H.
  destruct ann; simpl in H; try discriminate; reads H;
    inversion H; subst it; simpl; auto.
Qed.

Lemma parse_items_Some l its :
  mapM parse_item l = Some its -> Forall2 item_of l its.
Proof.
  intros H. apply mapM_Some_1 in H.
  induction H; constructor; auto using parse_item_Some.
Qed.

Lemma parse_page_Some i rp pg : parse_page i rp = Some pg -> page_of i rp pg.
Proof.
  unfold parse_page, page_of, annotations. intros H.
  destruct (get rp "annotations") as [anns |] eqn:Ha; simpl in H; [| discriminate].
  apply get_Some in Ha as (Hu & Hn & ->).
  rewrite !(get_defined rp) in H by assumption. simpl in H.
  destruct (or_else (get_opt rp "annotations") (JArr [])) as [| | b | q | s | l | props];
    simpl in H; try discriminate.
  destruct (mapM parse_item l) as [its |] eqn:Hits; simpl in H; [| discriminate].
  inversion H; subst pg; simpl. auto using parse_items_Some.
Qed.

(** An accepted response has a truthy [document_name] and an array of pages;
    the parsed pages are the raw pages, one for one and in order, and the
    counters are those of the parsed pages. *)
Lemma parseBackend_Some json p :
  parseBackend json = Some p ->
  truthy (get_opt json "document_name") = true /\
  get_opt json "pages" = JArr (report_pages json) /\
  fileName p = get_opt json "document_name" /\
  processingTime p = get_opt json "processing_time" /\
  result_counters p = count_pages (pages p) /\
  length (pages p) = length (report_pages json) /\
  (forall i rp, report_pages json !! i = Some rp ->
     exists pg, pages p !! i = Some pg /\ page_of i rp pg).
Proof.
  unfold parseBackend, report_pages. intros H.
  destruct (get json "document_name") as [dn |] eqn:Hd; simpl in H; [| discriminate].
  apply get_Some in Hd as (Hu & Hn & ->).
  rewrite !(get_defined json) in H by assumption. simpl in H.
  destruct (truthy (get_opt json "document_name")); simpl in H; [| discriminate].
  destruct (get_opt json "pages") as [| | b | q | s | l | props]; simpl in H;
    try discriminate;
    try (match type of H with (if ?c then _ else _) = _ => destruct c; discriminate end).
  destruct (mapM_from parse_page 0 l) as [ps |] eqn:Hps; simpl in H; [| discriminate].
  inversion H; subst p; simpl.
  destruct (mapM_from_lookup _ _ _ _ Hps) as [Hlen Hlk].
  repeat split; auto.
  intros i rp Hi. destruct (Hlk i rp Hi) as (pg & Hpg & Hf).
  exists pg. split; [exact Hpg |]. apply parse_page_Some. exact Hf.
Qed.

(** The parsed pages line up with the raw pages. *)
Lemma parseBackend_pages json p :
  parseBackend json = Some p ->
  Forall2 (fun rp pg => Forall2 item_of (annotations rp) (items pg))
          (report_pages json) (pages p).
Proof.
  intros H. destruct (parseBackend_Some _ _ H) as (_ & _ & _ & _ & _ & Hlen & Hlk).
  apply Forall2_same_length_lookup_2; [congruence |].
  intros i rp pg Hi Hp. destruct (Hlk i rp Hi) as (pg' & Hp' & Hof).
  rewrite Hp in Hp'. inversion Hp'; subst pg'. apply Hof.
Qed.

(** *** Counters *)

Lemma is_str_qr_signature c : is_str c "qr" = true -> is_str c "signature" = false.
Proof. intros H; apply is_str_true in H; subst c; reflexivity. Qed.

Lemma is_str_qr_stamp c : is_str c "qr" = true -> is_str c "stamp" = false.
Proof. intros H; apply is_str_true in H; subst c; reflexivity. Qed.

Lemma is_str_signature_stamp c : is_str c "signature" = true -> is_str c "stamp" = false.
Proof. intros H; apply is_str_true in H; subst c; reflexivity. Qed.

Lemma tally_cons name it its :
  tally name (it :: its) = (if is_str (category it) name then 1 else 0) + tally name its.
Proof.
  unfold tally. rewrite filter_cons.
  destruct (decide (is_str (category it) name = true)) as [E | E].
  - rewrite E. reflexivity.
  - apply not_true_is_false in E. rewrite E. reflexivity.
Qed.

Lemma count_item_spec acc it :
  qr (count_item acc it) = qr acc + tally "qr" [it] /\
  signatures (count_item acc it) = signatures acc + tally "signature" [it] /\
  stamps (count_item acc it) = stamps acc + tally "stamp" [it].
Proof.
  rewrite !tally_cons. unfold count_item, tally; simpl.
  destruct (is_str (category it) "qr") eqn:Hq.
  { rewrite (is_str_qr_signature _ Hq), (is_str_qr_stamp _ Hq). simpl. lia. }
  destruct (is_str (category it) "signature") eqn:Hs.
  { rewrite (is_str_signature_stamp _ Hs). simpl. lia. }
  destruct (is_str (category it) "stamp"); simpl; lia.
Qed.

Lemma count_items_spec its : forall acc,
  qr (foldl count_item acc its) = qr acc + tally "qr" its /\
  signatures (foldl count_item acc its) = signatures acc + tally "signature" its /\
  stamps (foldl count_item acc its) = stamps acc + tally "stamp" its.
Proof.
  induction its as [| it its IH]; intros acc; simpl.
  - unfold tally; simpl. lia.
  - destruct (IH (count_item acc it)) as (H1 & H2 & H3).
    destruct (count_item_spec acc it) as (G1 & G2 & G3).
    rewrite tally_cons in G1, G2, G3.
    rewrite (tally_cons "qr"), (tally_cons "signature"), (tally_cons "stamp").
    change (tally "qr" []) with 0 in G1. change (tally "signature" []) with 0 in G2.
    change (tally "stamp" []) with 0 in G3. lia.
Qed.

Lemma sum_list_cons (x : nat) l : sum_list (x :: l) = x + sum_list l.
Proof. reflexivity. Qed.

Lemma count_pages_from ps : forall acc,
  qr (foldl count_page acc ps) = qr acc + sum_list ((fun p => tally "qr" (items p)) <$> ps) /\
  signatures (foldl count_page acc ps) =
    signatures acc + sum_list ((fun p => tally "signature" (items p)) <$> ps) /\
  stamps (foldl count_page acc ps) =
    stamps acc + sum_list ((fun p => tally "stamp" (items p)) <$> ps).
Proof.
  induction ps as [| p ps IH]; intros acc.
  - simpl. lia.
  - rewrite !fmap_cons, !sum_list_cons. cbn [foldl].
    destruct (IH (count_page acc p)) as (H1 & H2 & H3).
    destruct (count_items_spec (items p) acc) as (G1 & G2 & G3).
    fold (count_page acc p) in G1, G2, G3. lia.
Qed.

(** The counters of a list of parsed pages are the per-category numbers of
    items, added up over the pages. *)
Lemma count_pages_spec ps :
  qr (count_pages ps) = sum_list ((fun p => tally "qr" (items p)) <$> ps) /\
  signatures (count_pages ps) = sum_list ((fun p => tally "signature" (items p)) <$> ps) /\
  stamps (count_pages ps) = sum_list ((fun p => tally "stamp" (items p)) <$> ps).
Proof. apply (count_pages_from ps (Counters 0 0 0)). Qed.

Lemma tally_annotations name anns its :
  Forall2 item_of anns its ->
  tally name its =
    length (filter (fun a => is_str (get_opt a "category") name = true) anns).
Proof.
  induction 1 as [| a it anns its Hit _ IH]; [reflexivity |].
  rewrite tally_cons, filter_cons, IH. destruct Hit as (_ & -> & _).
  destruct (decide (is_str (get_opt a "category") name = true)) as [E | E].
  - rewrite E. reflexivity.
  - apply not_true_is_false in E. rewrite E. reflexivity.
Qed.

Lemma tally_detections name json p :
  parseBackend json = Some p ->
  sum_list ((fun pg => tally name (items pg)) <$> pages p) = detections name json.
Proof.
  intros H. apply parseBackend_pages in H. unfold detections.
  induction H as [| rp pg rps pgs Hpg _ IH]; [reflexivity |].
  rewrite !fmap_cons, !sum_list_cons, IH, (tally_annotations name _ _ Hpg). reflexivity.
Qed.

(** [parseBackend] reads three properties of the response and nothing else. *)
Lemma parseBackend_reads json json' :
  get json "document_name" = get json' "document_name" ->
  get json "pages" = get json' "pages" ->
  get json "processing_time" = get json' "processing_time" ->
  parseBackend json = parseBackend json'.
Proof. unfold parseBackend. intros -> -> ->. reflexivity. Qed.

End ReportParsing.

(** ** [convertOldFormat]: what a converted report looks like *)

Section ConvertProperties.
Import Report.

Lemma convert_entry_Some e a :
  convert_entry e = Some a ->
  get_opt a "confidence" = JNum (95 # 100).
Proof.
  unfold convert_entry. intros H.
  destruct (keys e) as [ks |]; simpl in H; [| discriminate].
  reads H. inversion H. reflexivity.
Qed.

Lemma convert_page_Some fd idx pk rp :
  convert_page fd idx pk = Some rp ->
  get_opt rp "page_number" = JNum (of_nat (idx + 1)) /\
  Forall (fun a => get_opt a "confidence" = JNum (95 # 100)) (annotations rp).
Proof.
  unfold convert_page. intros H. reads H.
  destruct (map_array convert_entry _) as [anns |] eqn:Ha; simpl in H; [| discriminate].
  inversion H; subst rp. split; [reflexivity |].
  change (Forall (fun a => get_opt a "confidence" = JNum (95 # 100)) anns).
  unfold map_array in Ha.
  destruct (or_else _ _) as [| | b | q | s | l | props]; try discriminate.
  apply mapM_Some_1 in Ha.
  induction Ha; constructor; eauto using convert_entry_Some.
Qed.

(** A converted report: the pages are numbered from 1 in their order,
    [total_pages] is their number, and every annotation has confidence 0.95. *)
Lemma convertOldFormat_Some old r :
  convertOldFormat old = Some r ->
  get_opt r "total_pages" = JNum (of_nat (length (report_pages r))) /\
  (forall i rp, report_pages r !! i = Some rp ->
     get_opt rp "page_number" = JNum (of_nat (i + 1)) /\
     Forall (fun a => get_opt a "confidence" = JNum (95 # 100)) (annotations rp)).
Proof.
  unfold convertOldFormat. intros H.
  destruct (keys old) as [ks |]; simpl in H; [| discriminate].
  destruct (head ks) as [fileKey |]; [| discriminate].
  destruct (String.eqb fileKey ""); [discriminate |].
  destruct (keys _) as [pks |]; simpl in H; [| discriminate].
  destruct (mapM_from _ 0 (sort_keys pks)) as [ps |] eqn:Hps; simpl in H; [| discriminate].
  inversion H; subst r.
  destruct (mapM_from_lookup _ _ _ _ Hps) as [Hlen Hlk].
  change (report_pages (JObj _)) with ps. split.
  - simpl. rewrite Hlen. reflexivity.
  - intros i rp Hi.
    destruct (lookup_lt_is_Some_2 (sort_keys pks) i) as [pk Hpk].
    { rewrite <- Hlen. eapply lookup_lt_Some. exact Hi. }
    destruct (Hlk i pk Hpk) as (rp' & Hrp' & Hc).
    rewrite Hi in Hrp'. inversion Hrp'; subst rp'.
    apply convert_page_Some in Hc. exact Hc.
Qed.

Lemma numbered_of_nat n : numbered (JNum (of_nat n)) n.
Proof. exists (of_nat n). split; reflexivity. Qed.

Lemma confidence_095_ok : confidence_ok conf_threshold (JNum (95 # 100)).
Proof.
  exists (95 # 100)%Q. unfold conf_threshold, Qle. simpl. repeat split; lia.
Qed.

Lemma convertOldFormat_invariant old r :
  convertOldFormat old = Some r -> report_invariant r.
Proof.
  intros H. destruct (convertOldFormat_Some _ _ H) as [Ht Hp]. split.
  - rewrite Ht. apply numbered_of_nat.
  - intros i rp Hrp. destruct (Hp i rp Hrp) as [-> _]. apply numbered_of_nat.
Qed.

Lemma convertOldFormat_confidence old r :
  convertOldFormat old = Some r -> annotations_ok conf_threshold r.
Proof.
  intros H rp a Hrp Ha. apply list_elem_of_lookup in Hrp as [i Hi].
  destruct (convertOldFormat_Some _ _ H) as [_ Hp]. destruct (Hp i rp Hi) as [_ Hall].
  rewrite Forall_forall in Hall. rewrite (Hall a Ha). apply confidence_095_ok.
Qed.

End ConvertProperties.

(** ** [analyzeMultipleDocuments] and the totals of the result list *)

Section AppProperties.
Import Report DocumentsList App.
#[local] Open Scope list_scope.

(** The detection endpoint, whatever it answers. *)
Variable net : network.

Lemma update_doc_middle upd (l1 l2 : list document) x :
  update_doc (length l1) upd (l1 ++ x :: l2) = l1 ++ upd x :: l2.
Proof.
  apply list_eq; intros j. unfold update_doc. rewrite list_lookup_imap.
  destruct (decide (j = length l1)) as [-> | Hne].
  - rewrite !list_lookup_middle by reflexivity. simpl.
    rewrite Nat.eqb_refl. reflexivity.
  - assert (Hj : Nat.eqb j (length l1) = false) by (apply Nat.eqb_neq; exact Hne).
    rewrite Hj. destruct (decide (j < length l1)).
    + rewrite !lookup_app_l by assumption. destruct (l1 !! j); reflexivity.
    + rewrite !lookup_app_r by lia.
      destruct (j - length l1) as [| k] eqn:E; [lia |]. simpl.
      destruct (l2 !! k); reflexivity.
Qed.

Lemma process_documents i f s :
  documents (process net i f s) =
    update_doc i (fun d => match outcome (net i f) with
                           | inr p => complete p d
                           | inl m => fail m d
                           end) (documents s).
Proof.
  unfold process. cbv zeta.
  destruct (outcome (net i f)); destruct (net i f); reflexivity.
Qed.

Lemma process_frame i f s :
  files (process net i f s) = files s /\
  isUploading (process net i f s) = isUploading s /\
  current_view (process net i f s) = current_view s /\
  app_error (process net i f s) = app_error s.
Proof.
  unfold process. cbv zeta.
  destruct (outcome (net i f)); destruct (net i f); auto.
Qed.

Lemma loop_log rest : forall i s log, snd (loop net i rest s log) = log ++ rest.
Proof.
  induction rest as [| f rest IH]; intros i s log; simpl.
  - symmetry. apply app_nil_r.
  - rewrite IH, <- app_assoc. reflexivity.
Qed.

Lemma loop_frame rest : forall i s log,
  files (fst (loop net i rest s log)) = files s /\
  isUploading (fst (loop net i rest s log)) = isUploading s /\
  current_view (fst (loop net i rest s log)) = current_view s /\
  app_error (fst (loop net i rest s log)) = app_error s.
Proof.
  induction rest as [| f rest IH]; intros i s log; simpl; [auto |].
  destruct (IH (S i) (process net i f s) (log ++ [f])) as (H1 & H2 & H3 & H4).
  destruct (process_frame i f s) as (G1 & G2 & G3 & G4).
  repeat split; congruence.
Qed.

(** The loop settles the documents one after the other, left to right: the
    entries before index [i] are left as they are, the others are replaced by
    the outcome of their own request. *)
Lemma loop_documents rest : forall done s log,
  documents s = done ++ initialDocs rest ->
  documents (fst (loop net (length done) rest s log)) =
    done ++ imap (fun j f => settled net (length done + j) f) rest.
Proof.
  induction rest as [| f rest IH]; intros done s log Hs; simpl.
  - rewrite Hs. reflexivity.
  - specialize (IH (done ++ [settled net (length done) f])
                   (process net (length done) f s) (log ++ [f])).
    rewrite length_app, Nat.add_1_r in IH. rewrite IH.
    + rewrite <- app_assoc. simpl. rewrite Nat.add_0_r. do 2 f_equal.
      apply imap_ext. intros j x _. simpl. f_equal. lia.
    + rewrite process_documents, Hs. unfold initialDocs. rewrite fmap_cons.
      rewrite update_doc_middle, <- app_assoc. simpl. unfold settled.
      destruct (outcome _); reflexivity.
Qed.

(** What a run leaves behind, for a non-empty selection. *)
Lemma analyzeMultipleDocuments_run s :
  files s <> [] ->
  let s' := fst (analyzeMultipleDocuments net s) in
  snd (analyzeMultipleDocuments net s) = files s /\
  documents s' = imap (settled net) (files s) /\
  isUploading s' = false /\
  current_view s' = Results /\
  files s' = files s.
Proof.
  intros Hne. unfold analyzeMultipleDocuments.
  destruct (files s) as [| f0 fs] eqn:Hf; [congruence |].
  set (s1 := State _ _ _ _ _ _).
  pose proof (loop_log (f0 :: fs) 0 s1 []) as Hlog.
  pose proof (loop_frame (f0 :: fs) 0 s1 []) as (F1 & F2 & F3 & F4).
  pose proof (loop_documents (f0 :: fs) [] s1 [] eq_refl) as Hdocs.
  cbn [length app Nat.add] in Hdocs.
  destruct (loop net 0 (f0 :: fs) s1 []) as [s2 log] eqn:Hl.
  cbn [fst snd] in *. repeat split; assumption.
Qed.

Lemma settled_file i f : doc_file (settled net i f) = f.
Proof. unfold settled. destruct (outcome _); reflexivity. Qed.

Lemma settled_status i f :
  (doc_status (settled net i f) = Completed /\ is_Some (results (settled net i f))) \/
  (doc_status (settled net i f) = Failed /\ results (settled net i f) = None).
Proof. unfold settled. destruct (outcome _); simpl; eauto. Qed.

Lemma tallies_partition docs :
  Forall (fun d => doc_status d <> Processing) docs ->
  completedDocs docs + errorDocs docs = length docs.
Proof.
  unfold completedDocs, errorDocs.
  induction 1 as [| d docs Hd _ IH]; [reflexivity |].
  rewrite !filter_cons. simpl length. rewrite <- IH.
  destruct (doc_status d); try congruence;
    repeat (destruct (decide _) as [E | E]; simpl in E; try discriminate E;
            try (exfalso; apply E; reflexivity));
    simpl length; lia.
Qed.

Lemma run_documents_settled (fs : list file) :
  Forall (fun d =>
            doc_status d <> Processing /\
            (doc_status d = Completed <-> is_Some (results d)))
         (imap (settled net) fs).
Proof.
  apply Forall_forall. intros d Hd. apply elem_of_lookup_imap in Hd as (i & f & -> & _).
  destruct (settled_status i f) as [[-> Hr] | [-> Hr]].
  - split; [discriminate | tauto].
  - rewrite Hr. split; [discriminate |].
    split; [discriminate | intros [r Hr']; discriminate Hr'].
Qed.

Lemma totalStats_from docs : forall acc,
  total_qr (foldl add_doc acc docs) = total_qr acc + sum_results qr docs /\
  total_signatures (foldl add_doc acc docs) =
    total_signatures acc + sum_results signatures docs /\
  total_stamps (foldl add_doc acc docs) = total_stamps acc + sum_results stamps docs /\
  total_pages (foldl add_doc acc docs) =
    total_pages acc + sum_list ((fun d => from_option (fun r => length (pages r)) 0 (results d)) <$> docs).
Proof.
  unfold sum_results.
  induction docs as [| d docs IH]; intros acc.
  - simpl. lia.
  - rewrite !fmap_cons, !sum_list_cons. cbn [foldl].
    destruct (IH (add_doc acc d)) as (H1 & H2 & H3 & H4).
    rewrite H1, H2, H3, H4. unfold add_doc.
    destruct (results d); simpl; lia.
Qed.

(** The totals of the list are the counters of the documents that have
    results, added up. *)
Lemma totalStats_spec docs :
  total_qr (totalStats docs) = sum_results qr docs /\
  total_signatures (totalStats docs) = sum_results signatures docs /\
  total_stamps (totalStats docs) = sum_results stamps docs.
Proof.
  destruct (totalStats_from docs (Stats 0 0 0 0 (Some 0%Q))) as (H1 & H2 & H3 & _).
  auto.
Qed.

Lemma sum_results_completed sel docs :
  Forall (fun d => doc_status d = Completed <-> is_Some (results d)) docs ->
  sum_results sel docs = sum_completed sel docs.
Proof.
  unfold sum_results, sum_completed.
  induction 1 as [| d docs Hd _ IH]; [reflexivity |].
  rewrite !fmap_cons, !sum_list_cons, IH. f_equal.
  destruct (results d) as [r |] eqn:Hr.
  - destruct Hd as [_ Hd]. rewrite Hd by eauto. reflexivity.
  - destruct (doc_status d); reflexivity.
Qed.

End AppProperties.

(** ** Derived counters (single report and multi-document totals) *)

Section DerivedCounters.
Import Report DocumentsList App Samples.
#[local] Open Scope list_scope.

Example sample_report_counters :
  result_counters <$> parseBackend sample_report = Some (Counters 1 1 1).
Proof. reflexivity. Qed.

Example sample_run_totals :
  let docs := documents (fst (analyzeMultipleDocuments sample_network sample_state)) in
  (total_qr (totalStats docs), total_signatures (totalStats docs),
   total_stamps (totalStats docs), completedDocs docs, errorDocs docs) = (1, 1, 1, 1, 2).
Proof. reflexivity. Qed.

(** C1. For a response accepted by [parseBackend], each counter is the number
    of annotations of its category over all pages of the response; the result
    does not change with any other property of the response (such as stored
    totals).  The totals of a multi-document run are, per category, the
    counters of the documents that have results added up, and after a run these
    are exactly the completed documents. *)
Theorem counters_are_derived (json : value) (p : parsed) (net : network) (s : state) :
  parseBackend json = Some p ->
  files s <> [] ->
  (qr (result_counters p) = detections "qr" json /\
   signatures (result_counters p) = detections "signature" json /\
   stamps (result_counters p) = detections "stamp" json) /\
  (forall json',
     get json' "document_name" = get json "document_name" ->
     get json' "pages" = get json "pages" ->
     get json' "processing_time" = get json "processing_time" ->
     parseBackend json' = Some p) /\
  (forall docs,
     total_qr (totalStats docs) = sum_results qr docs /\
     total_signatures (totalStats docs) = sum_results signatures docs /\
     total_stamps (totalStats docs) = sum_results stamps docs) /\
  (let docs := documents (fst (analyzeMultipleDocuments net s)) in
   total_qr (totalStats docs) = sum_completed qr docs /\
   total_signatures (totalStats docs) = sum_completed signatures docs /\
   total_stamps (totalStats docs) = sum_completed stamps docs).
Proof.
  intros Hp Hfs. split; [| split; [| split]].
  - destruct (parseBackend_Some _ _ Hp) as (_ & _ & _ & _ & -> & _).
    destruct (count_pages_spec (pages p)) as (-> & -> & ->).
    rewrite !(tally_detections _ _ _ Hp). auto.
  - intros json' H1 H2 H3. rewrite <- Hp. apply parseBackend_reads; assumption.
  - apply totalStats_spec.
  - destruct (analyzeMultipleDocuments_run net s Hfs) as (_ & Hdocs & _).
    cbv zeta. rewrite Hdocs.
    destruct (totalStats_spec (imap (settled net) (files s))) as (-> & -> & ->).
    assert (Hc : Forall (fun d => doc_status d = Completed <-> is_Some (results d))
                        (imap (settled net) (files s))).
    { eapply Forall_impl; [apply run_documents_settled |]. intros d [_ H]. exact H. }
    rewrite !(sum_results_completed _ _ Hc). auto.
Qed.

Lemma counters_are_derived_witness :
  parseBackend sample_report = Some sample_parsed /\
  files sample_state <> [] /\
  qr (result_counters sample_parsed) = detections "qr" sample_report /\
  (let docs := documents (fst (analyzeMultipleDocuments sample_network sample_state)) in
   total_qr (totalStats docs) = sum_completed qr docs).
Proof.
  assert (Hf : files sample_state <> []) by discriminate.
  pose proof (counters_are_derived sample_report sample_parsed sample_network sample_state
                eq_refl Hf) as (Hc & _ & _ & Ht).
  split; [reflexivity | split; [exact Hf | split]].
  - apply Hc.
  - apply Ht.
Defined.

(** ** The multi-document loop *)

Example sample_run_statuses :
  doc_status <$> documents (fst (analyzeMultipleDocuments sample_network sample_state))
  = [Completed; Failed; Failed].
Proof. reflexivity. Qed.

Example sample_run_errors :
  error <$> documents (fst (analyzeMultipleDocuments sample_network sample_state))
  = [None; Some (MsgRuntime "Failed to fetch"); Some (MsgDetail (JStr "Inference failed"))].
Proof. reflexivity. Qed.

(** C8. In a multi-document run the requests are sent one per selected file,
    in selection order.  The entry of document [i] afterwards depends on the
    outcome of its own request only: an error leaves it with status 'error'
    and the message, a parsed response with status 'completed' and the
    result, whatever happened to the documents before it.  The completed and
    failed tallies add up to the number of submitted documents, and the
    uploading flag is cleared. *)
Theorem multi_document_failures_are_isolated (net : network) (s : state) :
  files s <> [] ->
  let s' := fst (analyzeMultipleDocuments net s) in
  snd (analyzeMultipleDocuments net s) = files s /\
  length (documents s') = length (files s) /\
  (forall i f m, files s !! i = Some f -> outcome (net i f) = inl m ->
     documents s' !! i = Some (Document f Failed None (Some m))) /\
  (forall i f r, files s !! i = Some f -> outcome (net i f) = inr r ->
     documents s' !! i = Some (Document f Completed (Some r) None)) /\
  completedDocs (documents s') + errorDocs (documents s') = length (files s) /\
  isUploading s' = false.
Proof.
  intros Hfs. destruct (analyzeMultipleDocuments_run net s Hfs) as (Hlog & Hdocs & Hup & _).
  cbv zeta. rewrite Hdocs. repeat split.
  - exact Hlog.
  - apply length_imap.
  - intros i f m Hi Ho. rewrite list_lookup_imap, Hi. simpl.
    unfold settled. rewrite Ho. reflexivity.
  - intros i f r Hi Ho. rewrite list_lookup_imap, Hi. simpl.
    unfold settled. rewrite Ho. reflexivity.
  - rewrite <- (length_imap (settled net)). apply tallies_partition.
    eapply Forall_impl; [apply run_documents_settled |]. intros d [H _]. exact H.
  - exact Hup.
Qed.

Lemma multi_document_failures_are_isolated_witness :
  files sample_state <> [] /\
  let s' := fst (analyzeMultipleDocuments sample_network sample_state) in
  snd (analyzeMultipleDocuments sample_network sample_state) = sample_files /\
  completedDocs (documents s') + errorDocs (documents s') = 3 /\
  isUploading s' = false.
Proof.
  assert (Hf : files sample_state <> []) by discriminate.
  pose proof (multi_document_failures_are_isolated sample_network sample_state Hf)
    as (Hlog & _ & _ & _ & Hsum & Hup).
  split; [exact Hf |]. split; [exact Hlog | split; [exact Hsum | exact Hup]].
Defined.

End DerivedCounters.

(** ** Page order, confidence and categories of an accepted report *)

Section ReportProperties.
Import Report Samples.

Lemma parsed_page_origin json p i pg :
  parseBackend json = Some p ->
  pages p !! i = Some pg ->
  exists rp, report_pages json !! i = Some rp /\ page_of i rp pg.
Proof.
  intros H Hpg. destruct (parseBackend_Some _ _ H) as (_ & _ & _ & _ & _ & Hlen & Hlk).
  destruct (lookup_lt_is_Some_2 (report_pages json) i) as [rp Hrp].
  { rewrite <- Hlen. eapply lookup_lt_Some. exact Hpg. }
  destruct (Hlk i rp Hrp) as (pg' & Hpg' & Hof).
  rewrite Hpg in Hpg'. inversion Hpg'; subst pg'. eauto.
Qed.

(** Every parsed item comes from an annotation of the response. *)
Lemma parsed_item_origin json p pg it :
  parseBackend json = Some p ->
  pg ∈ pages p -> it ∈ items pg ->
  exists rp a, rp ∈ report_pages json /\ a ∈ annotations rp /\ item_of a it.
Proof.
  intros H Hpg Hit. apply list_elem_of_lookup in Hpg as [i Hi].
  destruct (parsed_page_origin _ _ _ _ H Hi) as (rp & Hrp & _ & _ & _ & Hitems).
  apply list_elem_of_lookup in Hit as [j Hj].
  destruct (Forall2_lookup_r _ _ _ _ _ Hitems Hj) as (a & Ha & Hof).
  exists rp, a. repeat split; try apply Hof; eapply list_elem_of_lookup_2; eassumption.
Qed.

Lemma items_fields {A} (f : value -> A) (g : item -> A) anns its :
  (forall a it, item_of a it -> f a = g it) ->
  Forall2 item_of anns its -> f <$> anns = g <$> its.
Proof.
  intros Hfg. induction 1 as [| a it anns its Hit _ IH]; [reflexivity |].
  rewrite !fmap_cons, IH, (Hfg _ _ Hit). reflexivity.
Qed.

Example old_example_converted :
  (x ← convertOldFormat old_example; (fun p => length (pages p)) <$> parseBackend x)
  = Some 2.
Proof. reflexivity. Qed.

(** Counterexample to C2 as stated: [parseBackend] accepts a response that
    announces three pages and holds one, numbered 2; the page count shown is 1. *)
Lemma parseBackend_accepts_miscounted_report :
  parseBackend odd_report = Some odd_parsed /\
  get_opt odd_report "total_pages" = JNum 3 /\
  length (pages odd_parsed) = 1 /\
  ~ parsed_invariant (get_opt odd_report "total_pages") odd_parsed.
Proof.
  repeat split. intros [(q & Hq & Hn) _].
  inversion Hq; subst q. vm_compute in Hn. discriminate Hn.
Qed.

(** C2 (amended). [parseBackend] keeps the pages of the response, one for one
    and in order: the page at position [i] gets index [i] and the key of the
    [page_number] found at position [i].  Hence a response that satisfies the
    report invariant ([total_pages] pages, numbered from 1) is shown with that
    page count and those numbers, and every report produced by
    [convertOldFormat] satisfies the invariant. *)
Theorem page_order_is_preserved (json : value) (p : parsed) :
  parseBackend json = Some p ->
  length (pages p) = length (report_pages json) /\
  (forall i pg, pages p !! i = Some pg ->
     index pg = i /\
     exists rp, report_pages json !! i = Some rp /\
                pageKey pg = Template "page_" (get_opt rp "page_number")) /\
  (report_invariant json -> parsed_invariant (get_opt json "total_pages") p) /\
  (forall old, convertOldFormat old = Some json ->
     parsed_invariant (get_opt json "total_pages") p) /\
  (forall old r, convertOldFormat old = Some r -> report_invariant r).
Proof.
  intros H.
  destruct (parseBackend_Some _ _ H) as (_ & _ & _ & _ & _ & Hlen & _).
  assert (Hpages : forall i pg, pages p !! i = Some pg ->
            index pg = i /\
            exists rp, report_pages json !! i = Some rp /\
                       pageKey pg = Template "page_" (get_opt rp "page_number")).
  { intros i pg Hi. destruct (parsed_page_origin _ _ _ _ H Hi) as (rp & Hrp & Hidx & Hkey & _).
    eauto. }
  assert (Hinv : report_invariant json -> parsed_invariant (get_opt json "total_pages") p).
  { intros [Htotal Hnum]. split; [rewrite Hlen; exact Htotal |].
    intros i pg Hi. destruct (Hpages i pg Hi) as (Hidx & rp & Hrp & Hkey).
    split; [exact Hidx |]. exists (get_opt rp "page_number"). eauto. }
  split; [exact Hlen |]. split; [exact Hpages |]. split; [exact Hinv |].
  split; [| exact convertOldFormat_invariant].
  intros old Hold. apply Hinv. eapply convertOldFormat_invariant. exact Hold.
Qed.

Lemma page_order_is_preserved_witness :
  parseBackend sample_report = Some sample_parsed /\
  length (pages sample_parsed) = length (report_pages sample_report).
Proof.
  split; [reflexivity |].
  exact (proj1 (page_order_is_preserved sample_report sample_parsed eq_refl)).
Defined.

(** Counterexample to C5 as stated: [parseBackend] accepts a response with a
    detection of confidence 0.3, below the threshold 0.5 of the request, and
    the parsed item keeps that confidence. *)
Lemma parseBackend_accepts_low_confidence :
  parseBackend odd_report = Some odd_parsed /\
  ~ items_ok conf_threshold odd_parsed.
Proof.
  split; [reflexivity |]. intros H.
  destruct (H _ _ (list_elem_of_here _ _) (list_elem_of_here _ _))
    as (q & Hq & _ & _ & Hle).
  inversion Hq; subst q. vm_compute in Hle. apply Hle. reflexivity.
Qed.

(** C5 (amended). The front end neither filters nor alters confidences: the
    items of each parsed page carry, in order, the confidences of the page's
    annotations.  Hence, if every annotation of the response has a confidence
    in [0,1] that is at least the threshold [t], so has every parsed item.
    Every item of a report produced by [convertOldFormat] has confidence 0.95,
    which is in [0,1] and at least the threshold 0.5 of the app's requests. *)
Theorem confidence_is_passed_through (json : value) (p : parsed) :
  parseBackend json = Some p ->
  Forall2 (fun rp pg =>
             (fun a => get_opt a "confidence") <$> annotations rp
             = confidence <$> items pg)
          (report_pages json) (pages p) /\
  (forall t, annotations_ok t json -> items_ok t p) /\
  (forall old, convertOldFormat old = Some json ->
     items_ok conf_threshold p /\
     forall pg it, pg ∈ pages p -> it ∈ items pg -> confidence it = JNum (95 # 100)) /\
  (forall old r, convertOldFormat old = Some r -> annotations_ok conf_threshold r).
Proof.
  intros H. split; [| split; [| split; [| exact convertOldFormat_confidence]]].
  - eapply Forall2_impl; [apply parseBackend_pages; exact H |].
    intros rp pg. apply items_fields. intros a it (_ & _ & _ & Hc). congruence.
  - intros t Hok pg it Hpg Hit.
    destruct (parsed_item_origin _ _ _ _ H Hpg Hit) as (rp & a & Hrp & Ha & _ & _ & _ & ->).
    eapply Hok; eassumption.
  - intros old Hold.
    assert (Hc : forall pg it, pg ∈ pages p -> it ∈ items pg ->
                   confidence it = JNum (95 # 100)).
    { intros pg it Hpg Hit.
      destruct (parsed_item_origin _ _ _ _ H Hpg Hit) as (rp & a & Hrp & Ha & _ & _ & _ & ->).
      apply list_elem_of_lookup in Hrp as [i Hi].
      destruct (convertOldFormat_Some _ _ Hold) as [_ Hp].
      destruct (Hp i rp Hi) as [_ Hall].
      rewrite Forall_forall in Hall. apply Hall. exact Ha. }
    split; [| exact Hc].
    intros pg it Hpg Hit. rewrite (Hc pg it Hpg Hit). apply confidence_095_ok.
Qed.

Lemma confidence_is_passed_through_witness :
  parseBackend sample_report = Some sample_parsed /\
  annotations_ok conf_threshold sample_report /\
  items_ok conf_threshold sample_parsed.
Proof.
  assert (Hok : annotations_ok conf_threshold sample_report).
  { intros rp a Hrp Ha.
    repeat (apply elem_of_cons in Hrp as [-> | Hrp]);
      [..| apply elem_of_nil in Hrp; contradiction];
      repeat (apply elem_of_cons in Ha as [-> | Ha]);
      try (apply elem_of_nil in Ha; contradiction);
      (eexists; split; [reflexivity |]; unfold conf_threshold, Qle; simpl;
       repeat split; lia). }
  split; [reflexivity | split; [exact Hok |]].
  exact (proj1 (proj2 (confidence_is_passed_through sample_report sample_parsed eq_refl))
           conf_threshold Hok).
Defined.

(** Counterexample to C3 as stated: a detection of the unknown category
    ['seal'] is not rejected: the response is accepted, the item is in the
    parsed report with its category, and the viewer draws it, in orange. *)
Lemma parseBackend_accepts_unknown_category :
  parseBackend odd_report = Some odd_parsed /\
  exists pg it,
    pg ∈ pages odd_parsed /\ it ∈ items pg /\
    category it = JStr "seal" /\ ~ known_category (category it) /\
    it ∈ PdfViewer.overlay_items (PdfViewer.Toggles true true true) pg /\
    PdfViewer.categoryColor (category it) = "orange".
Proof.
  split; [reflexivity |].
  eexists _, _. split; [apply list_elem_of_here |]. split; [apply list_elem_of_here |].
  split; [reflexivity |]. split; [| split; [| reflexivity]].
  - intros [H | [H | H]]; discriminate H.
  - apply list_elem_of_here.
Qed.

(** C3 (amended). The front end does not reject unknown categories:
    [parseBackend] keeps every annotation, in order and with its category
    unchanged.  An item whose category is none of 'qr', 'signature', 'stamp'
    is counted in none of the three counters, is coloured orange, and, when
    its category is a string, is drawn whatever the toggles say. *)
Theorem unknown_categories_pass_through (json : value) (p : parsed) :
  parseBackend json = Some p ->
  Forall2 (fun rp pg =>
             (fun a => get_opt a "category") <$> annotations rp
             = category <$> items pg)
          (report_pages json) (pages p) /\
  (forall pg it, pg ∈ pages p -> it ∈ items pg -> ~ known_category (category it) ->
     (forall acc, count_item acc it = acc) /\
     PdfViewer.categoryColor (category it) = "orange" /\
     (forall vis c, category it = JStr c ->
        it ∈ PdfViewer.overlay_items vis pg)).
Proof.
  intros H. split.
  - eapply Forall2_impl; [apply parseBackend_pages; exact H |].
    intros rp pg. apply items_fields. intros a it (_ & Hc & _). congruence.
  - intros pg it _ Hit Hunknown.
    assert (Hq : is_str (category it) "qr" = false).
    { apply is_str_false. intros E. apply Hunknown. left. exact E. }
    assert (Hs : is_str (category it) "signature" = false).
    { apply is_str_false. intros E. apply Hunknown. right. left. exact E. }
    assert (Ht : is_str (category it) "stamp" = false).
    { apply is_str_false. intros E. apply Hunknown. right. right. exact E. }
    split; [| split].
    + intros acc. unfold count_item. rewrite Hq, Hs, Ht. reflexivity.
    + unfold PdfViewer.categoryColor. rewrite Hq, Hs. reflexivity.
    + intros vis c Hc. unfold PdfViewer.overlay_items.
      apply list_elem_of_filter. split; [| exact Hit].
      unfold PdfViewer.shown. rewrite Hc in *. simpl in *.
      rewrite Hq, Hs, Ht. reflexivity.
Qed.

Lemma unknown_categories_pass_through_witness :
  parseBackend odd_report = Some odd_parsed /\
  Forall2 (fun rp pg =>
             (fun a => get_opt a "category") <$> annotations rp
             = category <$> items pg)
          (report_pages odd_report) (pages odd_parsed).
Proof.
  split; [reflexivity |].
  exact (proj1 (unknown_categories_pass_through odd_report odd_parsed eq_refl)).
Defined.

End ReportProperties.

(** ** [parseInt] reads back the value of a page option *)

Section ParseIntProperties.
Import Report.

Lemma small_N d : (d < 10)%N ->
  d = 0%N \/ d = 1%N \/ d = 2%N \/ d = 3%N \/ d = 4%N \/
  d = 5%N \/ d = 6%N \/ d = 7%N \/ d = 8%N \/ d = 9%N.
Proof. lia. Qed.

Lemma digit_of_char d : (d < 10)%N -> digit_of (pretty_N_char d) = Some (Z.of_N d).
Proof.
  intros H. apply small_N in H.
  repeat (destruct H as [-> | H]; [reflexivity |]). subst d. reflexivity.
Qed.

Lemma parseInt_digit_headed c r :
  digit_char c -> parseInt (String c r) = read_digits None (String c r).
Proof.
  intros (d & Hd & ->). apply small_N in Hd.
  repeat (destruct Hd as [-> | Hd]; [reflexivity |]). subst d. reflexivity.
Qed.

Lemma read_digits_pretty x :
  (0 < x)%N ->
  forall s,
    read_digits None (pretty_N_go x s) = read_digits (Some (Z.of_N x)) s /\
    exists c r, pretty_N_go x s = String c r /\ digit_char c.
Proof.
  induction (N.lt_wf_0 x) as [x _ IH]. intros Hx s.
  rewrite pretty_N_go_step by exact Hx.
  assert (Hmod : (x `mod` 10 < 10)%N) by (apply N.mod_lt; discriminate).
  assert (Hdm : x = (10 * (x `div` 10) + x `mod` 10)%N) by (apply N.div_mod; discriminate).
  destruct (decide (x `div` 10 = 0)%N) as [Hz | Hnz].
  - rewrite Hz, pretty_N_go_0. split.
    + simpl. rewrite (digit_of_char _ Hmod). simpl. do 2 f_equal. lia.
    + eexists _, _. split; [reflexivity |]. exists (x `mod` 10)%N. auto.
  - assert (Hlt : (x `div` 10 < x)%N) by (apply N.div_lt; lia).
    assert (Hpos : (0 < x `div` 10)%N) by lia.
    destruct (IH _ Hlt Hpos (String (pretty_N_char (x `mod` 10)) s)) as [Hr Hhead].
    split; [| exact Hhead].
    rewrite Hr. simpl. rewrite (digit_of_char _ Hmod). simpl. do 2 f_equal. lia.
Qed.

(** [parseInt(String(i), 10)] is [i]. *)
Lemma parseInt_pretty (i : nat) : parseInt (pretty i) = Some (Z.of_nat i).
Proof.
  unfold pretty, pretty_nat, pretty, pretty_N.
  destruct (decide (N.of_nat i = 0%N)) as [Hz | Hnz].
  - replace i with 0%nat by lia. reflexivity.
  - assert (Hpos : (0 < N.of_nat i)%N) by lia.
    destruct (read_digits_pretty _ Hpos "") as [Hr (c & r & Hs & Hc)].
    rewrite Hs, (parseInt_digit_headed _ _ Hc), <- Hs, Hr. simpl. f_equal. lia.
Qed.

End ParseIntProperties.

(** ** PdfViewer: page navigation *)

Section NavigationProperties.
Import Report PdfViewer.

(** The [pages] prop of a mounted viewer: fixed, and not empty. *)
Variable ps : list page.
Hypothesis ps_nonempty : ps <> [].

Lemma count_pos : (1 <= count ps)%Z.
Proof. unfold count. destruct ps; [congruence | simpl; lia]. Qed.

Lemma setPageIndex_same s : setPageIndex (pageIndex s) s = s.
Proof. destruct s; reflexivity. Qed.

Lemma onPrev_at_first s : pageIndex s = Some 0%Z -> onPrev s = s.
Proof. destruct s as [cw pi v sel sp]. simpl. intros ->. reflexivity. Qed.

Lemma onNext_at_last s : pageIndex s = Some (count ps - 1)%Z -> onNext ps s = s.
Proof.
  destruct s as [cw pi v sel sp]. simpl. intros ->. unfold onNext, setPageIndex. simpl.
  do 2 f_equal. lia.
Qed.

Lemma initial_in_range : in_range ps initial.
Proof. pose proof count_pos. exists 0%Z. split; [reflexivity | lia]. Qed.

Lemma onPrev_in_range s : in_range ps s -> in_range ps (onPrev s).
Proof.
  intros (z & Hz & Hr). exists (Z.max (z - 1) 0). unfold onPrev. rewrite Hz.
  split; [reflexivity | lia].
Qed.

Lemma onNext_in_range s : in_range ps s -> in_range ps (onNext ps s).
Proof.
  intros (z & Hz & Hr). exists (Z.min (z + 1) (count ps - 1)). unfold onNext. rewrite Hz.
  split; [reflexivity | lia].
Qed.

Lemma index_in_range s (i : nat) :
  (i < length ps)%nat -> in_range ps (setPageIndex (Some (Z.of_nat i)) s).
Proof. intros H. exists (Z.of_nat i). unfold count. split; [reflexivity | lia]. Qed.

Lemma handle_in_range s e :
  in_range ps s -> offered ps s e = true -> in_range ps (handle ps e s).
Proof.
  intros Hs He. destruct e as [| | i | idx | idx itemId | w | vis |]; simpl in *.
  - apply onPrev_in_range, Hs.
  - apply onNext_in_range, Hs.
  - unfold onSelect, option_value. rewrite parseInt_pretty.
    apply index_in_range. apply Nat.ltb_lt. exact He.
  - apply (index_in_range s idx). apply Nat.ltb_lt. exact He.
  - apply (index_in_range s idx).
    destruct (ps !! idx) eqn:Hp; [| discriminate]. eapply lookup_lt_Some. exact Hp.
  - exact Hs.
  - exact Hs.
  - exact Hs.
Qed.

Lemma reachable_in_range s : reachable ps s -> in_range ps s.
Proof.
  induction 1 as [| s s' _ IH Hstep].
  - apply initial_in_range.
  - destruct Hstep as [s e He]. apply handle_in_range; assumption.
Qed.

Lemma thumbnails_in_range idx pg :
  (idx, pg) ∈ thumbnails ps -> ps !! idx = Some pg /\ items pg <> [].
Proof.
  unfold thumbnails. intros H. apply list_elem_of_filter in H as [Hitems H].
  apply elem_of_lookup_imap in H as (i & y & Heq & Hi). inversion Heq; subst.
  split; [exact Hi |]. simpl in Hitems. intros E. rewrite E in Hitems. apply Hitems.
  reflexivity.
Qed.

(** C9. For a non-empty list of pages, the current page index is within
    [0, pages.length - 1] in every state the viewer reaches through Prev,
    Next, the page selector, the page buttons and the sidebar cut-outs, so
    the page number asked of the renderer is within [1, pages.length] (also
    for the sidebar thumbnails).  The Prev and Next handlers clamp at the ends:
    they leave the index in range and, where the button is disabled (exactly
    at the first and at the last page), they would change nothing. *)
Theorem page_index_stays_in_range (s : state) :
  reachable ps s ->
  in_range ps s /\
  (exists n, pageNumber s = Some n /\ (1 <= n <= count ps)%Z) /\
  in_range ps (onPrev s) /\
  in_range ps (onNext ps s) /\
  (prev_disabled s = true <-> pageIndex s = Some 0%Z) /\
  (next_disabled ps s = true <-> pageIndex s = Some (count ps - 1)%Z) /\
  (prev_disabled s = true -> onPrev s = s) /\
  (next_disabled ps s = true -> onNext ps s = s) /\
  (forall idx pg, (idx, pg) ∈ thumbnails ps -> (1 <= Z.of_nat idx + 1 <= count ps)%Z).
Proof.
  intros Hreach. pose proof (reachable_in_range s Hreach) as Hs.
  assert (Hprev : prev_disabled s = true <-> pageIndex s = Some 0%Z).
  { unfold prev_disabled. destruct (pageIndex s) as [z |].
    - rewrite Z.eqb_eq. split; congruence.
    - split; discriminate. }
  assert (Hnext : next_disabled ps s = true <-> pageIndex s = Some (count ps - 1)%Z).
  { unfold next_disabled. destruct (pageIndex s) as [z |].
    - rewrite Z.eqb_eq. split; congruence.
    - split; discriminate. }
  split; [exact Hs |]. split.
  { destruct Hs as (z & Hz & Hr). exists (z + 1)%Z. unfold pageNumber. rewrite Hz.
    split; [reflexivity | lia]. }
  split; [apply onPrev_in_range, Hs |]. split; [apply onNext_in_range, Hs |].
  split; [exact Hprev |]. split; [exact Hnext |]. split; [| split].
  - intros H. apply onPrev_at_first, Hprev, H.
  - intros H. apply onNext_at_last, Hnext, H.
  - intros idx pg H. apply thumbnails_in_range in H as [H _].
    apply lookup_lt_Some in H. unfold count. lia.
Qed.

End NavigationProperties.

Section NavigationExamples.
Import Report PdfViewer Samples.

Example browse_sample :
  let ps := pages sample_parsed in
  pageIndex (handle ps Next (handle ps Next (handle ps Next (handle ps (SelectOption 1) initial))))
  = Some 2%Z.
Proof. reflexivity. Qed.

Lemma page_index_stays_in_range_witness :
  let ps := pages sample_parsed in
  ps <> [] /\
  reachable ps (handle ps Next initial) /\
  in_range ps (handle ps Next initial).
Proof.
  assert (Hne : pages sample_parsed <> []) by discriminate.
  assert (Hr : reachable (pages sample_parsed) (handle (pages sample_parsed) Next initial)).
  { eapply reach_step; [apply reach_initial |]. apply step_event. reflexivity. }
  split; [exact Hne | split; [exact Hr |]].
  exact (proj1 (page_index_stays_in_range _ Hne _ Hr)).
Defined.

End NavigationExamples.

(** ** The arithmetic of doubles *)

Section DoubleProperties.
Import Double.
#[local] Open Scope Q_scope.

Lemma pow2_pos e : 0 < pow2 e.
Proof. apply Qpower_0_lt. reflexivity. Qed.

Lemma pow2_nonzero e : ~ pow2 e == 0.
Proof. intros H. pose proof (pow2_pos e) as Hp. rewrite H in Hp. discriminate Hp. Qed.


Lemma pow2_opp a : pow2 (- a) == / pow2 a.
Proof. apply Qpower_opp. Qed.

Lemma pow2_le a b : (a <= b)%Z -> pow2 a <= pow2 b.
Proof. intros H. apply Qpower_le_compat_l; [exact H | discriminate]. Qed.




























Lemma mag_le j k q : (j <= k)%Z -> mag j q -> mag k q.
Proof.
  intros Hjk [H1 H2]. split.
  - apply Qle_trans with (pow2 (- j)); [apply pow2_le; lia | exact H1].
  - apply Qle_trans with (pow2 j); [exact H2 | apply pow2_le; lia].
Qed.











Example ties_go_to_even :
  to_double (inject_Z (2 ^ 53 + 1)) = Some (inject_Z (2 ^ 53)) /\
  to_double (inject_Z (2 ^ 53 + 3)) = Some (inject_Z (2 ^ 53 + 4)) /\
  to_double (1 # 10) = Some (3602879701896397 # 36028797018963968) /\
  to_double (inject_Z (2 ^ 1024)) = None.
Proof. repeat split; vm_compute; reflexivity. Qed.

End DoubleProperties.

(** The kernel's binary64 arithmetic gives the same numbers. *)
Section KernelFloats.
Import PrimFloat.

Example quotient_as_the_kernel_rounds :
  Double.of_float (1000 / 1190)%float = Double.div 1000 1190.
Proof. vm_compute. reflexivity. Qed.

Example product_as_the_kernel_rounds :
  Double.of_float (510 * (600 / 1190))%float = (s ← Double.div 600 1190; Double.mul 510 s).
Proof. vm_compute. reflexivity. Qed.

Example round_trip_as_the_kernel_rounds :
  Double.of_float (510 * (600 / 1190) / (600 / 1190))%float
  = (s ← Double.div 600 1190; l ← Double.mul 510 s; Double.div l s).
Proof. vm_compute. reflexivity. Qed.

Example rendered_height_as_the_kernel_rounds :
  Double.of_float (1000 * 1684 / 1190 / 1684)%float
  = (m ← Double.mul 1000 1684; h ← Double.div m 1190; Double.div h 1684).
Proof. vm_compute. reflexivity. Qed.

Example third_as_the_kernel_rounds :
  Double.of_float (1 / 3)%float = Double.div 1 3.
Proof. vm_compute. reflexivity. Qed.

Example subnormal_tie_as_the_kernel_rounds :
  Double.of_float (FloatOps.Z.ldexp 3 (-1074) / 2)%float
  = Double.div (3 * Double.pow2 (-1074)) 2.
Proof. vm_compute. reflexivity. Qed.

Example overflow_as_the_kernel_rounds :
  Double.of_float (FloatOps.Z.ldexp 1 1023 * 2)%float = Double.mul (Double.pow2 1023) 2.
Proof. vm_compute. reflexivity. Qed.

End KernelFloats.

(** ** PdfViewer: scale factors and overlay boxes *)

Section ScaleProperties.
Import Report PdfViewer Samples Double.
#[local] Open Scope Q_scope.









Example sample_overlay :
  overlay_box (Some sample_page) 595 sample_item = Some (Box 255 73 125 49).
Proof. vm_compute. reflexivity. Qed.

(** The two factors are the same ratio, and differ in the last bits: at a
    width of 1000 pixels [scaleX] is 0.84033613445378152 and [scaleY],
    reached through [renderedHeight], 0.84033613445378141. *)
Example factors_differ_by_rounding :
  scaleX (Some sample_page) 1000 = Some (7569075003984027 # 9007199254740992) /\
  scaleY (Some sample_page) 1000 = Some (3784537501992013 # 4503599627370496).
Proof. split; vm_compute; reflexivity. Qed.





End ScaleProperties.

(** ** The retention ledger and the deletion of a scan *)

Section LedgerProperties.
Import DocumentsList App Ledger ScanHistory Samples.
#[local] Open Scope Z_scope.

Lemma filter_none {A} (P : A -> Prop) `{forall x, Decision (P x)} (l : list A) :
  (forall x, x ∈ l -> ~ P x) -> filter P l = [].
Proof.
  induction l as [| x l IH]; intros Hl; [reflexivity |].
  rewrite filter_cons. destruct (decide (P x)) as [Hp | _].
  - exfalso. apply (Hl x); [apply list_elem_of_here | exact Hp].
  - apply IH. intros y Hy. apply Hl. apply list_elem_of_further. exact Hy.
Qed.

Lemma selects_live c scan_id now r : selects c scan_id now r = true -> live now r = true.
Proof. unfold selects. intros H. apply andb_true_iff in H as [_ H]. exact H. Qed.

Lemma selects_id c scan_id now r : selects c scan_id now r = true -> id r = scan_id.
Proof.
  unfold selects. intros H. apply andb_true_iff in H as [H _].
  apply andb_true_iff in H as [H _]. apply Nat.eqb_eq. exact H.
Qed.

Lemma expired_not_live now r : expires_at r < now -> live now r = false.
Proof. unfold live. intros H. apply Z.ltb_ge. lia. Qed.

Lemma get_Ok c scan_id now l r :
  get c scan_id now l = Ok r ->
  r ∈ rows l /\ selects c scan_id now r = true.
Proof.
  unfold get. intros H.
  destruct (filter _ (rows l)) as [| r' rest] eqn:Hf; [discriminate |].
  inversion H; subst r'.
  assert (Hin : r ∈ filter (fun r => selects c scan_id now r = true) (rows l)).
  { rewrite Hf. apply list_elem_of_here. }
  apply list_elem_of_filter in Hin as [Hs Hin]. auto.
Qed.

Lemma get_NotFound c scan_id now l :
  (forall r, r ∈ rows l -> selects c scan_id now r = false) ->
  get c scan_id now l = NotFound.
Proof.
  intros H. unfold get. rewrite filter_none; [reflexivity |].
  intros r Hr. rewrite (H r Hr). discriminate.
Qed.

Lemma get_sweep c scan_id now l : get c scan_id now (sweep now l) = get c scan_id now l.
Proof.
  unfold get, sweep. simpl. rewrite list_filter_filter_l; [reflexivity |].
  intros r. apply selects_live.
Qed.

Lemma list_scans_sweep owner skip limit now l :
  list_scans owner skip limit now (sweep now l) = list_scans owner skip limit now l.
Proof.
  unfold list_scans, sweep. simpl. rewrite list_filter_filter_l; [reflexivity |].
  intros r H. apply andb_true_iff in H as [_ H]. exact H.
Qed.

Lemma list_scans_live owner skip limit now l r :
  r ∈ list_scans owner skip limit now l ->
  r ∈ rows l /\ owner_id r = owner /\ live now r = true.
Proof.
  unfold list_scans. intros H.
  apply subseteq_take, subseteq_drop in H. rewrite merge_sort_Permutation in H.
  apply list_elem_of_filter in H as [H Hin]. apply andb_true_iff in H as [Ho Hl].
  apply Nat.eqb_eq in Ho. auto.
Qed.

Lemma unique_row l r r' :
  NoDup (id <$> rows l) -> r ∈ rows l -> r' ∈ rows l -> id r' = id r -> r' = r.
Proof.
  intros Hnd Hr Hr' Hid.
  apply list_elem_of_lookup in Hr as [i Hi]. apply list_elem_of_lookup in Hr' as [j Hj].
  assert (i = j).
  { eapply NoDup_lookup; [exact Hnd | |];
      rewrite list_lookup_fmap; [rewrite Hi | rewrite Hj]; simpl; [reflexivity |].
    congruence. }
  congruence.
Qed.

Example sample_get_live : get user1 1 1000 sample_ledger = Ok live_record.
Proof. reflexivity. Qed.

Example sample_get_expired : get user1 2 1000 sample_ledger = NotFound.
Proof. reflexivity. Qed.

Example sample_get_foreign : get user1 3 1000 sample_ledger = NotFound.
Proof. reflexivity. Qed.

Example sample_list : id <$> list_scans 1 0 50 1000 sample_ledger = [1%nat].
Proof. reflexivity. Qed.

(** C7. A record whose [expires_at] is in the past is returned by no [get],
    whoever asks and whatever the id, and is in no [list_scans] page, whether
    or not the cleanup sweep has run: both readers answer on the ledger as
    they do on the swept ledger.  In a ledger with unique ids, [get] of the
    record's own id is [NotFound]. *)
Theorem expired_records_are_unreachable (l : ledger) (r : ScanRecord) (now : time) :
  r ∈ rows l ->
  expires_at r < now ->
  (forall c scan_id, get c scan_id now l <> Ok r) /\
  (forall owner skip limit, r ∉ list_scans owner skip limit now l) /\
  (forall c scan_id, get c scan_id now l = get c scan_id now (sweep now l)) /\
  (forall owner skip limit,
     list_scans owner skip limit now l = list_scans owner skip limit now (sweep now l)) /\
  (r ∉ rows (sweep now l)) /\
  (NoDup (id <$> rows l) -> forall c, get c (id r) now l = NotFound).
Proof.
  intros Hin Hexp. pose proof (expired_not_live now r Hexp) as Hdead.
  split; [| split; [| split; [| split; [| split]]]].
  - intros c scan_id Hget. apply get_Ok in Hget as [_ Hs].
    apply selects_live in Hs. congruence.
  - intros owner skip limit Hl. apply list_scans_live in Hl as (_ & _ & Hl). congruence.
  - intros c scan_id. symmetry. apply get_sweep.
  - intros owner skip limit. symmetry. apply list_scans_sweep.
  - unfold sweep. simpl. intros H. apply list_elem_of_filter in H as [H _]. congruence.
  - intros Hnd c. apply get_NotFound. intros r' Hr'.
    destruct (selects c (id r) now r') eqn:Hs; [| reflexivity].
    pose proof (selects_id _ _ _ _ Hs) as Hid. pose proof (selects_live _ _ _ _ Hs) as Hl.
    rewrite (unique_row l r r' Hnd Hin Hr' Hid) in Hl. congruence.
Qed.

Lemma expired_records_are_unreachable_witness :
  expired_record ∈ rows sample_ledger /\
  expires_at expired_record < 1000 /\
  expired_record ∉ list_scans 1 0 50 1000 sample_ledger.
Proof.
  assert (Hin : expired_record ∈ rows sample_ledger).
  { apply list_elem_of_further, list_elem_of_here. }
  assert (Hexp : expires_at expired_record < 1000) by reflexivity.
  split; [exact Hin | split; [exact Hexp |]].
  exact (proj1 (proj2 (expired_records_are_unreachable sample_ledger expired_record 1000
                         Hin Hexp)) 1%nat 0%nat 50%nat).
Defined.

Lemma delete_found c scan_id now l r :
  get c scan_id now l = Ok r ->
  delete c scan_id now l =
    (Ok tt,
     Ledger (filter (fun r' => Nat.eqb (id r') scan_id = false) (rows l))
            (filter (fun a => Nat.eqb a (artifact_reference r) = false) (artifacts l))).
Proof. unfold delete. intros ->. reflexivity. Qed.

Lemma delete_absent c scan_id now l :
  (forall r, r ∈ rows l -> id r <> scan_id) ->
  delete c scan_id now l = (NotFound, l).
Proof.
  intros H. unfold delete. rewrite get_NotFound; [reflexivity |].
  intros r Hr. unfold selects.
  destruct (Nat.eqb_spec (id r) scan_id) as [E | _]; [| reflexivity].
  exfalso. exact (H r Hr E).
Qed.

(** [handleDelete] hands no exception on: whatever the server answers, either
    the scan leaves the list and nothing is shown, or the list stays and the
    failure is shown. *)
Lemma handleDelete_total confirmed server scanId scans :
  handleDelete confirmed server scanId scans
    = (filter (fun s => Nat.eqb (scan_id s) scanId = false) scans, None) \/
  handleDelete confirmed server scanId scans = (scans, None) \/
  exists m, handleDelete confirmed server scanId scans = (scans, Some (FailedToDelete m)).
Proof.
  unfold handleDelete. destruct confirmed; simpl; [| auto].
  destruct (deleteScan server scanId).1 as [m | data]; eauto.
Qed.

Example sample_delete_twice :
  let st1 := delete_once user1 1000 1 (sample_ledger, sample_scans) in
  let st2 := delete_once user1 1001 1 (fst st1) in
  (scan_id <$> snd (fst st1), snd st1, snd st2, fst st2 = fst st1)
  = ([2%nat], None, Some (FailedToDelete (MsgDetail (JStr "Scan not found"))),
     fst st2 = fst st1).
Proof. reflexivity. Qed.

Lemma get_NotFound_inv c scan_id now l r :
  get c scan_id now l = NotFound -> r ∈ rows l -> selects c scan_id now r = false.
Proof.
  unfold get. intros H Hr.
  destruct (filter _ (rows l)) as [| r' rest] eqn:Hf; [| discriminate].
  destruct (selects c scan_id now r) eqn:Hs; [| reflexivity].
  exfalso. eapply filter_nil_not_elem_of; [exact Hf | exact Hs | exact Hr].
Qed.

Lemma selects_earlier c scan_id now1 now2 r :
  now1 <= now2 -> selects c scan_id now2 r = true -> selects c scan_id now1 r = true.
Proof.
  unfold selects, live. intros Hle H.
  apply andb_true_iff in H as [H Hl]. rewrite H. simpl.
  apply Z.ltb_lt in Hl. apply Z.ltb_lt. lia.
Qed.

(** What is not found stays not found as time goes on. *)
Lemma get_NotFound_later c scan_id now1 now2 l :
  now1 <= now2 -> get c scan_id now1 l = NotFound -> get c scan_id now2 l = NotFound.
Proof.
  intros Hle H. apply get_NotFound. intros r Hr.
  destruct (selects c scan_id now2 r) eqn:Hs; [| reflexivity].
  apply (selects_earlier _ _ now1) in Hs; [| exact Hle].
  rewrite (get_NotFound_inv _ _ _ _ _ H Hr) in Hs. discriminate Hs.
Qed.

(** C6. For every ledger, caller and scan id, the second of two deletions in a
    row answers [NotFound] and changes nothing.  When the caller can reach the
    record, the first deletion succeeds and removes the row and its artifact;
    otherwise the first one answers [NotFound] as well.  On the history page
    the first deletion of a reachable scan removes it from the list without an
    alert, and a second one shows the "not found" detail in the failure alert
    and leaves ledger and list as they are: no other error class arises and no
    exception escapes the handler. *)
Theorem delete_scan_is_idempotent
    (l : ledger) (c : caller) (scan_id : nat) (now1 now2 : time) (scans : list scan) :
  now1 <= now2 ->
  let first := delete c scan_id now1 l in
  let second := delete c scan_id now2 (snd first) in
  second = (NotFound, snd first) /\
  (forall r, get c scan_id now1 l = Ok r ->
     fst first = Ok tt /\
     (forall r', r' ∈ rows (snd first) -> id r' <> scan_id) /\
     (artifact_reference r ∉ artifacts (snd first))) /\
  (get c scan_id now1 l = NotFound -> first = (NotFound, l)) /\
  (let page1 := delete_once c now1 scan_id (l, scans) in
   let page2 := delete_once c now2 scan_id (fst page1) in
   page2 = (fst page1, Some (FailedToDelete (MsgDetail (JStr "Scan not found")))) /\
   (forall r, get c scan_id now1 l = Ok r ->
      page1 = ((snd first,
                filter (fun s => Nat.eqb (ScanHistory.scan_id s) scan_id = false) scans),
               None))).
Proof.
  intros Hle. cbv zeta.
  assert (Hsecond : delete c scan_id now2 (snd (delete c scan_id now1 l))
                    = (NotFound, snd (delete c scan_id now1 l))).
  { destruct (get c scan_id now1 l) as [r |] eqn:Hget.
    - rewrite (delete_found _ _ _ _ _ Hget). cbn [snd].
      apply delete_absent. intros r' Hr'. simpl in Hr'.
      apply list_elem_of_filter in Hr' as [Hid _]. apply Nat.eqb_neq. exact Hid.
    - unfold delete at 2 3. rewrite Hget. cbn [snd].
      unfold delete. rewrite (get_NotFound_later _ _ _ _ _ Hle Hget). reflexivity. }
  split; [exact Hsecond |]. split; [| split; [| split]].
  - intros r Hget. rewrite (delete_found _ _ _ _ _ Hget). cbn [fst snd]. split; [reflexivity |].
    split.
    + intros r' Hr'. simpl in Hr'.
      apply list_elem_of_filter in Hr' as [Hid _]. apply Nat.eqb_neq. exact Hid.
    + simpl. intros H. apply list_elem_of_filter in H as [H _].
      rewrite Nat.eqb_refl in H. discriminate H.
  - intros Hget. unfold delete. rewrite Hget. reflexivity.
  - unfold delete_once at 1. cbn [fst snd].
    assert (Hl1 : fst (delete_once c now1 scan_id (l, scans)) .1
                  = snd (delete c scan_id now1 l)).
    { unfold delete_once. cbn [fst snd].
      destruct (delete c scan_id now1 l) as [res l1].
      destruct (handleDelete _ _ _ _); reflexivity. }
    destruct (delete_once c now1 scan_id (l, scans)) as [[l1 scans1] shown1].
    cbn [fst snd] in *. subst l1. rewrite Hsecond. reflexivity.
  - intros r Hget. unfold delete_once. cbn [fst snd].
    rewrite (delete_found _ _ _ _ _ Hget). reflexivity.
Qed.

Lemma delete_scan_is_idempotent_witness :
  (1000 <= 1001) /\
  get user1 1 1000 sample_ledger = Ok live_record /\
  delete user1 1 1001 (snd (delete user1 1 1000 sample_ledger))
    = (NotFound, snd (delete user1 1 1000 sample_ledger)).
Proof.
  assert (Hle : 1000 <= 1001) by (intros H; discriminate H).
  split; [exact Hle | split; [reflexivity |]].
  exact (proj1 (delete_scan_is_idempotent sample_ledger user1 1 1000 1001 sample_scans Hle)).
Defined.

End LedgerProperties.

(* ===================================================================== *)
(** * Further properties of the sources *)
(* ===================================================================== *)

(** ** Choosing files *)

Section UploadProperties.
Import Upload.
#[local] Open Scope list_scope.

Lemma keep_later {A} (l : list A) : forall k t,
  t < k ->
  snd <$> filter (fun p => fst p <> t) (imap (fun i x => (k + i, x)) l) = l.
Proof.
  induction l as [| x l IH]; intros k t Hlt; [reflexivity |].
  rewrite imap_cons, filter_cons. simpl fst.
  destruct (decide (k + 0 <> t)) as [_ | E]; [| exfalso; apply E; lia].
  rewrite fmap_cons. simpl snd. f_equal.
  rewrite <- (IH (S k) t) at 2 by lia. do 2 f_equal.
  apply imap_ext. intros i y _. simpl. f_equal. lia.
Qed.

Lemma remove_at {A} (l : list A) : forall k idx,
  snd <$> filter (fun p => fst p <> k + idx) (imap (fun i x => (k + i, x)) l)
  = take idx l ++ drop (S idx) l.
Proof.
  induction l as [| x l IH]; intros k idx.
  - destruct idx; reflexivity.
  - rewrite imap_cons, filter_cons. simpl fst.
    assert (Hshift : imap ((fun i y => (k + i, y)) ∘ S) l = imap (fun i y => (S k + i, y)) l).
    { apply imap_ext. intros i y _. simpl. f_equal. lia. }
    rewrite Hshift. destruct idx as [| j].
    + destruct (decide (k + 0 <> k + 0)) as [E | _]; [exfalso; apply E; reflexivity |].
      simpl take. simpl app. rewrite drop_0. apply (keep_later l (S k) (k + 0)). lia.
    + destruct (decide (k + 0 <> k + S j)) as [_ | E]; [| exfalso; apply E; lia].
      rewrite fmap_cons. simpl snd. simpl take. simpl drop. rewrite <- app_comm_cons.
      f_equal. replace (k + S j) with (S k + j) by lia. apply IH.
Qed.

Example remove_second_of_twins :
  handleRemoveFile 1 [Picked "a.pdf" "application/pdf"; Picked "a.pdf" "application/pdf";
                      Picked "b.pdf" "application/pdf"]
  = [Picked "a.pdf" "application/pdf"; Picked "b.pdf" "application/pdf"].
Proof. reflexivity. Qed.

(** X1. [handleRemoveFile idx] removes the file at position [idx] and nothing
    else: the files before it and after it stay, in order (also when the same
    file is listed twice); a position outside the list changes nothing. *)
Theorem handleRemoveFile_removes_one {A} (idx : nat) (files : list A) :
  handleRemoveFile idx files = take idx files ++ drop (S idx) files /\
  (forall j, j < idx -> handleRemoveFile idx files !! j = files !! j) /\
  (forall j, idx <= j -> handleRemoveFile idx files !! j = files !! (S j)) /\
  (idx < length files -> S (length (handleRemoveFile idx files)) = length files) /\
  (length files <= idx -> handleRemoveFile idx files = files).
Proof.
  assert (H : handleRemoveFile idx files = take idx files ++ drop (S idx) files).
  { unfold handleRemoveFile.
    rewrite <- (remove_at files 0 idx). do 2 f_equal. }
  rewrite H. split; [reflexivity |]. split; [| split; [| split]].
  - intros j Hj. destruct (decide (j < length files)).
    + rewrite lookup_app_l by (rewrite length_take; lia). apply lookup_take_lt. exact Hj.
    + rewrite !lookup_ge_None_2; [reflexivity | lia |].
      rewrite length_app, length_take, length_drop. lia.
  - intros j Hj. destruct (decide (idx <= length files)).
    + rewrite lookup_app_r by (rewrite length_take; lia).
      rewrite length_take, lookup_drop. f_equal. lia.
    + rewrite !lookup_ge_None_2; [reflexivity | lia |].
      rewrite length_app, length_take, length_drop. lia.
  - intros Hlt. rewrite length_app, length_take, length_drop. lia.
  - intros Hge. rewrite take_ge by exact Hge. rewrite drop_ge by lia. apply app_nil_r.
Qed.

Lemma filter_all_iff {A} (P : A -> Prop) `{forall x, Decision (P x)} (l : list A) :
  length (filter P l) = length l <-> Forall P l.
Proof.
  induction l as [| x l IH]; [split; [constructor | reflexivity] |].
  rewrite filter_cons. destruct (decide (P x)) as [Hp | Hn].
  - simpl. split.
    + intros E. constructor; [exact Hp | apply IH; lia].
    + intros HF. inversion HF; subst. f_equal. apply IH. assumption.
  - pose proof (length_filter P l). simpl. split; [lia |].
    intros HF. inversion HF; subst. contradiction.
Qed.

Lemma pdfFiles_all_pdf (newFiles : list picked) :
  Forall (fun f => is_pdf f = true) (filter (fun f => is_pdf f = true) newFiles).
Proof. apply Forall_forall. intros f Hf. apply list_elem_of_filter in Hf. tauto. Qed.

(** X2. Of the files offered to the multi-upload card, exactly the PDFs are
    passed on, in the order offered.  The alert is shown exactly when some
    offered file is not a PDF, and [onSelectFiles] is called exactly when
    some offered file is one (never with an empty list). *)
Theorem onFileChange_passes_pdfs_only (newFiles : list picked) :
  (fst (onFileChange newFiles) = true <->
     Exists (fun f => is_pdf f = false) newFiles) /\
  (snd (onFileChange newFiles) = None <->
     Forall (fun f => is_pdf f = false) newFiles) /\
  (forall pdfFiles, snd (onFileChange newFiles) = Some pdfFiles ->
     pdfFiles <> [] /\
     pdfFiles = filter (fun f => is_pdf f = true) newFiles /\
     Forall (fun f => is_pdf f = true) pdfFiles /\
     sublist pdfFiles newFiles).
Proof.
  unfold onFileChange. cbn [fst snd].
  set (pdfs := filter (fun f => is_pdf f = true) newFiles).
  split; [| split].
  - rewrite negb_true_iff, Nat.eqb_neq. unfold pdfs. rewrite filter_all_iff. split.
    + intros Hn. apply not_Forall_Exists in Hn; [| intros f; apply _].
      eapply Exists_impl; [exact Hn |]. intros f Hf. simpl in Hf.
      destruct (is_pdf f); congruence.
    + intros He HF. apply Exists_exists in He as (f & Hin & Hf).
      rewrite Forall_forall in HF. rewrite (HF f Hin) in Hf. discriminate Hf.
  - destruct (Nat.ltb_spec 0 (length pdfs)) as [Hpos | Hzero].
    + split; [discriminate |]. intros HF. exfalso.
      destruct pdfs as [| f rest] eqn:E; [simpl in Hpos; lia |].
      assert (Hin : f ∈ filter (fun f => is_pdf f = true) newFiles).
      { fold pdfs. rewrite E. apply list_elem_of_here. }
      apply list_elem_of_filter in Hin as [Hp Hin].
      rewrite Forall_forall in HF. rewrite (HF f Hin) in Hp. discriminate Hp.
    + split; [| reflexivity]. intros _. apply Forall_forall. intros f Hf.
      destruct (is_pdf f) eqn:Hp; [| reflexivity]. exfalso.
      assert (Hin : f ∈ pdfs) by (apply list_elem_of_filter; auto).
      destruct pdfs; [apply elem_of_nil in Hin; exact Hin | simpl in Hzero; lia].
  - intros pdfFiles H.
    destruct (Nat.ltb_spec 0 (length pdfs)) as [Hpos | Hzero]; [| discriminate].
    inversion H; subst pdfFiles. split; [| split; [reflexivity | split]].
    + intros E. rewrite E in Hpos. simpl in Hpos. lia.
    + apply pdfFiles_all_pdf.
    + apply sublist_filter.
Qed.

Lemma step_keeps_pdfs files e :
  Forall (fun f => is_pdf f = true) files ->
  Forall (fun f => is_pdf f = true) (step files e).
Proof.
  intros HF. destruct e as [newFiles | idx |]; simpl.
  - destruct (0 <? _)%nat; [| exact HF].
    apply Forall_app. split; [exact HF | apply pdfFiles_all_pdf].
  - destruct (handleRemoveFile_removes_one idx files) as [-> _].
    apply Forall_app. split; [apply Forall_take | apply Forall_drop]; exact HF.
  - constructor.
Qed.

Example selection_sample :
  picked_name <$> run [Offer [Picked "a.pdf" "application/pdf"; Picked "notes.txt" "text/plain"];
                       Offer [Picked "b.pdf" "application/pdf"];
                       Remove 0;
                       Offer [Picked "c.png" "image/png"]]
  = ["b.pdf"].
Proof. reflexivity. Qed.

(** X3. Whatever files are offered, removed or cleared, and in whatever
    order, the multi-file selection holds PDFs only; the single-file card
    likewise selects a file only if it is a PDF, and looks at the first
    offered file only. *)
Theorem selection_holds_pdfs_only (events : list event) (offered : list picked) :
  Forall (fun f => is_pdf f = true) (run events) /\
  (forall f, snd (onFileChange_single offered) = Some f ->
     is_pdf f = true /\ head offered = Some f).
Proof.
  split.
  - unfold run. assert (G : forall files, Forall (fun f => is_pdf f = true) files ->
                         Forall (fun f => is_pdf f = true) (foldl step files events)).
    { induction events as [| e events IH]; intros files HF; [exact HF |].
      simpl. apply IH. apply step_keeps_pdfs. exact HF. }
    apply G. constructor.
  - unfold onFileChange_single. intros f. destruct (head offered) as [g |]; [| discriminate].
    destruct (is_pdf g) eqn:Hg; [| discriminate]. simpl. intros H. inversion H; subst. auto.
Qed.

End UploadProperties.

(** ** The single-document scan *)

Section SingleScanProperties.
Import Report DocumentsList App AppFull Samples Samples2.
#[local] Open Scope list_scope.

Lemma parsed_invariant_of_report json p :
  parseBackend json = Some p -> report_invariant json ->
  parsed_invariant (get_opt json "total_pages") p.
Proof.
  intros H [Htotal Hnum].
  destruct (parseBackend_Some _ _ H) as (_ & _ & _ & _ & _ & Hlen & _).
  split; [rewrite Hlen; exact Htotal |].
  intros i pg Hi. destruct (parsed_page_origin _ _ _ _ H Hi) as (rp & Hrp & Hidx & Hkey & _).
  split; [exact Hidx |]. exists (get_opt rp "page_number"). eauto.
Qed.

Lemma items_ok_of_annotations t json p :
  parseBackend json = Some p -> annotations_ok t json -> items_ok t p.
Proof.
  intros H Hok pg it Hpg Hit.
  destruct (parsed_item_origin _ _ _ _ H Hpg Hit) as (rp & a & Hrp & Ha & _ & _ & _ & ->).
  eapply Hok; eassumption.
Qed.

(** The other two properties of a converted report. *)
Lemma convertOldFormat_header old r :
  convertOldFormat old = Some r ->
  get_opt r "processing_time" = JNum 0 /\
  exists fileKey, head <$> keys old = Some (Some fileKey) /\ fileKey <> "" /\
                  get_opt r "document_name" = JStr fileKey.
Proof.
  unfold convertOldFormat. intros H.
  destruct (keys old) as [ks |]; simpl in H; [| discriminate].
  destruct (head ks) as [fileKey |] eqn:Hh; [| discriminate].
  destruct (String.eqb_spec fileKey "") as [| Hne]; [discriminate |].
  destruct (keys _) as [pks |]; simpl in H; [| discriminate].
  destruct (mapM_from _ 0 (sort_keys pks)) as [ps |]; simpl in H; [| discriminate].
  inversion H; subst r. split; [reflexivity |]. exists fileKey.
  split; [simpl; rewrite Hh; reflexivity |]. split; [exact Hne | reflexivity].
Qed.

Lemma or_unexpected_nonempty m : or_unexpected m <> MsgRuntime "".
Proof.
  destruct m as [d | st | | | text]; try discriminate.
  destruct text as [| c text]; discriminate.
Qed.

Example fallback_sample :
  let s := analyzeDocument (Rejected "Failed to fetch") (Response true 200 (inr old_example))
             (handleSelectFile (Some (File "plan.pdf")) initial) in
  (fileName <$> results s, (fun p => length (pages p)) <$> results s, view s, error s)
  = (Some (JStr "plan.pdf"), Some 2, Results, None).
Proof. reflexivity. Qed.

Example invalid_answer_sample :
  let s := analyzeDocument (Response true 200 (inr (JObj [("pages", JArr [])])))
             (Response true 200 (inr old_example))
             (handleSelectFile (Some (File "plan.pdf")) initial) in
  (results s, view s, error s) = (None, Upload, Some MsgInvalidFormat).
Proof. reflexivity. Qed.

(** X4. A single-document scan with a file selected always ends with the
    uploading flag cleared and in exactly one of two ways: the parsed result
    is stored, the error is cleared and the results view is shown; or an
    error with a non-empty message is stored and result and view stay as they
    were.  When the back end answers successfully with a JSON body, that body
    alone decides: if [parseBackend] rejects it the scan fails with 'Invalid
    response format', and the local example is not used. *)
Theorem analyzeDocument_outcome
    (backend example : fetched) (s : app) (f : DocumentsList.file) :
  file s = Some f ->
  let s' := analyzeDocument backend example s in
  isUploading s' = false /\
  ((exists p, results s' = Some p /\ view s' = Results /\ error s' = None) \/
   (exists m, error s' = Some m /\ m <> MsgRuntime "" /\
              results s' = results s /\ view s' = view s)) /\
  (forall st json, backend = Response true st (inr json) ->
     s' = finish s match parseBackend json with
                   | Some p => inr p
                   | None => inl MsgInvalidFormat
                   end) /\
  scanMode s' = scanMode s /\ file s' = file s /\ files s' = files s /\
  documents s' = documents s.
Proof.
  intros Hf. cbv zeta. unfold analyzeDocument. rewrite Hf.
  set (r := match fetch_json backend example with
            | inl m => inl m
            | inr json =>
                match parseBackend (default JNull json) with
                | Some parsed => inr parsed
                | None => inl MsgInvalidFormat
                end
            end).
  split; [destruct r; reflexivity |]. split; [| split].
  - destruct r as [m | p]; simpl.
    + right. exists (or_unexpected m). auto using or_unexpected_nonempty.
    + left. eauto.
  - intros st json ->. reflexivity.
  - destruct r; auto.
Qed.

Lemma analyzeDocument_outcome_witness :
  file (handleSelectFile (Some (File "plan.pdf")) initial) = Some (File "plan.pdf") /\
  isUploading (analyzeDocument (Rejected "Failed to fetch")
                 (Response true 200 (inr old_example))
                 (handleSelectFile (Some (File "plan.pdf")) initial)) = false.
Proof.
  split; [reflexivity |].
  exact (proj1 (analyzeDocument_outcome (Rejected "Failed to fetch")
                  (Response true 200 (inr old_example))
                  (handleSelectFile (Some (File "plan.pdf")) initial)
                  (File "plan.pdf") eq_refl)).
Defined.

Lemma fetch_json_fallback backend example :
  (forall st json, backend <> Response true st (inr json)) ->
  fetch_json backend example =
    match example with
    | Rejected msg => inl (MsgRuntime msg)
    | Response false _ _ =>
        inl (MsgRuntime "Backend unavailable and local example not found")
    | Response true _ (inl syntax_error) => inl (MsgRuntime syntax_error)
    | Response true _ (inr exampleData) => inr (convertOldFormat exampleData)
    end.
Proof.
  intros H. unfold fetch_json.
  destruct backend as [msg | [|] st [syn | json]]; try reflexivity.
  exfalso. exact (H st json eq_refl).
Qed.

(** X5. When the back end does not answer successfully with JSON and the scan
    still succeeds, the result shown is the local example converted and
    parsed: its file name is the first key of the example, its processing
    time is 0, its pages are numbered from 1 and as many as its
    [total_pages], and the confidence of every item is the number 0.95. *)
Theorem analyzeDocument_falls_back_to_example
    (backend example : fetched) (s : app) (f : DocumentsList.file) (p : parsed) :
  file s = Some f ->
  (forall st json, backend <> Response true st (inr json)) ->
  results (analyzeDocument backend example s) = Some p ->
  error (analyzeDocument backend example s) = None ->
  exists st exampleData r fileKey,
    example = Response true st (inr exampleData) /\
    convertOldFormat exampleData = Some r /\
    parseBackend r = Some p /\
    head <$> keys exampleData = Some (Some fileKey) /\
    fileName p = JStr fileKey /\
    processingTime p = JNum 0 /\
    parsed_invariant (get_opt r "total_pages") p /\
    (forall pg it, pg ∈ pages p -> it ∈ items pg -> confidence it = JNum (95 # 100)).
Proof.
  intros Hf Hb Hres Herr. unfold analyzeDocument in Hres, Herr. rewrite Hf in Hres, Herr.
  rewrite (fetch_json_fallback _ _ Hb) in Hres, Herr.
  destruct example as [msg | [|] st [syn | exampleData]]; try discriminate Herr.
  destruct (convertOldFormat exampleData) as [r |] eqn:Hc; [| discriminate Herr].
  simpl in Hres, Herr.
  destruct (parseBackend r) as [p' |] eqn:Hp; [| discriminate Herr].
  simpl in Hres. inversion Hres; subst p'.
  destruct (convertOldFormat_header _ _ Hc) as (Htime & fileKey & Hkey & _ & Hname).
  destruct (parseBackend_Some _ _ Hp) as (_ & _ & Hfile & Hproc & _).
  exists st, exampleData, r, fileKey.
  split; [reflexivity |]. split; [exact Hc |]. split; [exact Hp |].
  split; [exact Hkey |]. split; [congruence |]. split; [congruence |]. split.
  - apply parsed_invariant_of_report; [exact Hp | eapply convertOldFormat_invariant; exact Hc].
  - intros pg it Hpg Hit.
    destruct (parsed_item_origin _ _ _ _ Hp Hpg Hit) as (rp & a & Hrp & Ha & _ & _ & _ & ->).
    apply list_elem_of_lookup in Hrp as [i Hi].
    destruct (convertOldFormat_Some _ _ Hc) as [_ Hpages].
    destruct (Hpages i rp Hi) as [_ Hall].
    rewrite Forall_forall in Hall. exact (Hall a Ha).
Qed.

Lemma analyzeDocument_falls_back_to_example_witness :
  results (analyzeDocument (Rejected "Failed to fetch") (Response true 200 (inr old_example))
             picked_state) = Some fallback_parsed /\
  processingTime fallback_parsed = JNum 0 /\
  (forall pg it, pg ∈ pages fallback_parsed -> it ∈ items pg ->
     confidence it = JNum (95 # 100)).
Proof.
  assert (Hb : forall st json,
             Rejected "Failed to fetch" <> Response true st (inr json)) by discriminate.
  destruct (analyzeDocument_falls_back_to_example
              (Rejected "Failed to fetch") (Response true 200 (inr old_example))
              picked_state (File "plan.pdf") fallback_parsed eq_refl Hb eq_refl eq_refl)
    as (st & ex & r & k & _ & _ & _ & _ & _ & Htime & _ & Hok).
  split; [reflexivity | split; [exact Htime | exact Hok]].
Defined.

(** ** Opening the viewer from the list of documents *)

Lemma multi_run_documents net s :
  files s <> [] ->
  documents (analyzeMultipleDocuments net s) = imap (settled net) (files s) /\
  view (analyzeMultipleDocuments net s) = Results /\
  isUploading (analyzeMultipleDocuments net s) = false /\
  scanMode (analyzeMultipleDocuments net s) = scanMode s.
Proof.
  intros Hne.
  destruct (analyzeMultipleDocuments_run net (to_multi s) Hne) as (_ & Hd & Hu & Hv & _).
  unfold analyzeMultipleDocuments. simpl. auto.
Qed.

(** X6. After a multi-document run the document at position [i] of the list
    is completed, with the result parsed from its own response, exactly when
    that response was accepted.  [openViewer(i)] then makes that document's
    file and result the current ones and sets the view to the viewer,
    leaving the list as it is; [closeViewer] sets the view back to the
    results.  An index outside the list makes [openViewer] throw. *)
Theorem viewer_opens_the_chosen_document
    (net : network) (s : app) (i : nat) (f : DocumentsList.file) (r : parsed) :
  scanMode s = Multi ->
  files s !! i = Some f ->
  outcome (net i f) = inr r ->
  let s1 := analyzeMultipleDocuments net s in
  documents s1 !! i = Some (Document f Completed (Some r) None) /\
  (exists s2, openViewer i s1 = Some s2 /\
              view s2 = Viewer /\ file s2 = Some f /\ results s2 = Some r /\
              documents s2 = documents s1 /\ scanMode s2 = Multi /\
              view (closeViewer s2) = Results /\
              documents (closeViewer s2) = documents s1) /\
  (forall j g, files s !! j = Some g ->
     (doc_status <$> documents s1 !! j = Some Completed
      <-> exists r', outcome (net j g) = inr r')) /\
  (forall j, length (files s) <= j -> openViewer j s1 = None).
Proof.
  intros Hmode Hi Ho. cbv zeta.
  assert (Hne : files s <> []) by (intros E; rewrite E in Hi; discriminate Hi).
  destruct (multi_run_documents net s Hne) as (Hd & Hv & _ & Hm).
  assert (Hdoc : documents (analyzeMultipleDocuments net s) !! i
                 = Some (Document f Completed (Some r) None)).
  { rewrite Hd, list_lookup_imap, Hi. simpl. unfold settled. rewrite Ho. reflexivity. }
  split; [exact Hdoc |]. split; [| split].
  - unfold openViewer. rewrite Hm, Hmode, Hdoc. simpl.
    eexists. split; [reflexivity |]. simpl. repeat split; assumption.
  - intros j g Hj. rewrite Hd, list_lookup_imap, Hj. simpl.
    unfold settled. destruct (outcome (net j g)) as [m | r']; simpl.
    + split; [discriminate | intros [r' Hr']; discriminate Hr'].
    + split; [eauto | reflexivity].
  - intros j Hj.
    assert (Hnone : documents (analyzeMultipleDocuments net s) !! j = None).
    { apply lookup_ge_None_2. rewrite Hd, length_imap. exact Hj. }
    unfold openViewer. rewrite Hm, Hmode, Hnone. reflexivity.
Qed.

Lemma viewer_opens_the_chosen_document_witness :
  scanMode multi_state = Multi /\
  files multi_state !! 0 = Some (File "a.pdf") /\
  outcome (sample_network 0 (File "a.pdf")) = inr sample_parsed /\
  documents (analyzeMultipleDocuments sample_network multi_state) !! 0
  = Some (Document (File "a.pdf") Completed (Some sample_parsed) None).
Proof.
  split; [reflexivity | split; [reflexivity | split; [reflexivity |]]].
  exact (proj1 (viewer_opens_the_chosen_document sample_network multi_state 0
                  (File "a.pdf") sample_parsed eq_refl eq_refl eq_refl)).
Defined.

End SingleScanProperties.

(** ** The progress shown per file *)

Section ProgressProperties.
Import Report DocumentsList App Progress Samples.
#[local] Open Scope list_scope.

Variable net : network.

Lemma process_progress i f s j :
  App.progress (process net i f s) !! j =
    if decide (j = i) then Some (final_progress net i f) else App.progress s !! j.
Proof.
  unfold process, final_progress. cbv zeta.
  destruct (net i f) as [msg | ok st body] eqn:Hn.
  - simpl. destruct (decide (j = i)) as [-> | Hne].
    + rewrite lookup_insert_eq. reflexivity.
    + rewrite !lookup_insert_ne by congruence. reflexivity.
  - destruct (outcome (Response ok st body)) as [m | p]; simpl;
      destruct (decide (j = i)) as [-> | Hne];
      rewrite ?lookup_insert_eq, ?lookup_insert_ne by congruence; reflexivity.
Qed.

Lemma loop_progress rest : forall i s log j,
  App.progress (fst (loop net i rest s log)) !! j =
    if decide (i <= j) then
      match rest !! (j - i) with
      | Some f => Some (final_progress net j f)
      | None => App.progress s !! j
      end
    else App.progress s !! j.
Proof.
  induction rest as [| f rest IH]; intros i s log j; simpl.
  - destruct (decide (i <= j)); reflexivity.
  - rewrite IH, process_progress.
    destruct (decide (S i <= j)) as [H1 | H1]; destruct (decide (i <= j)) as [H2 | H2];
      try lia.
    + replace (j - i) with (S (j - S i)) by lia. simpl.
      destruct (decide (j = i)); [lia | reflexivity].
    + replace j with i by lia. rewrite Nat.sub_diag. simpl.
      destruct (decide (i = i)); [reflexivity | congruence].
    + destruct (decide (j = i)); [lia | reflexivity].
Qed.

Example sample_progress :
  (fun i => App.progress (fst (App.analyzeMultipleDocuments sample_network sample_state)) !! i)
    <$> [0; 1; 2; 3]
  = [Some 100; Some 30; Some 70; None].
Proof. reflexivity. Qed.

(** X7. After a multi-document run the progress of a submitted file is 100
    exactly when its document is completed; it is 30 when its request was
    rejected and 70 when a response arrived but the document failed.  The
    entries of positions beyond the selection are left as they were. *)
Theorem progress_reflects_the_outcome (s : state) :
  App.files s <> [] ->
  let s' := fst (App.analyzeMultipleDocuments net s) in
  (forall i f, App.files s !! i = Some f ->
     App.progress s' !! i = Some (final_progress net i f) /\
     (App.progress s' !! i = Some 100 <->
        App.documents s' !! i = Some (Document f Completed
                                        (match outcome (net i f) with
                                         | inr r => Some r
                                         | inl _ => None
                                         end) None))) /\
  (forall j, length (App.files s) <= j -> App.progress s' !! j = App.progress s !! j).
Proof.
  intros Hne. cbv zeta.
  destruct (analyzeMultipleDocuments_run net s Hne) as (_ & Hdocs & _).
  assert (Hp : forall j,
             App.progress (fst (App.analyzeMultipleDocuments net s)) !! j =
               match App.files s !! j with
               | Some f => Some (final_progress net j f)
               | None => App.progress s !! j
               end).
  { intros j. unfold App.analyzeMultipleDocuments.
    destruct (App.files s) as [| f0 fs] eqn:Hf; [congruence |].
    pose proof (loop_progress (f0 :: fs) 0
                  (State (f0 :: fs) (initialDocs (f0 :: fs)) Results true None (App.progress s))
                  [] j) as Hl.
    destruct (loop net 0 (f0 :: fs) _ []) as [s2 log]. cbn [fst] in *.
    destruct (decide (0 <= j)); [| lia]. rewrite Nat.sub_0_r in Hl. exact Hl. }
  split.
  - intros i f Hi. rewrite Hp, Hi. split; [reflexivity |].
    rewrite Hdocs, list_lookup_imap, Hi. simpl. unfold final_progress, settled.
    destruct (net i f) as [msg | ok st body].
    + simpl. split; [intros E; inversion E | intros E; inversion E].
    + destruct (outcome (Response ok st body)) as [m | r].
      * split; [intros E; inversion E | intros E; inversion E].
      * split; reflexivity.
  - intros j Hj. rewrite Hp. rewrite lookup_ge_None_2 by exact Hj. reflexivity.
Qed.

End ProgressProperties.

Section ProgressExamples.
Import Report DocumentsList App Progress Samples.

Lemma progress_reflects_the_outcome_witness :
  App.files sample_state <> [] /\
  App.progress (fst (App.analyzeMultipleDocuments sample_network sample_state)) !! 1
  = Some 30.
Proof.
  assert (Hne : App.files sample_state <> []) by discriminate.
  split; [exact Hne |].
  exact (proj1 (proj1 (progress_reflects_the_outcome sample_network sample_state Hne)
                  1 (File "b.pdf") eq_refl)).
Defined.

End ProgressExamples.

(** ** What the viewer draws *)

Section DisplayProperties.
Import Report PdfViewer Display Samples.
#[local] Open Scope list_scope.

Lemma page_at_in_range ps s :
  in_range ps s -> exists current, page_at ps (pageIndex s) = Some current.
Proof.
  intros (z & Hz & Hr). unfold page_at. rewrite Hz.
  destruct (Z.ltb_spec z 0) as [Hneg | _]; [lia |].
  apply lookup_lt_is_Some_2. unfold count in Hr. lia.
Qed.

(** X8. For a non-empty list of pages the viewer always has a current page:
    in every state it reaches, [pages[pageIndex]] is defined, so the overlay
    is drawn, and for pages parsed by [parseBackend] the current page is the
    one whose index is the page index. *)
Theorem viewer_always_has_a_current_page (ps : list page) (s : state) :
  ps <> [] -> reachable ps s ->
  exists current,
    page_at ps (pageIndex s) = Some current /\
    render_overlay ps s = Some (overlay_items (visible s) current) /\
    (forall json p, parseBackend json = Some p -> ps = pages p ->
       pageIndex s = Some (Z.of_nat (index current))).
Proof.
  intros Hne Hreach. pose proof (reachable_in_range ps Hne s Hreach) as Hs.
  destruct (page_at_in_range ps s Hs) as [current Hc].
  exists current. split; [exact Hc |]. split.
  - unfold render_overlay. rewrite Hc. reflexivity.
  - intros json p Hp ->. destruct Hs as (z & Hz & Hr).
    unfold page_at in Hc. rewrite Hz in Hc |- *.
    destruct (Z.ltb_spec z 0) as [Hneg | Hpos]; [discriminate Hc |].
    destruct (parsed_page_origin _ _ _ _ Hp Hc) as (_ & _ & Hidx & _).
    rewrite Hidx. f_equal. lia.
Qed.

Lemma viewer_always_has_a_current_page_witness :
  pages sample_parsed <> [] /\
  reachable (pages sample_parsed) (handle (pages sample_parsed) Next initial) /\
  exists current,
    page_at (pages sample_parsed) (pageIndex (handle (pages sample_parsed) Next initial))
    = Some current.
Proof.
  assert (Hne : pages sample_parsed <> []) by discriminate.
  assert (Hr : reachable (pages sample_parsed) (handle (pages sample_parsed) Next initial)).
  { eapply reach_step; [apply reach_initial |]. apply step_event. reflexivity. }
  split; [exact Hne | split; [exact Hr |]].
  destruct (viewer_always_has_a_current_page _ _ Hne Hr) as (current & Hc & _).
  exists current. exact Hc.
Defined.

Example empty_report_is_accepted :
  pages <$> parseBackend (JObj [("document_name", JStr "empty.pdf"); ("pages", JArr [])])
  = Some [].
Proof. reflexivity. Qed.

(** X9. [parseBackend] accepts a response without pages, but the viewer
    cannot draw it: with an empty list of pages [pages[pageIndex]] is
    undefined whatever the page index, so the first render, which reads
    [current.items], throws. *)
Theorem empty_report_cannot_be_viewed (json : value) (p : parsed) (s : state) :
  parseBackend json = Some p ->
  report_pages json = [] ->
  pages p = [] /\
  page_at (pages p) (pageIndex s) = None /\
  render_overlay (pages p) s = None /\
  render_overlay (pages p) initial = None.
Proof.
  intros Hp Hempty.
  destruct (parseBackend_Some _ _ Hp) as (_ & _ & _ & _ & _ & Hlen & _).
  rewrite Hempty in Hlen. simpl in Hlen.
  assert (E : pages p = []) by (destruct (pages p); [reflexivity | discriminate Hlen]).
  rewrite E. split; [reflexivity |].
  assert (H : page_at [] (pageIndex s) = None).
  { unfold page_at. destruct (pageIndex s) as [z |]; [| reflexivity].
    destruct (z <? 0)%Z; reflexivity. }
  split; [exact H |]. split; [| reflexivity].
  unfold render_overlay. rewrite H. reflexivity.
Qed.

Lemma empty_report_cannot_be_viewed_witness :
  exists p,
    parseBackend (JObj [("document_name", JStr "empty.pdf"); ("pages", JArr [])]) = Some p /\
    render_overlay (pages p) initial = None.
Proof.
  eexists. split; [reflexivity |].
  exact (proj2 (proj2 (proj2 (empty_report_cannot_be_viewed
                         (JObj [("document_name", JStr "empty.pdf"); ("pages", JArr [])])
                         _ initial eq_refl eq_refl)))).
Defined.

(** X10. Of a page's items the sidebar draws a prefix: all of them when the
    page is expanded or has at most [limit] items, otherwise the first
    [limit].  The expand button is drawn exactly when the collapsed view
    hides something, and its label then counts the hidden items. *)
Theorem sidebar_shows_a_prefix {A} (limit : nat) (expanded : bool) (its : list A) :
  displayed limit expanded its `prefix_of` its /\
  length (displayed limit expanded its)
    = (if expanded then length its else Nat.min limit (length its)) /\
  (hasMore limit its = false -> displayed limit expanded its = its) /\
  (hasMore limit its = true ->
     displayed limit true its = its /\
     length (displayed limit false its) = limit /\
     (0 < more_count limit its)%Z /\
     (Z.of_nat (length (displayed limit false its)) + more_count limit its
      = Z.of_nat (length its))%Z).
Proof.
  unfold displayed, displayLimit, hasMore, more_count.
  split; [apply prefix_take |]. split; [| split].
  - rewrite length_take. destruct expanded; lia.
  - intros H. apply Nat.ltb_ge in H. apply take_ge. destruct expanded; lia.
  - intros H. apply Nat.ltb_lt in H. rewrite take_ge by lia.
    rewrite length_take. repeat split; lia.
Qed.

Lemma sidebar_shows_a_prefix_witness :
  hasMore 4 [1; 2; 3; 4; 5; 6] = true /\
  length (displayed 4 false [1; 2; 3; 4; 5; 6]) = 4.
Proof.
  split; [reflexivity |].
  exact (proj1 (proj2 (proj2 (proj2 (proj2 (sidebar_shows_a_prefix 4 false [1; 2; 3; 4; 5; 6])))
                               eq_refl))).
Defined.

(** X11. Expanding and collapsing: one toggle flips the state of its own
    entry and leaves every other entry alone; two toggles of the same entry
    give back the expansion state of every entry. *)
Theorem toggleExpand_flips_one_entry (idx : nat) (prev : gmap nat bool) :
  isExpanded (toggleExpand idx prev) idx = negb (isExpanded prev idx) /\
  (forall j, j <> idx -> isExpanded (toggleExpand idx prev) j = isExpanded prev j) /\
  (forall j, isExpanded (toggleExpand idx (toggleExpand idx prev)) j = isExpanded prev j).
Proof.
  unfold isExpanded, toggleExpand. split; [| split].
  - rewrite lookup_insert_eq. reflexivity.
  - intros j Hj. rewrite lookup_insert_ne by congruence. reflexivity.
  - intros j. destruct (decide (j = idx)) as [-> | Hj].
    + rewrite !lookup_insert_eq. simpl. apply negb_involutive.
    + rewrite !lookup_insert_ne by congruence. reflexivity.
Qed.

Lemma category_indicators c :
  (if is_str c "qr" then 1 else 0) + (if is_str c "signature" then 1 else 0)
  + (if is_str c "stamp" then 1 else 0)
  = if is_known c then 1 else 0.
Proof.
  unfold is_known. destruct (is_str c "qr") eqn:Hq.
  { rewrite (is_str_qr_signature _ Hq), (is_str_qr_stamp _ Hq). reflexivity. }
  destruct (is_str c "signature") eqn:Hs.
  { rewrite (is_str_signature_stamp _ Hs). reflexivity. }
  destruct (is_str c "stamp"); reflexivity.
Qed.

Lemma tallies_of_items (its : list item) :
  tally "qr" its + tally "signature" its + tally "stamp" its
  + length (filter (fun it => is_known (category it) = false) its)
  = length its.
Proof.
  induction its as [| it its IH]; [reflexivity |].
  rewrite (tally_cons "qr"), (tally_cons "signature"), (tally_cons "stamp"), filter_cons.
  pose proof (category_indicators (category it)) as Hi. simpl length.
  destruct (decide (is_known (category it) = false)) as [E | E].
  - rewrite E in Hi. simpl length. lia.
  - apply not_false_is_true in E. rewrite E in Hi. lia.
Qed.

Lemma tallies_of_pages (ps : list page) :
  sum_list ((fun p => tally "qr" (items p)) <$> ps)
  + sum_list ((fun p => tally "signature" (items p)) <$> ps)
  + sum_list ((fun p => tally "stamp" (items p)) <$> ps)
  + sum_list ((fun pg => length (filter (fun it => is_known (category it) = false) (items pg)))
              <$> ps)
  = sum_list (badge <$> ps).
Proof.
  induction ps as [| pg ps IH]; [reflexivity |].
  rewrite !fmap_cons, !sum_list_cons. unfold badge at 1.
  pose proof (tallies_of_items (items pg)). lia.
Qed.

Example odd_report_items :
  (items_shown odd_parsed, sum_list (badge <$> pages odd_parsed)) = (0, 1).
Proof. reflexivity. Qed.

(** X12. In the list of documents, the number of "items" of a document plus
    the number of its items of unknown category is the sum of its page
    badges.  So the header never counts more than the badges add up to, and
    it counts as much exactly when every item is a QR code, a signature or a
    stamp. *)
Theorem items_shown_versus_badges (json : value) (r : parsed) :
  parseBackend json = Some r ->
  items_shown r + unknown_items r = sum_list (badge <$> pages r) /\
  items_shown r <= sum_list (badge <$> pages r) /\
  (items_shown r = sum_list (badge <$> pages r) <->
     forall pg it, pg ∈ pages r -> it ∈ items pg -> known_category (category it)).
Proof.
  intros Hp.
  destruct (parseBackend_Some _ _ Hp) as (_ & _ & _ & _ & Hc & _).
  assert (Hsum : items_shown r + unknown_items r = sum_list (badge <$> pages r)).
  { unfold items_shown, unknown_items. rewrite Hc.
    destruct (count_pages_spec (pages r)) as (-> & -> & ->). apply tallies_of_pages. }
  split; [exact Hsum |]. split; [lia |].
  assert (Hzero : unknown_items r = 0 <->
            forall pg it, pg ∈ pages r -> it ∈ items pg -> known_category (category it)).
  { unfold unknown_items. generalize (pages r) as ps.
    induction ps as [| pg ps IH].
    - split; [| reflexivity]. intros _ pg it Hpg. apply elem_of_nil in Hpg. contradiction.
    - rewrite fmap_cons, sum_list_cons. split.
      + intros H pg' it Hpg' Hit. apply elem_of_cons in Hpg' as [-> | Hpg'].
        * assert (Hf : filter (fun it => is_known (category it) = false) (items pg) = []).
          { destruct (filter _ (items pg)); [reflexivity | simpl in H; lia]. }
          destruct (is_known (category it)) eqn:Hk.
          -- unfold is_known in Hk. apply orb_true_iff in Hk as [Hk | Hk];
               [apply orb_true_iff in Hk as [Hk | Hk] |];
               apply is_str_true in Hk; unfold known_category; auto.
          -- exfalso. eapply filter_nil_not_elem_of; [exact Hf | exact Hk | exact Hit].
        * apply (proj1 IH ltac:(lia) pg' it Hpg' Hit).
      + intros H. assert (Hrest : sum_list ((fun pg0 => length (filter
                    (fun it => is_known (category it) = false) (items pg0))) <$> ps) = 0).
        { apply (proj2 IH). intros pg' it Hpg' Hit. apply (H pg' it); [| exact Hit].
          apply list_elem_of_further. exact Hpg'. }
        rewrite Hrest, filter_none; [reflexivity |].
        intros it Hit Hk. destruct (H pg it (list_elem_of_here _ _) Hit) as [E | [E | E]];
          unfold is_known in Hk; rewrite E in Hk; discriminate Hk. }
  rewrite <- Hzero. lia.
Qed.

Lemma items_shown_versus_badges_witness :
  parseBackend odd_report = Some odd_parsed /\
  items_shown odd_parsed + unknown_items odd_parsed = sum_list (badge <$> pages odd_parsed).
Proof.
  split; [reflexivity |].
  exact (proj1 (items_shown_versus_badges odd_report odd_parsed eq_refl)).
Defined.

End DisplayProperties.

(** ** The Total Pages card *)

Section TotalPagesProperties.
Import Report DocumentsList App Display Samples.
#[local] Open Scope list_scope.

(** X13. After a multi-document run the Total Pages card shows the pages of
    the completed documents added up: each accepted response contributes the
    length of its [pages] array, each failed document nothing. *)
Theorem total_pages_counts_completed_documents (net : network) (s : state) :
  files s <> [] ->
  let docs := documents (fst (App.analyzeMultipleDocuments net s)) in
  total_pages (totalStats docs) = pages_of_results docs /\
  total_pages (totalStats docs)
  = sum_list (imap (fun i f => match outcome (net i f) with
                               | inr r => length (pages r)
                               | inl _ => 0
                               end) (files s)).
Proof.
  intros Hne. cbv zeta.
  destruct (analyzeMultipleDocuments_run net s Hne) as (_ & -> & _).
  destruct (totalStats_from (imap (settled net) (files s)) (Stats 0 0 0 0 (Some 0%Q)))
    as (_ & _ & _ & Hpages).
  unfold totalStats. rewrite Hpages. simpl total_pages. rewrite Nat.add_0_l.
  unfold pages_of_results. rewrite !fmap_imap. split.
  - f_equal. apply imap_ext. intros i f _. simpl. unfold settled.
    destruct (outcome (net i f)); reflexivity.
  - f_equal. apply imap_ext. intros i f _. simpl. unfold settled.
    destruct (outcome (net i f)); reflexivity.
Qed.

Lemma total_pages_counts_completed_documents_witness :
  files sample_state <> [] /\
  total_pages (totalStats (documents (fst (App.analyzeMultipleDocuments sample_network
                                             sample_state)))) = 3.
Proof.
  assert (Hne : files sample_state <> []) by discriminate.
  split; [exact Hne |].
  exact (proj2 (total_pages_counts_completed_documents sample_network sample_state Hne)).
Defined.

End TotalPagesProperties.

(** ** The QR analyzer *)

Section QRAnalyzerProperties.
Import Report QrDecoder QRAnalyzer Samples.
#[local] Open Scope list_scope.

Lemma of_page_length idx pg : length (of_page idx pg) = tally "qr" (items pg).
Proof. unfold of_page, tally. apply length_fmap. Qed.

Lemma extract_from (ps : list page) : forall k,
  length (concat (imap (fun i => of_page (k + i)) ps))
  = sum_list ((fun p => tally "qr" (items p)) <$> ps).
Proof.
  induction ps as [| pg ps IH]; intros k; [reflexivity |].
  rewrite imap_cons, fmap_cons, sum_list_cons. simpl concat.
  rewrite length_app, of_page_length, <- (IH (S k)). do 3 f_equal.
  apply imap_ext. intros i x _. simpl. f_equal. lia.
Qed.

Lemma elem_of_concat {A} (x : A) (ls : list (list A)) :
  x ∈ concat ls <-> exists l, x ∈ l /\ l ∈ ls.
Proof.
  induction ls as [| l ls IH]; simpl.
  - split; [intros H; apply elem_of_nil in H; contradiction |].
    intros (l & _ & H). apply elem_of_nil in H. contradiction.
  - rewrite elem_of_app, IH. split.
    + intros [H | (l' & H1 & H2)]; [exists l | exists l'];
        (split; [assumption |]); [apply list_elem_of_here | apply list_elem_of_further, H2].
    + intros (l' & H1 & H2). apply elem_of_cons in H2 as [-> | H2]; eauto.
Qed.

Lemma elem_of_extract ps q :
  q ∈ extract ps <-> exists pg, ps !! pageIdx q = Some pg /\ q ∈ of_page (pageIdx q) pg.
Proof.
  unfold extract. rewrite elem_of_concat. split.
  - intros (l & Hq & Hl). apply elem_of_lookup_imap in Hl as (i & pg & -> & Hi).
    assert (pageIdx q = i).
    { unfold of_page in Hq. apply list_elem_of_fmap in Hq as (it & -> & _). reflexivity. }
    subst i. eauto.
  - intros (pg & Hpg & Hq). exists (of_page (pageIdx q) pg). split; [exact Hq |].
    apply elem_of_lookup_imap. eauto.
Qed.

Example sample_extract :
  (fun q => (qr_id q, pageIdx q)) <$> extract (pages sample_parsed)
  = [(JStr "detection_2", 2)].
Proof. reflexivity. Qed.

(** X14. The QR analyzer lists as many QR codes as the QR counter of the
    result says.  Each entry comes from an item of category 'qr' of the page
    at its position, whose id, box and page size it carries, and its position
    is one of the pages. *)
Theorem qr_items_match_the_counter (json : value) (p : parsed) :
  parseBackend json = Some p ->
  length (extract (pages p)) = qr (result_counters p) /\
  length (extract (pages p)) = detections "qr" json /\
  (forall q, q ∈ extract (pages p) ->
     pageIdx q < length (pages p) /\ qr_category q = JStr "qr" /\
     exists pg it,
       pages p !! pageIdx q = Some pg /\ it ∈ items pg /\
       qr_id q = id it /\ qr_bbox q = bbox it /\ qr_pageSize q = pageSize pg).
Proof.
  intros Hp.
  destruct (parseBackend_Some _ _ Hp) as (_ & _ & _ & _ & Hc & _).
  assert (Hlen : length (extract (pages p)) = qr (result_counters p)).
  { rewrite Hc. destruct (count_pages_spec (pages p)) as (-> & _).
    unfold extract. apply (extract_from (pages p) 0). }
  split; [exact Hlen |]. split.
  - rewrite Hlen, Hc. destruct (count_pages_spec (pages p)) as (-> & _).
    apply tally_detections. exact Hp.
  - intros q Hq. apply elem_of_extract in Hq as (pg & Hpg & Hq).
    unfold of_page in Hq. apply list_elem_of_fmap in Hq as (it & -> & Hit).
    apply list_elem_of_filter in Hit as [Hcat Hit]. apply is_str_true in Hcat.
    simpl in *. split; [eapply lookup_lt_Some; exact Hpg |]. split; [exact Hcat |].
    exists pg, it. auto.
Qed.

Lemma qr_items_match_the_counter_witness :
  parseBackend sample_report = Some sample_parsed /\
  length (extract (pages sample_parsed)) = qr (result_counters sample_parsed).
Proof.
  split; [reflexivity |].
  exact (proj1 (qr_items_match_the_counter sample_report sample_parsed eq_refl)).
Defined.

(** X15. Clicking a QR code opens a window only when its decoded text is a
    non-empty string, and the URL opened then always starts with [http://]
    or [https://]: it is the text itself if that has one of the two prefixes,
    and the text after [https://] otherwise. *)
Theorem qr_click_opens_only_urls_with_protocol (decodedData : option decoded) :
  (handleQRClick decodedData = None <->
     decodedData = None \/
     exists d, decodedData = Some d /\ (data d = None \/ data d = Some "")) /\
  (forall url, handleQRClick decodedData = Some url ->
     has_protocol url = true /\ url <> "" /\
     exists d text, decodedData = Some d /\ data d = Some text /\ text <> "" /\
       url = if has_protocol text then text else "https://" +:+ text).
Proof.
  unfold handleQRClick. split.
  - destruct decodedData as [d |]; [| split; auto].
    destruct (data d) as [text |] eqn:Hd.
    + destruct (String.eqb_spec text "") as [-> | Hne].
      * split; eauto.
      * split; [discriminate |]. intros [E | (d' & E & [H | H])]; [discriminate E | |];
          inversion E; subst d'; congruence.
    + split; eauto.
  - intros url H. destruct decodedData as [d |]; [| discriminate].
    destruct (data d) as [text |] eqn:Hd; [| discriminate].
    destruct (String.eqb_spec text "") as [| Hne]; [discriminate |].
    inversion H; subst url. clear H.
    assert (Hu : ensureURLProtocol text = if has_protocol text then text else "https://" +:+ text).
    { rewrite ensureURLProtocol_cases. destruct (String.eqb_spec text ""); [contradiction |].
      reflexivity. }
    rewrite Hu. split; [| split].
    + destruct (has_protocol text) eqn:Ht; [exact Ht |].
      unfold has_protocol. rewrite https_prepended. apply orb_true_r.
    + destruct (has_protocol text); [exact Hne | discriminate].
    + exists d, text. auto.
Qed.

(** *** Grouping by page *)

Lemma qrsByPage_from (qs : list qr_item) : forall m0 k,
  foldl add_to_page m0 qs !! k =
    match filter (fun q => pageIdx q = k) qs with
    | [] => m0 !! k
    | l => Some (default [] (m0 !! k) ++ l)
    end.
Proof.
  induction qs as [| q qs IH]; intros m0 k; [reflexivity |].
  simpl foldl. rewrite IH, filter_cons. unfold add_to_page.
  destruct (decide (pageIdx q = k)) as [-> | Hne].
  - rewrite lookup_insert_eq. simpl.
    destruct (filter _ qs) as [| q' l]; [reflexivity |].
    rewrite <- app_assoc. reflexivity.
  - rewrite lookup_insert_ne by exact Hne. reflexivity.
Qed.

Lemma filter_all {A} (P : A -> Prop) `{forall x, Decision (P x)} (l : list A) :
  (forall x, x ∈ l -> P x) -> filter P l = l.
Proof.
  induction l as [| x l IH]; intros Hl; [reflexivity |].
  rewrite filter_cons. destruct (decide (P x)) as [_ | Hn].
  - f_equal. apply IH. intros y Hy. apply Hl, list_elem_of_further, Hy.
  - exfalso. apply Hn, Hl, list_elem_of_here.
Qed.

Lemma of_page_pageIdx i pg q : q ∈ of_page i pg -> pageIdx q = i.
Proof.
  unfold of_page. intros H. apply list_elem_of_fmap in H as (it & -> & _). reflexivity.
Qed.

Lemma filter_of_page k i pg :
  filter (fun q => pageIdx q = k) (of_page i pg) = if decide (i = k) then of_page i pg else [].
Proof.
  destruct (decide (i = k)) as [-> | Hne].
  - apply filter_all. intros q. apply of_page_pageIdx.
  - apply filter_none. intros q Hq E. apply of_page_pageIdx in Hq. congruence.
Qed.

Lemma filter_extract_from (ps : list page) : forall o k,
  filter (fun q => pageIdx q = k) (concat (imap (fun i => of_page (o + i)) ps))
  = if decide (o <= k) then from_option (of_page k) [] (ps !! (k - o)) else [].
Proof.
  induction ps as [| pg ps IH]; intros o k.
  - simpl. destruct (decide (o <= k)); reflexivity.
  - rewrite imap_cons. simpl concat. rewrite filter_app, filter_of_page.
    assert (Hshift : imap ((fun i => of_page (o + i)) ∘ S) ps
                     = imap (fun i => of_page (S o + i)) ps).
    { apply imap_ext. intros i x _. simpl. f_equal. lia. }
    rewrite Hshift, IH. rewrite Nat.add_0_r.
    destruct (decide (o = k)) as [-> | Hne].
    + rewrite Nat.sub_diag. simpl.
      destruct (decide (S k <= k)); [lia |]. rewrite app_nil_r.
      destruct (decide (k <= k)); [reflexivity | lia].
    + simpl. destruct (decide (S o <= k)) as [H1 | H1]; destruct (decide (o <= k)) as [H2 | H2];
        try lia; try reflexivity.
      replace (k - o) with (S (k - S o)) by lia. reflexivity.
Qed.

Lemma qrsByPage_lookup ps k :
  qrsByPage (extract ps) !! k =
    match page_qrs ps k with
    | [] => None
    | l => Some l
    end.
Proof.
  unfold qrsByPage, extract, page_qrs. rewrite qrsByPage_from.
  change (imap of_page ps) with (imap (fun i => of_page (0 + i)) ps).
  rewrite (filter_extract_from ps 0 k).
  destruct (decide (0 <= k)); [| lia]. rewrite Nat.sub_0_r.
  rewrite lookup_empty. destruct (from_option (of_page k) [] (ps !! k)); reflexivity.
Qed.

Lemma filter_seq_longer (P : nat -> Prop) `{forall k, Decision (P k)} b e :
  (forall k, b <= k -> ~ P k) -> filter P (seq 0 (b + e)) = filter P (seq 0 b).
Proof.
  intros Hn. rewrite seq_app, filter_app, (filter_none _ (seq (0 + b) e)).
  - apply app_nil_r.
  - intros k Hk. apply elem_of_seq in Hk. apply Hn. lia.
Qed.

Lemma filter_seq_same (P : nat -> Prop) `{forall k, Decision (P k)} a b :
  (forall k, a <= k -> ~ P k) -> (forall k, b <= k -> ~ P k) ->
  filter P (seq 0 a) = filter P (seq 0 b).
Proof.
  intros Ha Hb. destruct (decide (a <= b)).
  - replace b with (a + (b - a)) by lia. symmetry. apply filter_seq_longer; assumption.
  - replace a with (b + (a - b)) by lia. apply filter_seq_longer; assumption.
Qed.

(** The keys of [qrsByPage] are the positions of the pages with QR codes. *)
Lemma index_keys_extract ps :
  index_keys (qrsByPage (extract ps))
  = pretty <$> filter (fun k => page_qrs ps k <> []) (seq 0 (length ps)).
Proof.
  unfold index_keys. f_equal.
  set (m := qrsByPage (extract ps)).
  assert (Hiff : forall k, is_Some (m !! k) <-> page_qrs ps k <> []).
  { intros k. unfold m. rewrite qrsByPage_lookup.
    destruct (page_qrs ps k); split; try congruence.
    - intros [x Hx]. discriminate Hx.
    - intros _. eauto. }
  transitivity (filter (fun k => is_Some (m !! k)) (seq 0 (length ps))).
  - apply filter_seq_same.
    + intros k Hk [x Hx].
      assert (Hin : k ∈ fst <$> map_to_list m).
      { apply list_elem_of_fmap. exists (k, x). split; [reflexivity |].
        apply elem_of_map_to_list. exact Hx. }
      apply max_list_elem_of_le in Hin. lia.
    + intros k Hk Hs. apply Hiff in Hs. apply Hs. unfold page_qrs.
      rewrite lookup_ge_None_2 by exact Hk. reflexivity.
  - apply list_filter_iff. exact Hiff.
Qed.

Lemma after_int_pretty (a b : nat) :
  after_int (pretty a) (pretty b) = (Z.of_nat b <? Z.of_nat a)%Z.
Proof. unfold after_int. rewrite !parseInt_pretty. reflexivity. Qed.

Lemma insert_int_first (a : nat) (l : list nat) :
  Forall (fun b => a < b) l ->
  insert_int (pretty a) (pretty <$> l) = pretty a :: (pretty <$> l).
Proof.
  intros H. destruct H as [| b l Hb _]; [reflexivity |].
  rewrite fmap_cons. simpl. rewrite after_int_pretty.
  destruct (Z.ltb_spec (Z.of_nat b) (Z.of_nat a)); [lia | reflexivity].
Qed.

Lemma sorting_ascending_keys (P : nat -> Prop) `{forall k, Decision (P k)} n : forall o,
  foldr insert_int [] (pretty <$> filter P (seq o n)) = pretty <$> filter P (seq o n).
Proof.
  induction n as [| n IH]; intros o; [reflexivity |].
  simpl seq. rewrite filter_cons. destruct (decide (P o)) as [_ | _]; [| apply IH].
  rewrite fmap_cons. simpl foldr. rewrite IH. apply insert_int_first.
  apply Forall_forall. intros b Hb. apply list_elem_of_filter in Hb as [_ Hb].
  apply elem_of_seq in Hb. lia.
Qed.

Lemma pageIndices_extract ps :
  pageIndices (qrsByPage (extract ps))
  = pretty <$> filter (fun k => page_qrs ps k <> []) (seq 0 (length ps)).
Proof. unfold pageIndices. rewrite index_keys_extract. apply sorting_ascending_keys. Qed.

Lemma groups_extract ps :
  groups (extract ps)
  = (fun k => (Some (Z.of_nat k), Some (page_qrs ps k)))
    <$> filter (fun k => page_qrs ps k <> []) (seq 0 (length ps)).
Proof.
  unfold groups. cbv zeta. rewrite pageIndices_extract, <- list_fmap_compose.
  apply list_fmap_ext. intros i k Hk.
  apply list_elem_of_lookup_2, list_elem_of_filter in Hk as [Hk _].
  simpl. rewrite parseInt_pretty.
  destruct (Z.ltb_spec (Z.of_nat k) 0); [lia |].
  rewrite Nat2Z.id, qrsByPage_lookup.
  destruct (page_qrs ps k); [congruence | reflexivity].
Qed.

Lemma concat_skipping_empty {A} (f : nat -> list A) (l : list nat) :
  concat (f <$> filter (fun k => f k <> []) l) = concat (f <$> l).
Proof.
  induction l as [| k l IH]; [reflexivity |].
  rewrite filter_cons. destruct (decide (f k <> [])) as [_ | He].
  - rewrite !fmap_cons. simpl. f_equal. exact IH.
  - rewrite fmap_cons. simpl. rewrite IH.
    destruct (f k); [reflexivity | exfalso; apply He; discriminate].
Qed.

Lemma page_qrs_all ps : page_qrs ps <$> seq 0 (length ps) = imap of_page ps.
Proof.
  induction ps as [| pg ps IH] using rev_ind; [reflexivity |].
  rewrite length_app. simpl length. rewrite seq_app, fmap_app, imap_app.
  f_equal.
  - rewrite <- IH. apply list_fmap_ext. intros i k Hk.
    apply list_elem_of_lookup_2, elem_of_seq in Hk.
    unfold page_qrs. rewrite lookup_app_l by lia. reflexivity.
  - simpl. unfold page_qrs. rewrite Nat.add_0_r.
    rewrite lookup_app_r by lia. rewrite Nat.sub_diag. reflexivity.
Qed.

(** X16 (QRAnalyzer, grouping by page).  The groups drawn are exactly the
    pages that hold at least one QR item, in ascending page order whatever
    order [Object.keys] and the sort had to deal with; every group carries a
    page number that parses, the entries of that page in the order of its
    items, and never an empty or undefined list; the groups put end to end
    give back [qrItems], so no entry is lost or drawn twice. *)
Theorem qr_groups_follow_the_pages (ps : list page) :
  groups (extract ps)
  = (fun k => (Some (Z.of_nat k), Some (page_qrs ps k)))
    <$> filter (fun k => page_qrs ps k <> []) (seq 0 (length ps))
  /\ Forall (fun g => exists k pg l,
               g = (Some (Z.of_nat k), Some l) /\ ps !! k = Some pg /\
               l = of_page k pg /\ l <> [])
            (groups (extract ps))
  /\ concat ((fun g => default [] (snd g)) <$> groups (extract ps)) = extract ps.
Proof.
  split; [apply groups_extract |]. split.
  - rewrite groups_extract. apply Forall_forall. intros g Hg.
    apply list_elem_of_fmap in Hg as (k & -> & Hk).
    apply list_elem_of_filter in Hk as [Hne Hk].
    apply elem_of_seq in Hk.
    destruct (lookup_lt_is_Some_2 ps k ltac:(lia)) as [pg Hpg].
    exists k, pg, (page_qrs ps k). unfold page_qrs in *. rewrite Hpg in *.
    simpl in *. repeat split; assumption.
  - rewrite groups_extract, <- list_fmap_compose.
    change ((fun g : option Z * option (list qr_item) => default [] g.2)
            ∘ (fun k => (Some (Z.of_nat k), Some (page_qrs ps k))))
      with (page_qrs ps).
    rewrite (concat_skipping_empty (page_qrs ps)), page_qrs_all. reflexivity.
Qed.

End QRAnalyzerProperties.

(* ===================================================================== *)
(** ** The order of the legacy page keys *)
(* ===================================================================== *)

Section PageKeysProperties.
Import Report PageKeys.
#[local] Open Scope list_scope.

Lemma insert_key_perm k l : insert_key k l ≡ₚ k :: l.
Proof.
  induction l as [| k' r IH]; [reflexivity |].
  simpl. destruct (after k k'); [| reflexivity].
  rewrite IH. apply Permutation_swap.
Qed.

Lemma sort_keys_perm l : sort_keys l ≡ₚ l.
Proof.
  induction l as [| k l IH]; [reflexivity |].
  unfold sort_keys in *. simpl. rewrite insert_key_perm, IH. reflexivity.
Qed.

Lemma after_true a b :
  after a b = true -> exists x y, page_no a = Some x /\ page_no b = Some y /\ (y < x)%Z.
Proof.
  unfold after. destruct (page_no a) as [x |], (page_no b) as [y |]; try discriminate.
  intros H. exists x, y. repeat split. apply Z.ltb_lt, H.
Qed.

Lemma after_false a b x y :
  page_no a = Some x -> page_no b = Some y -> after a b = false -> (x <= y)%Z.
Proof.
  unfold after. intros -> -> H. apply Z.ltb_ge, H.
Qed.

Lemma in_page_order_trans a b c :
  in_page_order a b -> in_page_order b c -> in_page_order a c.
Proof.
  unfold in_page_order.
  destruct (page_no a), (page_no b), (page_no c); try tauto. lia.
Qed.

Lemma insert_key_sorted k l :
  is_Some (page_no k) -> Forall (fun k' => is_Some (page_no k')) l ->
  StronglySorted in_page_order l -> StronglySorted in_page_order (insert_key k l).
Proof.
  intros [x Hx] Hall Hs. induction Hs as [| k' r Hs IH Hle].
  - simpl. repeat constructor.
  - apply Forall_cons in Hall as [[y Hy] Hall].
    simpl. destruct (after k k') eqn:Ha.
    + constructor; [apply IH, Hall |].
      rewrite insert_key_perm. constructor; [| exact Hle].
      apply after_true in Ha as (x' & y' & Hx' & Hy' & Hlt).
      unfold in_page_order. rewrite Hx', Hy'. lia.
    + assert (Hkk : in_page_order k k').
      { unfold in_page_order. rewrite Hx, Hy. eapply after_false; eauto. }
      constructor; [constructor; assumption |].
      constructor; [exact Hkk |].
      eapply Forall_impl; [exact Hle |]. intros z Hz.
      eapply in_page_order_trans; eauto.
Qed.

Lemma insert_key_numbered n k l :
  numbered_as n (insert_key k l) = numbered_as n (k :: l).
Proof.
  unfold numbered_as. induction l as [| k' r IH]; [reflexivity |].
  simpl insert_key. destruct (after k k') eqn:Ha; [| reflexivity].
  apply after_true in Ha as (x & y & Hx & Hy & Hlt).
  rewrite (filter_cons _ k'), IH, !(filter_cons _ k), (filter_cons _ k').
  destruct (decide (page_no k = Some n)) as [Hk | Hk];
    destruct (decide (page_no k' = Some n)) as [Hk' | Hk']; try reflexivity.
  exfalso. rewrite Hx in Hk. rewrite Hy in Hk'. simplify_eq. lia.
Qed.

(** X17 (App.jsx, [convertOldFormat]: the sort of the page keys).  When every
    key of the legacy file carries a page number of at most [2^53] in
    absolute value (the integers that [parseInt] returns exactly, so that
    the comparator's difference has the sign of the exact one), the sorted
    keys are the same keys, in ascending order of their numbers (so
    [page_10] comes after [page_2], which the order of the strings would not
    give), and keys with the same number keep the order they had. *)
Theorem legacy_page_keys_are_sorted_by_number (pks : list string) :
  Forall (fun k => exists n, page_no k = Some n /\ (Z.abs n <= 2 ^ 53)%Z) pks ->
  sort_keys pks ≡ₚ pks /\
  StronglySorted in_page_order (sort_keys pks) /\
  forall n, numbered_as n (sort_keys pks) = numbered_as n pks.
Proof.
  intros Hexact.
  assert (Hall : Forall (fun k => is_Some (page_no k)) pks).
  { eapply Forall_impl; [exact Hexact |]. intros k (n & Hn & _). exists n. exact Hn. }
  clear Hexact. split; [apply sort_keys_perm |].
  induction Hall as [| k l Hk Hall [IHs IHn]].
  - split; [constructor | reflexivity].
  - unfold sort_keys in *. simpl foldr. split.
    + apply insert_key_sorted; [exact Hk | | exact IHs].
      fold (sort_keys l). rewrite sort_keys_perm. exact Hall.
    + intros n. rewrite insert_key_numbered. unfold numbered_as in *.
      rewrite !(filter_cons _ k), IHn. reflexivity.
Qed.

Lemma legacy_page_keys_are_sorted_by_number_witness :
  Forall (fun k => exists n, page_no k = Some n /\ (Z.abs n <= 2 ^ 53)%Z)
         ["page_10"; "page_2"; "page_1"] /\
  sort_keys ["page_10"; "page_2"; "page_1"] ≡ₚ ["page_10"; "page_2"; "page_1"].
Proof.
  assert (H : Forall (fun k => exists n, page_no k = Some n /\ (Z.abs n <= 2 ^ 53)%Z)
                     ["page_10"; "page_2"; "page_1"]).
  { repeat constructor; eexists; (split; [vm_compute; reflexivity | vm_compute; discriminate]). }
  split; [exact H |].
  exact (proj1 (legacy_page_keys_are_sorted_by_number _ H)).
Defined.

End PageKeysProperties.

(* ===================================================================== *)
(** ** The client's token *)
(* ===================================================================== *)

Section ApiClientProperties.
Import DocumentsList App ApiClient.
#[local] Open Scope list_scope.

Lemma mirrored_setToken t c : mirrored (setToken t c).
Proof. reflexivity. Qed.

Lemma mirrored_loadToken c : mirrored (loadToken c).
Proof. reflexivity. Qed.

Lemma request_client r c :
  snd (fst (request r c)) = c \/ snd (fst (request r c)) = setToken JNull c.
Proof.
  unfold request. destruct (ScanHistory.request r) as [res [|]]; simpl; auto.
Qed.

Lemma keep_token_client res c ev :
  snd (fst (keep_token (res, c, ev))) = c \/
  exists t, snd (fst (keep_token (res, c, ev))) = setToken t c.
Proof.
  unfold keep_token. destruct res as [m | data]; [left; reflexivity |].
  destruct (get data "access_token") as [tok |]; [| left; reflexivity].
  simpl. destruct (truthy tok); [right; eauto | left; reflexivity].
Qed.

Lemma mirrored_request r c : mirrored c -> mirrored (snd (fst (request r c))).
Proof.
  intros H. destruct (request_client r c) as [-> | ->]; [exact H | reflexivity].
Qed.

Lemma mirrored_login r c : mirrored c -> mirrored (snd (fst (login r c))).
Proof.
  intros H. unfold login.
  pose proof (mirrored_request r c H) as Hr.
  destruct (request r c) as [[res c'] ev]. simpl in Hr.
  destruct (keep_token_client res c' ev) as [-> | [t ->]]; [exact Hr | reflexivity].
Qed.

Lemma mirrored_perform c k : mirrored c -> mirrored (perform c k).
Proof.
  intros H. destruct k; simpl.
  - apply mirrored_loadToken.
  - apply mirrored_setToken.
  - apply mirrored_login, H.
  - apply (mirrored_login r c H).
  - apply (mirrored_login r c H).
  - apply mirrored_setToken.
  - apply mirrored_request, H.
Qed.

Lemma mirrored_foldl ks : forall c, mirrored c -> mirrored (foldl perform c ks).
Proof.
  induction ks as [| k ks IH]; intros c H; [exact H |].
  simpl. apply IH, mirrored_perform, H.
Qed.

Lemma authorizations_cases ct c :
  authorizations ct c = if held_truthy (token c) then [bearer (token c)] else [].
Proof.
  unfold authorizations, getHeaders.
  rewrite omap_app.
  destruct (truthy match ct with JUndefined => JStr "application/json" | _ => ct end);
    destruct (held_truthy (token c)); reflexivity.
Qed.

(** X18 (utils/api: [loadToken], [setToken], [getHeaders], [request],
    [login], [register], [refreshToken], [logout]).  Whatever calls the
    client has served since it was constructed, an [Authorization] header it
    sends carries the token that the storage holds, and whenever the storage
    holds a non-empty token the header is sent. *)
Theorem stored_token_is_the_one_sent (storage : item) (ks : list call) (ct : value) :
  (forall t, t ∈ authorizations ct (run storage ks) ->
     exists v, stored (run storage ks) = Some v /\ t = Template "Bearer " v) /\
  (item_truthy (stored (run storage ks)) = true ->
     exists v, stored (run storage ks) = Some v /\
               authorizations ct (run storage ks) = [Template "Bearer " v]).
Proof.
  assert (H : mirrored (run storage ks)) by (apply mirrored_foldl; reflexivity).
  set (c := run storage ks) in *. clearbody c.
  rewrite authorizations_cases. unfold mirrored in H.
  destruct c as [[v | it] st]; simpl in *; subst st.
  - destruct (truthy v) eqn:Hv; simpl.
    + split; [intros t Ht; apply list_elem_of_singleton in Ht; eauto | eauto].
    + split; [intros t Ht; inversion Ht | discriminate].
  - destruct it as [v |]; simpl.
    + destruct (negb (string_is_empty v)); simpl.
      * split; [intros t Ht; apply list_elem_of_singleton in Ht; eauto | eauto].
      * split; [intros t Ht; inversion Ht | discriminate].
    + split; [intros t Ht; inversion Ht | discriminate].
Qed.

(** *** Signing out *)

Lemma signed_out_null c : signed_out (setToken JNull c).
Proof. split; reflexivity. Qed.

Lemma signed_out_request r c : signed_out c -> signed_out (snd (fst (request r c))).
Proof.
  intros H. destruct (request_client r c) as [-> | ->]; [exact H | apply signed_out_null].
Qed.

Lemma signed_out_login r c :
  match fst (ScanHistory.request r) with
  | inr data => truthy (get_opt data "access_token")
  | inl _ => false
  end = false ->
  signed_out c -> signed_out (snd (fst (login r c))).
Proof.
  intros Hg H. unfold login.
  pose proof (signed_out_request r c H) as Hr. unfold request in *.
  destruct (ScanHistory.request r) as [res ev]. simpl in Hg.
  set (c' := if ev then setToken JNull c else c) in *. clearbody c'.
  simpl in Hr. unfold keep_token.
  destruct res as [m | data]; [exact Hr |].
  destruct data; simpl in *; try exact Hr; rewrite Hg; exact Hr.
Qed.

Lemma signed_out_perform c k : grants k = false -> signed_out c -> signed_out (perform c k).
Proof.
  intros Hg H. destruct k; simpl in *.
  - destruct H as [_ H]. split; exact H.
  - unfold setToken, signed_out. simpl. rewrite Hg. split; reflexivity.
  - apply signed_out_login; assumption.
  - apply (signed_out_login r c); assumption.
  - apply (signed_out_login r c); assumption.
  - apply signed_out_null.
  - apply signed_out_request, H.
Qed.

Lemma signed_out_foldl ks : forall c,
  Forall (fun k => grants k = false) ks -> signed_out c -> signed_out (foldl perform c ks).
Proof.
  induction ks as [| k ks IH]; intros c Hall H; [exact H |].
  apply Forall_cons in Hall as [Hk Hall].
  simpl. apply IH; [exact Hall |]. apply signed_out_perform; assumption.
Qed.

(** X19 (utils/api: [request] on status 401, [logout]).  A response with
    status 401 dispatches the ['unauthorized'] event and, like [logout],
    leaves the client without a token: from then on, and until a call hands
    it a new token, no request carries an [Authorization] header and the
    storage holds no token, so a reload of the page does not bring the old
    one back. *)
Theorem no_authorization_after_sign_out (c : client) (ok : bool) (body : string + value)
    (ks : list call) (ct : value) :
  Forall (fun k => grants k = false) ks ->
  snd (request (Response ok 401 body) c) = true /\
  (forall c0, c0 = snd (fst (request (Response ok 401 body) c)) \/ c0 = logout c ->
     authorizations ct (foldl perform c0 ks) = [] /\
     item_truthy (stored (foldl perform c0 ks)) = false /\
     authorizations ct (construct (stored (foldl perform c0 ks))) = []).
Proof.
  intros Hall.
  assert (Hev : snd (ScanHistory.request (Response ok 401 body)) = true).
  { simpl. destruct body as [e | data]; [reflexivity |].
    destruct ok; [reflexivity |]. destruct (get data "detail"); reflexivity. }
  assert (Hreq : snd (request (Response ok 401 body) c) = true
                 /\ snd (fst (request (Response ok 401 body) c)) = setToken JNull c).
  { unfold request. destruct (ScanHistory.request (Response ok 401 body)) as [res ev].
    simpl in Hev. subst ev. split; reflexivity. }
  destruct Hreq as [H1 H2]. split; [exact H1 |].
  intros c0 Hc0.
  assert (Hout : signed_out c0).
  { destruct Hc0 as [-> | ->]; [rewrite H2 |]; apply signed_out_null. }
  destruct (signed_out_foldl ks c0 Hall Hout) as [Ht Hs].
  rewrite !authorizations_cases. rewrite Ht. simpl. rewrite Hs. auto.
Qed.

Lemma no_authorization_after_sign_out_witness :
  Forall (fun k => grants k = false)
         [CallRequest (Rejected "Failed to fetch"); CallLoadToken] /\
  authorizations JUndefined
    (foldl perform (logout (construct (Some (JStr "abc"))))
           [CallRequest (Rejected "Failed to fetch"); CallLoadToken]) = [].
Proof.
  assert (H : Forall (fun k => grants k = false)
                     [CallRequest (Rejected "Failed to fetch"); CallLoadToken]).
  { repeat constructor. }
  split; [exact H |].
  exact (proj1 (proj2 (no_authorization_after_sign_out (construct (Some (JStr "abc"))) false
                         (inl "") _ JUndefined H) _ (or_intror eq_refl))).
Defined.

(** X20 (utils/api: [login], [register], [refreshToken], [setToken],
    [loadToken]).  When the call succeeds and the answer carries a non-empty
    string as [access_token], that token is stored and sent from then on, and
    a client constructed afterwards (the page reloaded) sends the same
    headers. *)
Theorem granted_token_survives_a_reload (r : fetched) (c c' : client) (data : value)
    (ev : bool) (s : string) (ct : value) :
  login r c = (inr data, c', ev) ->
  get data "access_token" = Some (JStr s) ->
  s <> "" ->
  stored c' = Some (JStr s) /\
  authorizations ct c' = [Template "Bearer " (JStr s)] /\
  getHeaders ct (construct (stored c')) = getHeaders ct c'.
Proof.
  intros Hl Htok Hs. unfold login in Hl.
  destruct (request r c) as [[res c1] ev1].
  unfold keep_token in Hl. destruct res as [m | d]; [discriminate |].
  destruct (get d "access_token") as [tok |] eqn:Hd; [| discriminate].
  inversion Hl; subst d c' ev1. rewrite Htok in Hd. inversion Hd; subst tok.
  assert (Ht : negb (String.eqb s "") = true).
  { destruct (String.eqb_spec s ""); [contradiction | reflexivity]. }
  simpl truthy. rewrite Ht. rewrite !authorizations_cases.
  unfold getHeaders, setToken. simpl. rewrite !Ht. simpl. rewrite ?Ht.
  split; [reflexivity |]. split; reflexivity.
Qed.

Lemma granted_token_survives_a_reload_witness :
  login (Response true 200 (inr (JObj [("access_token", JStr "abc"); ("user", JNull)])))
        (construct None)
  = (inr (JObj [("access_token", JStr "abc"); ("user", JNull)]),
     Client (Given (JStr "abc")) (Some (JStr "abc")), false) /\
  stored (Client (Given (JStr "abc")) (Some (JStr "abc"))) = Some (JStr "abc").
Proof.
  split; [reflexivity |].
  exact (proj1 (granted_token_survives_a_reload
                  (Response true 200 (inr (JObj [("access_token", JStr "abc"); ("user", JNull)])))
                  (construct None) _ _ false "abc" JUndefined eq_refl eq_refl
                  ltac:(discriminate))).
Defined.

End ApiClientProperties.

(* ===================================================================== *)
(** ** Signing in and the protected routes *)
(* ===================================================================== *)

Section AuthContextProperties.
Import DocumentsList App ApiClient AuthContext.
#[local] Open Scope list_scope.

Lemma get_read_or_throw (v : value) (k : string) :
  (exists x, get v k = Some x /\ x = get_opt v k) \/
  (get v k = None /\ forall k', get v k' = None).
Proof. destruct v; simpl; eauto. Qed.

Lemma or_message_nonempty fallback m :
  fallback <> "" -> message_is_empty (or_message fallback m) = false.
Proof.
  intros Hf. unfold or_message. destruct (message_is_empty m) eqn:Hm; [| exact Hm].
  simpl. destruct (String.eqb_spec fallback ""); [contradiction | reflexivity].
Qed.

(** What [login] leaves, by the answer of the request. *)
Lemma login_outcome r s :
  match fst (ScanHistory.request r) with
  | inr data =>
      match get data "user" with
      | Some u =>
          exists c, AuthContext.login r s = (inr data, Session c (Auth u false
                      (error (notify (snd (ScanHistory.request r))
                                (setError None (setLoading true (state s)))))))
      | None =>
          exists m c a, AuthContext.login r s = (inl m, Session c a) /\
            loading a = false /\ error a = Some (or_message "Login failed" m)
      end
  | inl m =>
      exists c a, AuthContext.login r s = (inl m, Session c a) /\
        loading a = false /\ error a = Some (or_message "Login failed" m)
  end.
Proof.
  unfold AuthContext.login, authenticate, ApiClient.login, request.
  destruct (ScanHistory.request r) as [[m | data] ev]; simpl.
  - eauto 6.
  - destruct (get_read_or_throw data "user") as [(u & Hu & _) | [Hu Hall]]; rewrite Hu.
    + destruct (get_read_or_throw data "access_token") as [(t & Ht & _) | [Ht Hall]];
        [| rewrite Hall in Hu; discriminate].
      rewrite Ht. rewrite Hu. eauto.
    + rewrite (Hall "access_token"). eauto 6.
Qed.

(** X21 ([AuthContext.loadUser] with [ProtectedRoute]).  When the provider
    has loaded the user, a protected page is drawn only if the storage held a
    token and the request for the current user succeeded with a user, and an
    admin page only if that user's role is ['admin'].  Without a stored token
    the answer is not looked at and only the loading flag changes; when the
    request fails the token is dropped; in both cases the route leads to
    [/auth]. *)
Theorem protected_page_needs_a_loaded_user (storage : item) (r : fetched)
    (requireAdmin : bool) :
  let s := loadUser r (Session (construct storage) initial) in
  loading (state s) = false /\
  (ProtectedRoute requireAdmin (state s) = Children <->
     item_truthy storage = true /\
     exists userData, fst (ScanHistory.request r) = inr userData /\
       truthy userData = true /\
       (requireAdmin = true -> is_str (get_opt userData "role") "admin" = true)) /\
  (item_truthy storage = true -> (exists m, fst (ScanHistory.request r) = inl m) ->
     stored (api s) = None /\ authorizations JUndefined (api s) = [] /\
     ProtectedRoute requireAdmin (state s) = NavigateTo "/auth") /\
  (item_truthy storage = false ->
     s = Session (construct storage) (setLoading false initial) /\
     ProtectedRoute requireAdmin (state s) = NavigateTo "/auth").
Proof.
  intros s. subst s. unfold loadUser, getCurrentUser, request. simpl stored.
  destruct (item_truthy storage) eqn:Hst; simpl negb; cbv iota.
  - destruct (ScanHistory.request r) as [[m | userData] ev]; simpl.
    + split; [reflexivity |]. split; [| split].
      * split; [discriminate |]. intros (_ & u & Hu & _). discriminate.
      * intros _ _. rewrite authorizations_cases. simpl.
        destruct ev; auto.
      * discriminate.
    + split; [reflexivity |]. split; [| split].
      * unfold ProtectedRoute, isAdmin. simpl.
        destruct (truthy userData) eqn:Hu; simpl.
        -- destruct requireAdmin; simpl.
           ++ destruct (is_str (get_opt userData "role") "admin") eqn:Hr; simpl.
              ** split; [| reflexivity]. intros _. split; [reflexivity |].
                 exists userData. auto.
              ** split; [discriminate |]. intros (_ & u & Heq & _ & Hadm).
                 inversion Heq; subst u. rewrite Hr in Hadm.
                 specialize (Hadm eq_refl). discriminate.
           ++ split; [| reflexivity]. intros _. split; [reflexivity |].
              exists userData. split; [reflexivity |]. split; [exact Hu | discriminate].
        -- split; [discriminate |]. intros (_ & u & Heq & Hu' & _).
           inversion Heq; subst u. congruence.
      * intros _ [m Hm]. discriminate.
      * discriminate.
  - simpl. split; [reflexivity |]. split; [| split].
    + split; [discriminate |]. intros [H _]. discriminate.
    + discriminate.
    + intros _. split; reflexivity.
Qed.

(** X22 ([LoginForm.handleSubmit], [AuthPage.handleLogin],
    [AuthContext.login], [ApiClient.login]).  Submitting the login form
    leads to [/dashboard] exactly when both fields are filled and the request
    succeeded with a body other than [null]; the user is then the [user] of
    the answer.  In every other case the form shows a message that is not
    empty, the same one the provider records when the request was made, and
    with an empty field the session is left as it was. *)
Theorem login_navigates_only_on_success (email password : string) (r : fetched)
    (s s' : session) (f : form) (nav : option string) :
  handleSubmit email password r s = (f, s', nav) ->
  form_loading f = false /\
  (nav = Some "/dashboard" <->
     email <> "" /\ password <> "" /\
     exists data, fst (ScanHistory.request r) = inr data /\ keys data <> None) /\
  (nav = Some "/dashboard" ->
     localError f = None /\ loading (state s') = false /\
     exists data, fst (ScanHistory.request r) = inr data /\
                  user (state s') = get_opt data "user") /\
  (nav <> Some "/dashboard" ->
     nav = None /\
     exists m, localError f = Some m /\ message_is_empty m = false /\
       (email <> "" -> password <> "" ->
        error (state s') = Some m /\ loading (state s') = false)) /\
  (email = "" \/ password = "" -> s' = s).
Proof.
  unfold handleSubmit, handleLogin. intros H.
  destruct (String.eqb_spec email "") as [He | He]; simpl in H.
  { inversion H; subst. simpl. split; [reflexivity |]. split; [| split; [| split]].
    - split; [discriminate | intros [Hc _]; contradiction].
    - discriminate.
    - intros _. split; [reflexivity |]. eexists. split; [reflexivity |].
      split; [reflexivity | contradiction].
    - reflexivity. }
  destruct (String.eqb_spec password "") as [Hp | Hp]; simpl in H.
  { inversion H; subst. simpl. split; [reflexivity |]. split; [| split; [| split]].
    - split; [discriminate | intros (_ & Hc & _); contradiction].
    - discriminate.
    - intros _. split; [reflexivity |]. eexists. split; [reflexivity |].
      split; [reflexivity |]. intros _ Hc. contradiction.
    - reflexivity. }
  pose proof (login_outcome r s) as Hl.
  destruct (fst (ScanHistory.request r)) as [m | data] eqn:Hreq.
  - destruct Hl as (c & a & Hl & Hload & Herr). rewrite Hl in H.
    inversion H; subst. simpl. split; [reflexivity |]. split; [| split; [| split]].
    + split; [discriminate |]. intros (_ & _ & d & Hd & _). discriminate.
    + discriminate.
    + intros _. split; [reflexivity |]. eexists. split; [reflexivity |].
      split; [apply or_message_nonempty; discriminate |]. auto.
    + intros [Hc | Hc]; contradiction.
  - destruct (get_read_or_throw data "user") as [(u & Hu & Hu') | [Hu Hall]]; rewrite Hu in Hl.
    + destruct Hl as [c Hl]. rewrite Hl in H. inversion H; subst. simpl.
      split; [reflexivity |]. split; [| split; [| split]].
      * split; [| reflexivity]. intros _. split; [exact He |]. split; [exact Hp |].
        exists data. split; [reflexivity |]. destruct data; simpl in *; congruence.
      * intros _. split; [reflexivity |]. split; [reflexivity |]. eauto.
      * intros Hc. contradiction.
      * intros [Hc | Hc]; contradiction.
    + destruct Hl as (m & c & a & Hl & Hload & Herr). rewrite Hl in H.
      inversion H; subst. simpl. split; [reflexivity |]. split; [| split; [| split]].
      * split; [discriminate |]. intros (_ & _ & d & Hd & Hk).
        inversion Hd; subst d. destruct data; simpl in *; congruence.
      * discriminate.
      * intros _. split; [reflexivity |]. eexists. split; [reflexivity |].
        split; [apply or_message_nonempty; discriminate |]. auto.
      * intros [Hc | Hc]; contradiction.
Qed.

Lemma login_navigates_only_on_success_witness :
  handleSubmit "a@b.c" "secret12"
    (Response false 401 (inr (JObj [("detail", JStr "Incorrect email or password")])))
    (Session (construct (Some (JStr "old"))) (setLoading false initial))
  = (Form false (Some (MsgDetail (JStr "Incorrect email or password"))),
     Session (Client (Given JNull) None)
             (Auth JNull false (Some (MsgDetail (JStr "Incorrect email or password")))),
     None) /\
  form_loading (Form false (Some (MsgDetail (JStr "Incorrect email or password")))) = false.
Proof.
  split; [reflexivity |].
  exact (proj1 (login_navigates_only_on_success "a@b.c" "secret12"
                  (Response false 401 (inr (JObj [("detail", JStr "Incorrect email or password")])))
                  (Session (construct (Some (JStr "old"))) (setLoading false initial))
                  _ _ _ eq_refl)).
Defined.

End AuthContextProperties.

(* ===================================================================== *)
(** ** The name of a downloaded file *)
(* ===================================================================== *)

Section DownloadProperties.
Import Download.

Lemma append_cons c s t : String c s ++ t = String c (s ++ t).
Proof. reflexivity. Qed.

Lemma append_empty t : "" ++ t = t.
Proof. reflexivity. Qed.

Lemma after_literal_split p : forall s rest,
  after_literal p s = Some rest ->
  exists lit, s = lit ++ rest /\ String.length lit = String.length p /\
              after_literal p lit = Some "".
Proof.
  induction p as [| a p IH]; intros s rest H.
  - simpl in H. inversion H; subst. exists "". repeat split.
  - destruct s as [| b s]; [discriminate |]. simpl in H.
    destruct (Ascii.eqb (lower a) (lower b)) eqn:Hab; [| discriminate].
    destruct (IH s rest H) as (lit & -> & Hlen & Hlit).
    exists (String b lit). rewrite append_cons. simpl. rewrite Hab, Hlen.
    repeat split. exact Hlit.
Qed.

Lemma run_of_split s : exists post, s = run_of s ++ post.
Proof.
  induction s as [| c s [post IH]]; [exists ""; reflexivity |].
  simpl. destruct (plain c).
  - exists post. rewrite append_cons, <- IH. reflexivity.
  - exists (String c s). reflexivity.
Qed.

Lemma run_of_plain s : Forall (fun c => plain c = true) (list_ascii_of_string (run_of s)).
Proof.
  induction s as [| c s IH]; [constructor |].
  simpl. destruct (plain c) eqn:Hc; [| constructor].
  simpl. constructor; assumption.
Qed.

Lemma run_of_app n post :
  Forall (fun c => plain c = true) (list_ascii_of_string n) -> run_of post = "" ->
  run_of (n ++ post) = n.
Proof.
  intros Hn Hpost. induction n as [| c n IH]; [exact Hpost |].
  rewrite append_cons. simpl in *. apply Forall_cons in Hn as [Hc Hn].
  rewrite Hc. f_equal. apply IH, Hn.
Qed.

Lemma match_here_found s name :
  match_here s = Some name ->
  name <> "" /\
  Forall (fun c => plain c = true) (list_ascii_of_string name) /\
  exists lit q post,
    s = lit ++ q ++ name ++ post /\ after_literal "filename=" lit = Some "" /\
    (q = "" \/ q = String quote "").
Proof.
  unfold match_here. intros H.
  destruct (after_literal "filename=" s) as [rest |] eqn:Hlit; [| discriminate].
  apply after_literal_split in Hlit as (lit & -> & _ & Hlit).
  set (rest' := match rest with
                | String c r => if Ascii.eqb c quote then r else rest
                | EmptyString => rest
                end) in *.
  assert (Hq : exists q, rest = q ++ rest' /\ (q = "" \/ q = String quote "")).
  { subst rest'. destruct rest as [| c r]; [exists ""; auto |].
    destruct (Ascii.eqb_spec c quote) as [-> | _]; [| exists ""; auto].
    exists (String quote ""). auto. }
  clearbody rest'. destruct Hq as (q & -> & Hq).
  pose proof (run_of_plain rest') as Hplain.
  destruct (run_of_split rest') as [post Hpost].
  destruct (run_of rest') as [| c n] eqn:Hrun; [discriminate |].
  inversion H; subst name. split; [discriminate |]. split; [exact Hplain |].
  exists lit, q, post. rewrite <- Hpost. auto.
Qed.

Lemma find_filename_found cd : forall name,
  find_filename cd = Some name ->
  name <> "" /\
  Forall (fun c => plain c = true) (list_ascii_of_string name) /\
  exists pre lit q post,
    cd = pre ++ lit ++ q ++ name ++ post /\ after_literal "filename=" lit = Some "" /\
    (q = "" \/ q = String quote "").
Proof.
  induction cd as [| c cd IH]; intros name H.
  - discriminate H.
  - simpl in H. destruct (match_here (String c cd)) eqn:Hm.
    + inversion H; subst.
      apply match_here_found in Hm as (Hne & Hpl & lit & q & post & Hs & Hl & Hq).
      split; [exact Hne |]. split; [exact Hpl |]. exists "", lit, q, post. auto.
    + destruct (IH name H) as (Hne & Hpl & pre & lit & q & post & -> & Hl & Hq).
      split; [exact Hne |]. split; [exact Hpl |].
      exists (String c pre), lit, q, post. auto.
Qed.

(** X23 (utils/api [downloadScanPdf], [ScanHistory.handleDownload]).  The
    file a download is saved as always has a name: the name read from the
    [content-disposition] header, which is never empty, holds neither a
    quote nor a semicolon and stands in the header right after a
    [filename=] (in any case) and at most one quote; and without such a name
    [scan-<id>.pdf]. *)
Theorem downloaded_file_has_a_name (cd : option string) (scanId : nat) :
  saved_as cd scanId <> "" /\
  (filename cd = None -> saved_as cd scanId = "scan-" ++ pretty scanId ++ ".pdf") /\
  (forall name, filename cd = Some name ->
     saved_as cd scanId = name /\
     Forall (fun c => plain c = true) (list_ascii_of_string name) /\
     exists header pre lit q post,
       cd = Some header /\ header = pre ++ lit ++ q ++ name ++ post /\
       after_literal "filename=" lit = Some "" /\ (q = "" \/ q = String quote "")).
Proof.
  assert (Hsome : forall name, filename cd = Some name ->
            name <> "" /\
            Forall (fun c => plain c = true) (list_ascii_of_string name) /\
            exists header pre lit q post,
              cd = Some header /\ header = pre ++ lit ++ q ++ name ++ post /\
              after_literal "filename=" lit = Some "" /\ (q = "" \/ q = String quote "")).
  { intros name H. unfold filename in H. destruct cd as [s |]; [| discriminate].
    destruct (String.eqb s ""); [discriminate |].
    apply find_filename_found in H as (Hne & Hpl & pre & lit & q & post & Hs & Hl & Hq).
    split; [exact Hne |]. split; [exact Hpl |]. exists s, pre, lit, q, post. auto. }
  unfold saved_as. destruct (filename cd) as [name |] eqn:Hf.
  - destruct (Hsome name eq_refl) as (Hne & Hpl & Hex).
    assert (Hd : download_name (Some name) scanId = name).
    { unfold download_name. destruct (String.eqb_spec name ""); [contradiction | reflexivity]. }
    rewrite Hd. split; [exact Hne |]. split; [discriminate |].
    intros n Hn. inversion Hn; subst n. auto.
  - simpl. split; [discriminate |]. split; [reflexivity | discriminate].
Qed.

Lemma match_here_unquoted c n post :
  Ascii.eqb c quote = false -> run_of (String c (n ++ post)) = String c n ->
  match_here ("filename=" ++ String c (n ++ post)) = Some (String c n).
Proof.
  intros Hc Hrun. rewrite !append_cons, append_empty. unfold match_here.
  simpl after_literal. cbv iota. rewrite Hc, Hrun. reflexivity.
Qed.

Lemma match_here_quoted c n post :
  run_of (String c (n ++ post)) = String c n ->
  match_here ("filename=" ++ String quote (String c (n ++ post))) = Some (String c n).
Proof.
  intros Hrun. rewrite !append_cons, append_empty. unfold match_here.
  simpl after_literal. cbv iota. rewrite Ascii.eqb_refl, Hrun. reflexivity.
Qed.

(** X24 (utils/api [downloadScanPdf]: the pattern of the file name).  A name
    that is not empty and holds neither a quote nor a semicolon is read back
    from an [attachment] header that carries it, quoted or not, whatever
    follows it after a closing quote or a semicolon. *)
Theorem file_name_is_read_back (name post : string) :
  name <> "" ->
  Forall (fun c => plain c = true) (list_ascii_of_string name) ->
  run_of post = "" ->
  filename (Some ("attachment; filename=" ++ name ++ post)) = Some name /\
  filename (Some ("attachment; filename=" ++ String quote (name ++ post))) = Some name.
Proof.
  intros Hne Hpl Hpost.
  pose proof (run_of_app name post Hpl Hpost) as Hrun.
  destruct name as [| c n]; [contradiction |].
  assert (Hc : Ascii.eqb c quote = false).
  { apply Forall_cons in Hpl as [Hc _]. unfold plain in Hc.
    destruct (Ascii.eqb c quote); [discriminate | reflexivity]. }
  rewrite append_cons in Hrun.
  split.
  - unfold filename. rewrite !append_cons, append_empty.
    pose proof (match_here_unquoted c n post Hc Hrun) as Hm.
    rewrite !append_cons, append_empty in Hm. simpl. rewrite Hm. reflexivity.
  - unfold filename. rewrite !append_cons, append_empty.
    pose proof (match_here_quoted c n post Hrun) as Hm.
    rewrite !append_cons, append_empty in Hm. simpl. rewrite Hm. reflexivity.
Qed.

Lemma file_name_is_read_back_witness :
  "scan.pdf" <> "" /\
  filename (Some ("attachment; filename=" ++ "scan.pdf" ++ "; size=10")) = Some "scan.pdf".
Proof.
  split; [discriminate |].
  exact (proj1 (file_name_is_read_back "scan.pdf" "; size=10" ltac:(discriminate)
                  ltac:(repeat constructor) eq_refl)).
Defined.

End DownloadProperties.
